(** * FPGA Gaussian blur tooling: bmp_to_hex.c and convert.c

    A shallow embedding of the two host-side C programs of the repository
    and the properties of their image pipeline:

    - [bmp_to_hex.c]: 24-bit BMP -> canonical pixel buffer -> bilinear
      resize to 320x240 -> RGB565 -> one hex line per pixel;
    - [convert.c]: hex lines -> RGB565 values (skipping noise, filling a
      shortfall with the last valid value) -> RGB888 bytes of a PPM.

    C integers are modelled as [Z]; every narrowing conversion the source
    performs is written out as a reduction modulo the width of the target
    type.  C [float] is IEEE-754 binary32 with round-to-nearest-even,
    taken from the Standard Library's executable specification
    [SpecFloat] at precision 24 and maximal exponent 128. *)

From Stdlib Require Import ZArith Lia Ascii String Bool List.
From Stdlib Require Import Floats.SpecFloat.
From Stdlib Require Import Reals Lra.
Import ListNotations.
Local Open Scope Z_scope.

(** ** Integer conversions *)

(** [(uint8_t) z] and [(uint16_t) z]. *)
Definition u8 (z : Z) : Z := z mod 256.
Definition u16 (z : Z) : Z := z mod 65536.

Definition is_u8 (z : Z) : Prop := 0 <= z < 256.
Definition is_u16 (z : Z) : Prop := 0 <= z < 65536.

(** ** The pixel type of bmp_to_hex.c *)

Record Pixel := mkPixel { px_r : Z; px_g : Z; px_b : Z }.

(** ** ColorCodec *)

Module ColorCodec.

(** bmp_to_hex.c, [to_rgb565]: the three locals are [uint16_t], the
    shifts and the ors are computed in [int], the result is cast back. *)
Definition to_rgb565 (r g b : Z) : Z :=
  let r5 := u16 (Z.land (Z.shiftr r 3) 0x1F) in
  let g6 := u16 (Z.land (Z.shiftr g 2) 0x3F) in
  let b5 := u16 (Z.land (Z.shiftr b 3) 0x1F) in
  u16 (Z.lor (Z.lor (Z.shiftl r5 11) (Z.shiftl g6 5)) b5).

(** convert.c, lines 78-84 and again 97-103: the RGB565 -> RGB888
    expansion.  The six locals are [uint8_t]; the products and the
    quotients are computed in [int], and C's [/] truncates ([Z.quot]). *)
Definition field_r (p : Z) : Z := u8 (Z.land (Z.shiftr p 11) 0x1F).
Definition field_g (p : Z) : Z := u8 (Z.land (Z.shiftr p 5) 0x3F).
Definition field_b (p : Z) : Z := u8 (Z.land p 0x1F).

Definition expand5 (f : Z) : Z := u8 (Z.quot (f * 255) 31).
Definition expand6 (f : Z) : Z := u8 (Z.quot (f * 255) 63).

Definition rgb565_to_rgb888 (p : Z) : Z * Z * Z :=
  let r5 := field_r p in
  let g6 := field_g p in
  let b5 := field_b p in
  let r8 := expand5 r5 in
  let g8 := expand6 g6 in
  let b8 := expand5 b5 in
  (r8, g8, b8).

(** The same expansion with the narrowing casts left out: what the
    formula [field * 255 / max] gives before it is stored in a byte. *)
Definition wide5 (f : Z) : Z := Z.quot (f * 255) 31.
Definition wide6 (f : Z) : Z := Z.quot (f * 255) 63.

End ColorCodec.

(** ** Characters and C strings *)

(** A C string is the list of the characters stored in its buffer; the
    terminating NUL is implicit at the end of the list, and a NUL inside
    the list ends the string early, as it does in C. *)
Definition NUL : ascii := "000"%char.
Definition LF : ascii := "010"%char.
Definition CR : ascii := "013"%char.

Definition code (c : ascii) : Z := Z.of_N (N_of_ascii c).

Definition is_nul (c : ascii) : bool := Ascii.eqb c NUL.

(** [line[n]]: reading at the end of the list reads the terminator. *)
Definition char_at (line : list ascii) (n : nat) : ascii := nth n line NUL.

(** <ctype.h> in the "C" locale (the programs never call setlocale). *)
Definition isspace (c : ascii) : bool :=
  (code c =? 32) || ((9 <=? code c) && (code c <=? 13)).

Definition isdigit (c : ascii) : bool := (48 <=? code c) && (code c <=? 57).

Definition isxdigit (c : ascii) : bool :=
  isdigit c
  || ((65 <=? code c) && (code c <=? 70))
  || ((97 <=? code c) && (code c <=? 102)).

(** The value of a character as a base-16 digit. *)
Definition xdigit_value (c : ascii) : option Z :=
  if isdigit c then Some (code c - 48)
  else if (65 <=? code c) && (code c <=? 70) then Some (code c - 55)
  else if (97 <=? code c) && (code c <=? 102) then Some (code c - 87)
  else None.

(** ** <stdlib.h>: [strtoul (s, NULL, 16)]

    The library function of ISO C, for an LP64 [unsigned long]: leading
    white space, an optional sign, an optional [0x] or [0X] in front of a
    digit, then the longest run of base-16 digits; an overflowing value
    is clamped to [ULONG_MAX], and a minus sign negates modulo
    [ULONG_MAX + 1]. *)
Module Libc.

Definition ULONG_MAX : Z := 2 ^ 64 - 1.

Fixpoint skip_isspace (s : list ascii) : list ascii :=
  match s with
  | c :: rest => if isspace c then skip_isspace rest else s
  | [] => []
  end.

Fixpoint digits16 (acc : Z) (s : list ascii) : Z :=
  match s with
  | c :: rest =>
      match xdigit_value c with
      | Some d => digits16 (acc * 16 + d) rest
      | None => acc
      end
  | [] => acc
  end.

Definition skip_0x (s : list ascii) : list ascii :=
  match s with
  | z :: x :: d :: rest =>
      if Ascii.eqb z "0" && (Ascii.eqb x "x" || Ascii.eqb x "X") && isxdigit d
      then d :: rest else s
  | _ => s
  end.

Definition strtoul16 (s : list ascii) : Z :=
  let s1 := skip_isspace s in
  let '(neg, s2) :=
    match s1 with
    | c :: rest =>
        if Ascii.eqb c "-" then (true, rest)
        else if Ascii.eqb c "+" then (false, rest)
        else (false, s1)
    | [] => (false, s1)
    end in
  let v := digits16 0 (skip_0x s2) in
  if ULONG_MAX <? v then ULONG_MAX
  else if neg then (- v) mod (ULONG_MAX + 1) else v.

End Libc.

(** ** convert.c *)

Module Convert.

Definition WIDTH : Z := 320.
Definition HEIGHT : Z := 240.
Definition TOTAL_PIXELS : Z := WIDTH * HEIGHT.

(** The loop that advances [line] while it points at a character that is
    not NUL and for which [isspace] holds. *)
Fixpoint skip_leading (line : list ascii) : list ascii :=
  match line with
  | c :: rest =>
      if negb (is_nul c) && isspace c then skip_leading rest else line
  | [] => []
  end.

(** The copy loop into [char buf[64]]: [room] is [sizeof(buf)-1 - n]. *)
Fixpoint copy_to_buf (room : nat) (line : list ascii) : list ascii :=
  match room with
  | O => []
  | S room' =>
      match line with
      | c :: rest =>
          if negb (is_nul c) && negb (Ascii.eqb c CR) && negb (Ascii.eqb c LF)
          then c :: copy_to_buf room' rest
          else []
      | [] => []
      end
  end.

Definition is_x (c : ascii) : bool := Ascii.eqb c "x" || Ascii.eqb c "X".

(** [parse_rgb565_line]: [Some v] stands for a return of 1 with
    [v] stored through [out], [None] for a return of 0, which leaves the
    target of [out] untouched. *)
Definition parse_rgb565_line (line : list ascii) : option Z :=
  let line := skip_leading line in
  if Ascii.eqb (char_at line 0) "/" && Ascii.eqb (char_at line 1) "/"
  then None
  else
    let buf := copy_to_buf (64 - 1) line in
    let n := Z.of_nat (length buf) in
    if n =? 0 then None
    else if existsb is_x buf then None
    else if negb (forallb isxdigit buf) then None
    else if 4 <? n then None
    else
      let v := Libc.strtoul16 buf in
      Some (u16 (Z.land v 0xFFFF)).

(** [fgets (line, size, f)]: at most [size - 1] characters, up to and
    including the first line feed; [None] is the null pointer returned at
    end of file.  The second component is the unread rest of the file. *)
Fixpoint fgets_chars (room : nat) (f : list ascii) : list ascii * list ascii :=
  match room, f with
  | S room', c :: f' =>
      if Ascii.eqb c LF then ([c], f')
      else let '(l, r) := fgets_chars room' f' in (c :: l, r)
  | _, _ => ([], f)
  end.

Definition fgets (size : nat) (f : list ascii)
  : option (list ascii * list ascii) :=
  match f with
  | [] => None
  | _ :: _ => Some (fgets_chars (size - 1) f)
  end.

(** The locals of [main] that survive an iteration, the unread part of
    blurred.hex, and the bytes written to output.ppm after its header,
    the most recent first. *)
Record state := mkState {
  written : Z;
  pixel : Z;
  last_valid : Z;
  hex_file : list ascii;
  ppm_file : list Z
}.

Definition fputc (c : Z) (f : list Z) : list Z := c :: f.

(** The body shared by the two loops: expand [p], write the three bytes,
    count the pixel. *)
Definition emit (p : Z) (w : Z) (f : list Z) : Z * list Z :=
  let '(r8, g8, b8) := ColorCodec.rgb565_to_rgb888 p in
  let f := fputc r8 f in
  let f := fputc g8 f in
  let f := fputc b8 f in
  (w + 1, f).

(** The first loop of [main]; [None] means the fuel ran out. *)
Fixpoint read_loop (fuel : nat) (st : state) : option state :=
  match fuel with
  | O => None
  | S fuel' =>
      if written st <? TOTAL_PIXELS then
        match fgets 256 (hex_file st) with
        | None => Some st
        | Some (line, rest) =>
            match parse_rgb565_line line with
            | None =>
                read_loop fuel'
                  (mkState (written st) (pixel st) (last_valid st) rest
                           (ppm_file st))
            | Some px =>
                let '(w, f) := emit px (written st) (ppm_file st) in
                read_loop fuel' (mkState w px px rest f)
            end
        end
      else Some st
  end.

(** The second loop of [main]. *)
Fixpoint fill_loop (fuel : nat) (st : state) : option state :=
  match fuel with
  | O => None
  | S fuel' =>
      if written st <? TOTAL_PIXELS then
        let p := last_valid st in
        let '(w, f) := emit p (written st) (ppm_file st) in
        fill_loop fuel' (mkState w (pixel st) (last_valid st) (hex_file st) f)
      else Some st
  end.

(** [main], from the declaration of [line] on: the pixel bytes that
    follow the PPM header, in file order, for the given contents of
    blurred.hex. *)
Definition main_with_fuel (fuel : nat) (content : list ascii)
  : option (list Z) :=
  match read_loop fuel (mkState 0 0 0 content []) with
  | None => None
  | Some st1 =>
      match fill_loop fuel st1 with
      | None => None
      | Some st2 => Some (rev_append (ppm_file st2) [])
      end
  end.

Definition main (content : list ascii) : option (list Z) :=
  main_with_fuel (S (length content + Z.to_nat TOTAL_PIXELS)) content.

(** The lines of a file as [fgets] with a 256-byte buffer delivers them. *)
Fixpoint lines_with_fuel (fuel : nat) (f : list ascii) : list (list ascii) :=
  match fuel with
  | O => []
  | S fuel' =>
      match fgets 256 f with
      | None => []
      | Some (line, rest) => line :: lines_with_fuel fuel' rest
      end
  end.

Definition lines_of (content : list ascii) : list (list ascii) :=
  lines_with_fuel (length content) content.

(** The values that the parser returns for the lines it accepts, in
    order. *)
Fixpoint values_of_lines (ls : list (list ascii)) : list Z :=
  match ls with
  | [] => []
  | l :: ls' =>
      match parse_rgb565_line l with
      | Some v => v :: values_of_lines ls'
      | None => values_of_lines ls'
      end
  end.

(** The values that the reading loop obtains from a whole file: those of
    the pieces that [fgets] delivers, which are the lines of the text
    only when no line is longer than the buffer. *)
Definition valid_values (content : list ascii) : list Z :=
  values_of_lines (lines_of content).

(** The bytes by which a sequence of packed values appears in the PPM. *)
Definition ppm_bytes (packed : list Z) : list Z :=
  flat_map (fun p => let '(r8, g8, b8) := ColorCodec.rgb565_to_rgb888 p in
                     [r8; g8; b8]) packed.

End Convert.

(** ** The line classification of the specification

    Written after the specification's words, to be compared with
    [Convert.parse_rgb565_line]. *)
Module LineSpec.

Fixpoint drop_while (f : ascii -> bool) (s : list ascii) : list ascii :=
  match s with
  | c :: rest => if f c then drop_while f rest else s
  | [] => []
  end.

Fixpoint take_while (f : ascii -> bool) (s : list ascii) : list ascii :=
  match s with
  | c :: rest => if f c then c :: take_while f rest else []
  | [] => []
  end.

Definition strip_leading_whitespace (s : list ascii) : list ascii :=
  drop_while isspace s.

Definition begins_with_two_slashes (s : list ascii) : Prop :=
  exists rest, s = "/"%char :: "/"%char :: rest.

Definition MAX_CONTENT : nat := 63.

Definition is_eol (c : ascii) : bool := Ascii.eqb c CR || Ascii.eqb c LF.

(** The stripped line cut at the first CR or LF, or at the buffer length. *)
Definition content (line : list ascii) : list ascii :=
  firstn MAX_CONTENT
    (take_while (fun c => negb (is_eol c)) (strip_leading_whitespace line)).

Definition is_hex_digit (c : ascii) : Prop :=
  In c (list_ascii_of_string "0123456789abcdefABCDEF").

Definition hex_digit_value (c : ascii) : Z :=
  match c with
  | "0" => 0 | "1" => 1 | "2" => 2 | "3" => 3 | "4" => 4
  | "5" => 5 | "6" => 6 | "7" => 7 | "8" => 8 | "9" => 9
  | "a" | "A" => 10 | "b" | "B" => 11 | "c" | "C" => 12
  | "d" | "D" => 13 | "e" | "E" => 14 | "f" | "F" => 15
  | _ => 0
  end%char.

(** The content read as a base-16 numeral. *)
Definition hex_value (s : list ascii) : Z :=
  fold_left (fun acc c => acc * 16 + hex_digit_value c) s 0.

Definition is_data_line (line : list ascii) : Prop :=
  ~ begins_with_two_slashes (strip_leading_whitespace line)
  /\ content line <> []
  /\ (forall c, In c (content line) -> c <> "x"%char /\ c <> "X"%char)
  /\ (length (content line) <= 4)%nat
  /\ (forall c, In c (content line) -> is_hex_digit c).

Definition data_value (line : list ascii) : Z :=
  Z.land (hex_value (content line)) 0xFFFF.

End LineSpec.

(** ** The lines of a text

    The lines of a file in the ordinary sense, each ending with its line
    feed except possibly the last, to be compared with what [fgets]
    delivers into its 256-byte buffer. *)
Module TextLines.

Fixpoint take_line (f : list ascii) : list ascii * list ascii :=
  match f with
  | [] => ([], [])
  | c :: f' =>
      if Ascii.eqb c LF then ([c], f')
      else let '(l, r) := take_line f' in (c :: l, r)
  end.

Fixpoint lines_with_fuel (fuel : nat) (f : list ascii) : list (list ascii) :=
  match fuel with
  | O => []
  | S fuel' =>
      match f with
      | [] => []
      | _ :: _ =>
          let '(l, r) := take_line f in l :: lines_with_fuel fuel' r
      end
  end.

Definition text_lines (content : list ascii) : list (list ascii) :=
  lines_with_fuel (length content) content.

End TextLines.

(** ** Results of fallible code

    [Fail Undefined] stands for behaviour the C standard leaves undefined
    (an access outside an object, a signed overflow, a conversion whose
    value does not fit); the other errors are the exits with status 1. *)

Inductive error :=
  | NotBmp | Not24Bit | Compressed | OutOfMemory | ResizeFailed | Undefined.

Inductive result (A : Type) : Type :=
  | Ok (a : A)
  | Fail (e : error).

Arguments Ok {A} a.
Arguments Fail {A} e.

Definition bind {A B : Type} (r : result A) (k : A -> result B) : result B :=
  match r with
  | Ok a => k a
  | Fail e => Fail e
  end.

Notation "x <- r ;; k" := (bind r (fun x => k))
  (at level 61, r at next level, right associativity).

Definition INT_MAX : Z := 2 ^ 31 - 1.
Definition INT_MIN : Z := - 2 ^ 31.

(** The value of an [int] expression, undefined when it overflows. *)
Definition int_of (z : Z) : result Z :=
  if (INT_MIN <=? z) && (z <=? INT_MAX) then Ok z else Fail Undefined.

(** ** Arrays *)

(** [a[i]] as an rvalue. *)
Definition load {A : Type} (a : list A) (i : Z) : result A :=
  if i <? 0 then Fail Undefined
  else match nth_error a (Z.to_nat i) with
       | Some x => Ok x
       | None => Fail Undefined
       end.

Fixpoint set_nth {A : Type} (a : list A) (n : nat) (f : A -> A) : list A :=
  match a, n with
  | [], _ => []
  | x :: a', O => f x :: a'
  | x :: a', S n' => x :: set_nth a' n' f
  end.

(** An assignment to (a field of) [a[i]]. *)
Definition update {A : Type} (a : list A) (i : Z) (f : A -> A)
  : result (list A) :=
  if (i <? 0) || (Z.of_nat (length a) <=? i) then Fail Undefined
  else Ok (set_nth a (Z.to_nat i) f).

Definition set_r (v : Z) (p : Pixel) : Pixel := mkPixel v (px_g p) (px_b p).
Definition set_g (v : Z) (p : Pixel) : Pixel := mkPixel (px_r p) v (px_b p).
Definition set_b (v : Z) (p : Pixel) : Pixel := mkPixel (px_r p) (px_g p) v.

(** ** C [float]: IEEE-754 binary32 *)

Module Float32.

Definition prec : Z := 24.
Definition emax : Z := 128.

Definition float : Type := spec_float.

(** The conversion of an integer, rounded to nearest even. *)
Definition of_int (z : Z) : float := binary_normalize prec emax z 0 false.

Definition mul : float -> float -> float := SFmul prec emax.
Definition div : float -> float -> float := SFdiv prec emax.
Definition add : float -> float -> float := SFadd prec emax.
Definition sub : float -> float -> float := SFsub prec emax.

(** The integral part of a finite value, rounded toward zero. *)
Definition trunc (f : float) : option Z :=
  match f with
  | S754_zero _ => Some 0
  | S754_finite s m e =>
      let a := if 0 <=? e then Zpos m * 2 ^ e else Zpos m / 2 ^ (- e) in
      Some (if s then - a else a)
  | _ => None
  end.

(** [(int) f] and [(uint8_t) f]: undefined when the integral part
    cannot be represented in the target type. *)
Definition to_int (f : float) : result Z :=
  match trunc f with
  | Some z => if (INT_MIN <=? z) && (z <=? INT_MAX) then Ok z
              else Fail Undefined
  | None => Fail Undefined
  end.

Definition to_u8 (f : float) : result Z :=
  match trunc f with
  | Some z => if (0 <=? z) && (z <=? 255) then Ok z else Fail Undefined
  | None => Fail Undefined
  end.

End Float32.

(** ** bmp_to_hex.c: reading the bitmap *)

Module BmpToHex.

Definition OUT_WIDTH : Z := 320.
Definition OUT_HEIGHT : Z := 240.

(** The two headers as they stand after the two [fread] calls. *)
Record BMPFileHeader := {
  bfType : Z;
  bfSize : Z;
  bfReserved1 : Z;
  bfReserved2 : Z;
  bfOffBits : Z
}.

Record BMPInfoHeader := {
  biSize : Z;
  biWidth : Z;
  biHeight : Z;
  biPlanes : Z;
  biBitCount : Z;
  biCompression : Z;
  biSizeImage : Z;
  biXPelsPerMeter : Z;
  biYPelsPerMeter : Z;
  biClrUsed : Z;
  biClrImportant : Z
}.

(** [abs]: undefined on [INT_MIN]. *)
Definition abs (z : Z) : result Z := int_of (Z.abs z).

(** [fread (buf, 1, n, fp)]: the bytes available, at most [n], replace
    the front of [buf]; what follows them in [buf] is left as it was.
    The second component is the unread rest of the file. *)
Definition fread (buf : list Z) (n : Z) (fp : list Z) : list Z * list Z :=
  let got := firstn (Z.to_nat n) fp in
  (got ++ skipn (length got) buf, skipn (Z.to_nat n) fp).

(** [fseek (fp, off, SEEK_SET)] on the contents of the file. *)
Definition fseek (file : list Z) (off : Z) : list Z :=
  skipn (Z.to_nat off) file.

(** The loop over [col]; [n] counts the iterations left. *)
Fixpoint copy_row (n : nat) (col src_w dst_row : Z) (row_buf : list Z)
    (src_pixels : list Pixel) : result (list Pixel) :=
  match n with
  | O => Ok src_pixels
  | S n' =>
      r <- load row_buf (col * 3 + 2) ;;
      px <- update src_pixels (dst_row * src_w + col) (set_r r) ;;
      g <- load row_buf (col * 3 + 1) ;;
      px <- update px (dst_row * src_w + col) (set_g g) ;;
      b <- load row_buf (col * 3 + 0) ;;
      px <- update px (dst_row * src_w + col) (set_b b) ;;
      copy_row n' (col + 1) src_w dst_row row_buf px
  end.

(** The loop over [row]; [n] counts the iterations left. *)
Fixpoint read_rows (n : nat) (row : Z) (top_down : bool)
    (src_w src_h row_stride : Z) (fp row_buf : list Z)
    (src_pixels : list Pixel) : result (list Pixel) :=
  match n with
  | O => Ok src_pixels
  | S n' =>
      let '(row_buf, fp) := fread row_buf row_stride fp in
      let dst_row := if top_down then row else src_h - 1 - row in
      px <- copy_row (Z.to_nat src_w) 0 src_w dst_row row_buf src_pixels ;;
      read_rows n' (row + 1) top_down src_w src_h row_stride fp row_buf px
  end.

(** [main] from the header checks to [free (row_buf)].  [row_mem] and
    [pix_mem] are what the two [malloc] calls return: [None] for a null
    pointer, otherwise the block with its indeterminate contents. *)
Definition read_bitmap (fh : BMPFileHeader) (ih : BMPInfoHeader)
    (file : list Z) (row_mem : option (list Z))
    (pix_mem : option (list Pixel)) : result (Z * Z * list Pixel) :=
  if negb (bfType fh =? 0x4D42) then Fail NotBmp
  else if negb (biBitCount ih =? 24) then Fail Not24Bit
  else if negb (biCompression ih =? 0) then Fail Compressed
  else
    src_w <- abs (biWidth ih) ;;
    src_h <- abs (biHeight ih) ;;
    let top_down := biHeight ih <? 0 in
    s <- int_of (src_w * 3 + 3) ;;
    let row_stride := Z.land s (Z.lnot 3) in
    _ <- int_of (src_w * src_h) ;;
    match row_mem, pix_mem with
    | Some row_buf, Some src_pixels =>
        let fp := fseek file (bfOffBits fh) in
        px <- read_rows (Z.to_nat src_h) 0 top_down src_w src_h row_stride
                fp row_buf src_pixels ;;
        Ok (src_w, src_h, px)
    | _, _ => Fail OutOfMemory
    end.

(** The rows of the file as the successive [fread] calls leave them in
    [row_buf]. *)
Fixpoint rows_read (n : nat) (row_stride : Z) (fp row_buf : list Z)
  : list (list Z) :=
  match n with
  | O => []
  | S n' =>
      let '(row_buf, fp) := fread row_buf row_stride fp in
      row_buf :: rows_read n' row_stride fp row_buf
  end.

(** The pixel at column [col] of a stored row, Blue Green Red in the
    file, as a Red Green Blue triple. *)
Definition rgb_of_row (row : list Z) (col : Z) : Pixel :=
  mkPixel (nth (Z.to_nat (col * 3 + 2)) row 0)
          (nth (Z.to_nat (col * 3 + 1)) row 0)
          (nth (Z.to_nat (col * 3 + 0)) row 0).

(** The pixel at ([x], [y]) of a row-major buffer of width [w]. *)
Definition pixel_at (buf : list Pixel) (w x y : Z) : Pixel :=
  nth (Z.to_nat (y * w + x)) buf (mkPixel 0 0 0).

(** *** [resize_bilinear] *)

(** The source coordinates sampled for one destination pixel: [x0], [y0],
    [x1], [y1] and the weights [dx], [dy]. *)
Record sample := mkSample {
  s_x0 : Z; s_y0 : Z; s_x1 : Z; s_y1 : Z;
  s_dx : Float32.float; s_dy : Float32.float
}.

Definition x_scale_of (src_w dst_w : Z) : Float32.float :=
  Float32.div (Float32.of_int src_w) (Float32.of_int dst_w).

(** The first six statements of the inner loop body.  [x0] and [y0] are
    integral parts of binary32 values in the range of [int], hence at
    most [2^31 - 128]: the sums [x0 + 1] and [y0 + 1] do not overflow. *)
Definition sample_at (src_w src_h : Z) (x_scale y_scale : Float32.float)
    (dst_x dst_y : Z) : result sample :=
  let src_xf := Float32.mul (Float32.of_int dst_x) x_scale in
  let src_yf := Float32.mul (Float32.of_int dst_y) y_scale in
  x0 <- Float32.to_int src_xf ;;
  y0 <- Float32.to_int src_yf ;;
  let x1 := if x0 + 1 <? src_w then x0 + 1 else x0 in
  let y1 := if y0 + 1 <? src_h then y0 + 1 else y0 in
  let dx := Float32.sub src_xf (Float32.of_int x0) in
  let dy := Float32.sub src_yf (Float32.of_int y0) in
  Ok (mkSample x0 y0 x1 y1 dx dy).

(** One channel of the blend, every operation rounded to binary32. *)
Definition blend (c00 c10 c01 c11 : Z) (dx dy : Float32.float) : result Z :=
  let one := Float32.of_int 1 in
  let w0x := Float32.sub one dx in
  let w0y := Float32.sub one dy in
  let t00 := Float32.mul (Float32.mul (Float32.of_int c00) w0x) w0y in
  let t10 := Float32.mul (Float32.mul (Float32.of_int c10) dx) w0y in
  let t01 := Float32.mul (Float32.mul (Float32.of_int c01) w0x) dy in
  let t11 := Float32.mul (Float32.mul (Float32.of_int c11) dx) dy in
  Float32.to_u8 (Float32.add (Float32.add (Float32.add t00 t10) t01) t11).

(** The subscript [row * w + col], computed in [int]: undefined when
    the product or the sum overflows. *)
Definition index (row w col : Z) : result Z :=
  m <- int_of (row * w) ;;
  int_of (m + col).

(** [a[row * w + col]] as an rvalue. *)
Definition load_at (a : list Pixel) (row w col : Z) : result Pixel :=
  i <- index row w col ;;
  load a i.

(** The body of the inner loop. *)
Definition resize_pixel (src : list Pixel) (src_w src_h dst_w : Z)
    (x_scale y_scale : Float32.float) (dst_x dst_y : Z) (dst : list Pixel)
  : result (list Pixel) :=
  s <- sample_at src_w src_h x_scale y_scale dst_x dst_y ;;
  p00 <- load_at src (s_y0 s) src_w (s_x0 s) ;;
  p10 <- load_at src (s_y0 s) src_w (s_x1 s) ;;
  p01 <- load_at src (s_y1 s) src_w (s_x0 s) ;;
  p11 <- load_at src (s_y1 s) src_w (s_x1 s) ;;
  r <- blend (px_r p00) (px_r p10) (px_r p01) (px_r p11) (s_dx s) (s_dy s) ;;
  i <- index dst_y dst_w dst_x ;;
  dst <- update dst i (set_r r) ;;
  g <- blend (px_g p00) (px_g p10) (px_g p01) (px_g p11) (s_dx s) (s_dy s) ;;
  i <- index dst_y dst_w dst_x ;;
  dst <- update dst i (set_g g) ;;
  b <- blend (px_b p00) (px_b p10) (px_b p01) (px_b p11) (s_dx s) (s_dy s) ;;
  i <- index dst_y dst_w dst_x ;;
  update dst i (set_b b).

Fixpoint resize_cols (n : nat) (src : list Pixel) (src_w src_h dst_w : Z)
    (x_scale y_scale : Float32.float) (dst_x dst_y : Z) (dst : list Pixel)
  : result (list Pixel) :=
  match n with
  | O => Ok dst
  | S n' =>
      dst <- resize_pixel src src_w src_h dst_w x_scale y_scale dst_x dst_y
               dst ;;
      resize_cols n' src src_w src_h dst_w x_scale y_scale (dst_x + 1) dst_y
        dst
  end.

Fixpoint resize_rows (n : nat) (src : list Pixel)
    (src_w src_h dst_w : Z) (x_scale y_scale : Float32.float) (dst_y : Z)
    (dst : list Pixel) : result (list Pixel) :=
  match n with
  | O => Ok dst
  | S n' =>
      dst <- resize_cols (Z.to_nat dst_w) src src_w src_h dst_w x_scale
               y_scale 0 dst_y dst ;;
      resize_rows n' src src_w src_h dst_w x_scale y_scale (dst_y + 1) dst
  end.

(** [resize_bilinear]: [dst_mem] is what [malloc] returns; [Ok None] is
    the null pointer returned when the allocation fails. *)
Definition resize_bilinear (dst_mem : option (list Pixel)) (src : list Pixel)
    (src_w src_h dst_w dst_h : Z) : result (option (list Pixel)) :=
  _ <- int_of (dst_w * dst_h) ;;
  match dst_mem with
  | None => Ok None
  | Some dst =>
      let x_scale := x_scale_of src_w dst_w in
      let y_scale := x_scale_of src_h dst_h in
      dst <- resize_rows (Z.to_nat dst_h) src src_w src_h dst_w x_scale
               y_scale 0 dst ;;
      Ok (Some dst)
  end.

(** The resize step of [main]: the buffer that [out_pixels] points to. *)
Definition resize_step (dst_mem : option (list Pixel))
    (src_pixels : list Pixel) (src_w src_h : Z) : result (list Pixel) :=
  if (src_w =? OUT_WIDTH) && (src_h =? OUT_HEIGHT) then Ok src_pixels
  else
    out <- resize_bilinear dst_mem src_pixels src_w src_h OUT_WIDTH
             OUT_HEIGHT ;;
    match out with
    | Some out_pixels => Ok out_pixels
    | None => Fail ResizeFailed
    end.

End BmpToHex.

(** ** Definitions used to state the properties *)

(** The formula of the specification, without masks or casts. *)
Definition pack565 (r g b : Z) : Z :=
  Z.lor (Z.lor (Z.shiftl (Z.shiftr r 3) 11) (Z.shiftl (Z.shiftr g 2) 5))
        (Z.shiftr b 3).

Definition decode_encode (c : Z * Z * Z) : Z * Z * Z :=
  let '(r, g, b) := c in
  ColorCodec.rgb565_to_rgb888 (ColorCodec.to_rgb565 r g b).

(** The three bytes written for one packed value. *)
Definition bytes_of (p : Z) : list Z :=
  let '(r8, g8, b8) := ColorCodec.rgb565_to_rgb888 p in [r8; g8; b8].


(** Every pixel of a PPM byte sequence is ([r], [g], [b]). *)
Fixpoint pixels_all (r g b : Z) (out : list Z) : bool :=
  match out with
  | [] => true
  | r' :: g' :: b' :: rest =>
      (r' =? r) && (g' =? g) && (b' =? b) && pixels_all r g b rest
  | _ => false
  end.

(** *** The decoder of the specification

    The valid data lines of a stream are the lines of its text that the
    line classification accepts.  [data_values ls vs]: [vs] are the
    values of the valid data lines among [ls], in stream order. *)
Inductive data_values : list (list ascii) -> list Z -> Prop :=
  | data_values_nil : data_values [] []
  | data_values_data (l : list ascii) (ls : list (list ascii))
      (vs : list Z) :
      LineSpec.is_data_line l -> data_values ls vs ->
      data_values (l :: ls) (LineSpec.data_value l :: vs)
  | data_values_skip (l : list ascii) (ls : list (list ascii))
      (vs : list Z) :
      ~ LineSpec.is_data_line l -> data_values ls vs ->
      data_values (l :: ls) vs.

(** What the shortfall policy promises for a stream whose valid data
    lines have the values [vals]: [TOTAL_PIXELS] packed values, the
    first [K] are [vals], the others the last of them, or 0. *)
Definition shortfall_filled (content : list ascii) (vals : list Z) : Prop :=
  let K := length vals in
  exists packed : list Z,
    Convert.main content = Some (Convert.ppm_bytes packed)
    /\ Convert.TOTAL_PIXELS = 320 * 240
    /\ Z.of_nat (length packed) = Convert.TOTAL_PIXELS
    /\ firstn K packed = vals
    /\ (forall i : nat,
          (K <= i)%nat -> Z.of_nat i < Convert.TOTAL_PIXELS ->
          nth i packed 0 = last vals 0)
    /\ (K = 0%nat -> last vals 0 = 0).

(** A line that [fgets] reads whole into the 256-byte buffer of [main],
    its line feed included, and that holds no NUL. *)
Definition short_line (l : list ascii) : Prop :=
  (length l <= 255)%nat /\ ~ In NUL l.

Definition short_lineb (l : list ascii) : bool :=
  (length l <=? 255)%nat && negb (existsb is_nul l).

(** One line of 260 characters: a comment that ends in [ABCD]. *)
Definition long_comment : list ascii :=
  list_ascii_of_string "//" ++ repeat "-"%char 253
  ++ list_ascii_of_string "ABCD" ++ [LF].

(** The default of out-of-range reads in statements. *)
Definition px0 : Pixel := mkPixel 0 0 0.

(** [a[i]] for an index known to be in range. *)
Definition at_index (a : list Pixel) (i : Z) : Pixel := nth (Z.to_nat i) a px0.

(** The buffer row that receives the row read at iteration [row]. *)
Definition dst_row_of (top_down : bool) (src_h row : Z) : Z :=
  if top_down then row else src_h - 1 - row.


Definition accepted (fh : BmpToHex.BMPFileHeader)
    (ih : BmpToHex.BMPInfoHeader) : Prop :=
  BmpToHex.bfType fh = 0x4D42
  /\ BmpToHex.biBitCount ih = 24
  /\ BmpToHex.biCompression ih = 0.

(** The dimensions for which the [int] arithmetic of [main] is defined. *)
Definition dims_in_range (ih : BmpToHex.BMPInfoHeader) : Prop :=
  Z.abs (BmpToHex.biWidth ih) * 3 + 3 <= INT_MAX
  /\ Z.abs (BmpToHex.biHeight ih) <= INT_MAX
  /\ Z.abs (BmpToHex.biWidth ih) * Z.abs (BmpToHex.biHeight ih) <= INT_MAX.

Definition row_stride_of (ih : BmpToHex.BMPInfoHeader) : Z :=
  Z.land (Z.abs (BmpToHex.biWidth ih) * 3 + 3) (Z.lnot 3).

(** What reading a bitmap must achieve: the buffer has the declared
    size, the k-th row read from the file lands in buffer row [k] when
    the height field is negative and in row [h - 1 - k] otherwise, each
    pixel with its bytes reordered; in particular buffer row 0 is the
    first row read (negative height) or the last one (positive height). *)
Definition canonical_buffer (fh : BmpToHex.BMPFileHeader)
    (ih : BmpToHex.BMPInfoHeader) (file row_buf : list Z)
    (src_pixels : list Pixel) : Prop :=
  let w := Z.abs (BmpToHex.biWidth ih) in
  let h := Z.abs (BmpToHex.biHeight ih) in
  let rows :=
    BmpToHex.rows_read (Z.to_nat h) (row_stride_of ih)
      (BmpToHex.fseek file (BmpToHex.bfOffBits fh)) row_buf in
  exists buf,
    BmpToHex.read_bitmap fh ih file (Some row_buf) (Some src_pixels)
    = Ok (w, h, buf)
    /\ Z.of_nat (length buf) = w * h
    /\ (forall k x, 0 <= k < h -> 0 <= x < w ->
          BmpToHex.pixel_at buf w x
            (if BmpToHex.biHeight ih <? 0 then k else h - 1 - k)
          = BmpToHex.rgb_of_row (nth (Z.to_nat k) rows []) x)
    /\ (BmpToHex.biHeight ih < 0 -> forall x, 0 <= x < w ->
          BmpToHex.pixel_at buf w x 0 = BmpToHex.rgb_of_row (hd [] rows) x)
    /\ (0 < BmpToHex.biHeight ih -> forall x, 0 <= x < w ->
          BmpToHex.pixel_at buf w x 0
          = BmpToHex.rgb_of_row (last rows []) x).

(** The four reads of the inner loop body are defined: each subscript
    is computed in [int] without overflow and falls inside [src]. *)
Definition reads_defined (src : list Pixel) (src_w : Z)
    (s : BmpToHex.sample) : Prop :=
  exists p00 p10 p01 p11,
    BmpToHex.load_at src (BmpToHex.s_y0 s) src_w (BmpToHex.s_x0 s) = Ok p00
    /\ BmpToHex.load_at src (BmpToHex.s_y0 s) src_w (BmpToHex.s_x1 s) = Ok p10
    /\ BmpToHex.load_at src (BmpToHex.s_y1 s) src_w (BmpToHex.s_x0 s) = Ok p01
    /\ BmpToHex.load_at src (BmpToHex.s_y1 s) src_w (BmpToHex.s_x1 s) = Ok p11.

(** The property claimed of the destination pixel ([dst_x], [dst_y]) of
    a resize from [src_w] x [src_h] to [dst_w] x [dst_h]: the neighbour
    indices are the clamped successors, the four coordinates lie in the
    source, and so the four reads stay inside any source buffer of
    [src_w * src_h] pixels. *)
Definition samples_in_bounds (src_w src_h dst_w dst_h dst_x dst_y : Z)
  : Prop :=
  exists s,
    BmpToHex.sample_at src_w src_h
      (BmpToHex.x_scale_of src_w dst_w) (BmpToHex.x_scale_of src_h dst_h)
      dst_x dst_y = Ok s
    /\ BmpToHex.s_x1 s = Z.min (BmpToHex.s_x0 s + 1) (src_w - 1)
    /\ BmpToHex.s_y1 s = Z.min (BmpToHex.s_y0 s + 1) (src_h - 1)
    /\ 0 <= BmpToHex.s_x0 s < src_w /\ 0 <= BmpToHex.s_x1 s < src_w
    /\ 0 <= BmpToHex.s_y0 s < src_h /\ 0 <= BmpToHex.s_y1 s < src_h
    /\ (forall src : list Pixel,
          Z.of_nat (length src) = src_w * src_h ->
          reads_defined src src_w s).

(** The largest destination dimension for which the rounding of the
    coordinate computation is shown harmless. *)
Definition MAX_TARGET : Z := 2 ^ 21.

(** ** The values of binary32 data

    Used to bound the rounding of the coordinate computation. *)

Definition bpow (e : Z) : R := powerRZ 2 e.

(** The real number a floating-point datum stands for. *)
Definition F2R (f : spec_float) : R :=
  match f with
  | S754_finite s m e =>
      (if s then - IZR (Zpos m) else IZR (Zpos m)) * bpow e
  | _ => 0
  end.

(** The relative rounding slack: one unit in the last place of [1]. *)
Definition ulp1 : R := (/ 8388608)%R.

(** A positive normalised binary32 number with its exponent in a range. *)
Definition normal (f : spec_float) (lo hi : Z) : Prop :=
  exists m e, f = S754_finite false m e
              /\ Zpos (digits2_pos m) = 24 /\ lo <= e <= hi.

(** ** bmp_to_hex.c: writing the hex file *)

Module HexOut.

(** The digit characters of [%X]. *)
Definition upper_xdigit (d : Z) : ascii :=
  ascii_of_N (Z.to_N (if d <? 10 then 48 + d else 55 + d)).

(** The base-16 digits of an [unsigned int], the most significant
    first, at least one; [fuel] is the number of digits of the type. *)
Fixpoint xdigits (fuel : nat) (v : Z) (acc : list ascii) : list ascii :=
  match fuel with
  | O => acc
  | S fuel' =>
      let acc := upper_xdigit (v mod 16) :: acc in
      if v / 16 =? 0 then acc else xdigits fuel' (v / 16) acc
  end.

(** [fprintf (out, "%04X\n", v)]: the characters appended to [out]. *)
Definition fprintf_04X (v : Z) : list ascii :=
  let ds := xdigits 8 v [] in
  repeat "0"%char (4 - length ds) ++ ds ++ [LF].

(** The loop over [x]; [n] counts the iterations left.  The result is
    what the loop appends to the file. *)
Fixpoint write_cols (n : nat) (x y : Z) (out_pixels : list Pixel)
  : result (list ascii) :=
  match n with
  | O => Ok []
  | S n' =>
      p <- load out_pixels (y * BmpToHex.OUT_WIDTH + x) ;;
      let rgb565 := ColorCodec.to_rgb565 (px_r p) (px_g p) (px_b p) in
      rest <- write_cols n' (x + 1) y out_pixels ;;
      Ok (fprintf_04X rgb565 ++ rest)
  end.

(** The loop over [y]. *)
Fixpoint write_rows (n : nat) (y : Z) (out_pixels : list Pixel)
  : result (list ascii) :=
  match n with
  | O => Ok []
  | S n' =>
      row <- write_cols (Z.to_nat BmpToHex.OUT_WIDTH) 0 y out_pixels ;;
      rest <- write_rows n' (y + 1) out_pixels ;;
      Ok (row ++ rest)
  end.

(** Lines 206-212: the contents of the hex file. *)
Definition write_hex (out_pixels : list Pixel) : result (list ascii) :=
  write_rows (Z.to_nat BmpToHex.OUT_HEIGHT) 0 out_pixels.

(** [main] of bmp_to_hex.c from the header checks on, for files that
    can be opened: the contents of the hex file, or the reason why none
    is written.  [row_mem], [pix_mem] and [dst_mem] are what the three
    [malloc] calls return. *)
Definition main (fh : BmpToHex.BMPFileHeader) (ih : BmpToHex.BMPInfoHeader)
    (file : list Z) (row_mem : option (list Z))
    (pix_mem dst_mem : option (list Pixel)) : result (list ascii) :=
  src <- BmpToHex.read_bitmap fh ih file row_mem pix_mem ;;
  let '(src_w, src_h, src_pixels) := src in
  out_pixels <- BmpToHex.resize_step dst_mem src_pixels src_w src_h ;;
  write_hex out_pixels.

End HexOut.

(** ** Definitions used to state the further properties *)

(** A file of 76801 data lines. *)
Definition many_lines : list ascii :=
  concat (repeat (list_ascii_of_string "1F" ++ [LF]) (Z.to_nat 76801)).

(** What one [fgets] call delivers: a prefix of the file, at most [room]
    characters long, in which a line feed can only come last. *)
Definition well_cut (room : nat) (l : list ascii) : Prop :=
  (length l <= room)%nat
  /\ forall i, (S i < length l)%nat -> nth i l NUL <> LF.

(** A character that ends the content of a line. *)
Definition ends_content (c : ascii) : bool :=
  is_nul c || Ascii.eqb c CR || Ascii.eqb c LF.

(** The byte at offset [i] of a file. *)
Definition byte_at (file : list Z) (i : Z) : Z := nth (Z.to_nat i) file 0.

(** The packed value of a pixel. *)
Definition packed_of (p : Pixel) : Z :=
  ColorCodec.to_rgb565 (px_r p) (px_g p) (px_b p).

(** The hex file that holds the given packed values. *)
Definition hex_lines (vs : list Z) : list ascii :=
  concat (map HexOut.fprintf_04X vs).

(** The digits that [%X] writes. *)
Definition is_upper_xdigit (c : ascii) : bool :=
  isdigit c || ((65 <=? code c) && (code c <=? 70)).

(** Four upper-case digits and a line feed. *)
Definition hex_line_shape (l : list ascii) : bool :=
  match l with
  | [a; b; c; d; e] =>
      is_upper_xdigit a && is_upper_xdigit b && is_upper_xdigit c
      && is_upper_xdigit d && Ascii.eqb e LF
  | _ => false
  end.

(** [P] holds of the [n] integers from [v] on. *)
Fixpoint holds_from (P : Z -> bool) (n : nat) (v : Z) : bool :=
  match n with
  | O => true
  | S n' => P v && holds_from P n' (v + 1)
  end.

(** The two facts checked of every 16-bit value. *)
Definition line_checks (v : Z) : bool :=
  hex_line_shape (HexOut.fprintf_04X v)
  && match Convert.parse_rgb565_line (HexOut.fprintf_04X v) with
     | Some w => w =? v
     | None => false
     end.

(** [f] is the binary32 datum of the integer [n], for [0 <= n < 2^24]:
    positive zero, or a 24-digit mantissa with the exponent that makes
    its value [n]. *)
Definition holds_int (f : spec_float) (n : Z) : Prop :=
  match f with
  | S754_zero s => s = false /\ n = 0
  | S754_finite s m e =>
      s = false /\ Zpos (digits2_pos m) = 24 /\ -23 <= e <= 0
      /\ Zpos m = n * 2 ^ (- e)
  | _ => False
  end.

(** A pixel whose three channels are bytes. *)
Definition byte_pixel (p : Pixel) : Prop :=
  is_u8 (px_r p) /\ is_u8 (px_g p) /\ is_u8 (px_b p).

(** A datum that is positive zero or a positive normalised number with
    its exponent in a range. *)
Definition nonneg (f : spec_float) (lo hi : Z) : Prop :=
  f = S754_zero false \/ normal f lo hi.

(** An interpolation weight [dx] or [dy]: the fractional part of a
    coordinate, zero or a normalised number below one. *)
Definition fraction (f : spec_float) : Prop :=
  f = S754_zero false
  \/ exists m e, f = S754_finite false m e
                 /\ Zpos (digits2_pos m) = 24 /\ -70 <= e <= -24
                 /\ Zpos m < 2 ^ (- e).

(** ** Bit-level facts used by the codec *)

Section BitFacts.

Lemma land_ones_small (a n : Z) :
  0 <= n -> 0 <= a < 2 ^ n -> Z.land a (Z.ones n) = a.
Proof.
  intros Hn Ha. rewrite Z.land_ones by assumption.
  apply Z.mod_small; assumption.
Qed.

Lemma shiftr3_u8 (c : Z) : is_u8 c -> 0 <= Z.shiftr c 3 < 32.
Proof.
  unfold is_u8; intros H. rewrite Z.shiftr_div_pow2 by lia.
  change (2 ^ 3) with 8. split.
  - apply Z.div_pos; lia.
  - apply Z.div_lt_upper_bound; lia.
Qed.

Lemma shiftr2_u8 (c : Z) : is_u8 c -> 0 <= Z.shiftr c 2 < 64.
Proof.
  unfold is_u8; intros H. rewrite Z.shiftr_div_pow2 by lia.
  change (2 ^ 2) with 4. split.
  - apply Z.div_pos; lia.
  - apply Z.div_lt_upper_bound; lia.
Qed.

Lemma mask5_id (a : Z) : 0 <= a < 32 -> Z.land a 0x1F = a.
Proof. intros H. change 0x1F with (Z.ones 5). apply land_ones_small; simpl; lia. Qed.

Lemma mask6_id (a : Z) : 0 <= a < 64 -> Z.land a 0x3F = a.
Proof. intros H. change 0x3F with (Z.ones 6). apply land_ones_small; simpl; lia. Qed.

(** Or-ing a value below [2^n] under a value shifted left by [n] is an
    addition: the two occupy disjoint bits. *)
Lemma lor_shiftl_low (hi lo n : Z) :
  0 <= n -> 0 <= lo < 2 ^ n ->
  Z.lor (Z.shiftl hi n) lo = hi * 2 ^ n + lo.
Proof.
  intros Hn Hlo.
  assert (Hdisj : Z.land (Z.shiftl hi n) lo = 0).
  { apply Z.bits_inj'; intros k Hk.
    rewrite Z.land_spec, Z.bits_0.
    destruct (Z.lt_ge_cases k n) as [Hlt | Hge].
    - rewrite Z.shiftl_spec_low by assumption. reflexivity.
    - rewrite andb_comm.
      destruct (Z.eq_dec lo 0) as [-> | Hnz].
      + rewrite Z.bits_0. reflexivity.
      + rewrite Z.bits_above_log2; [reflexivity | lia |].
        apply Z.lt_le_trans with n; [| assumption].
        apply Z.log2_lt_pow2; lia. }
  rewrite <- Z.lxor_lor by assumption.
  rewrite <- Z.add_nocarry_lxor by assumption.
  rewrite Z.shiftl_mul_pow2 by assumption. reflexivity.
Qed.

End BitFacts.

(** The packed word as a sum of its three fields. *)
Lemma to_rgb565_sum (r g b : Z) :
  is_u8 r -> is_u8 g -> is_u8 b ->
  ColorCodec.to_rgb565 r g b
  = Z.shiftr r 3 * 2048 + Z.shiftr g 2 * 32 + Z.shiftr b 3.
Proof.
  intros Hr Hg Hb.
  pose proof (shiftr3_u8 r Hr) as Br.
  pose proof (shiftr2_u8 g Hg) as Bg.
  pose proof (shiftr3_u8 b Hb) as Bb.
  unfold ColorCodec.to_rgb565.
  rewrite !mask5_id, mask6_id by assumption.
  set (r5 := Z.shiftr r 3) in *. set (g6 := Z.shiftr g 2) in *.
  set (b5 := Z.shiftr b 3) in *.
  clearbody r5 g6 b5.
  unfold u16.
  rewrite (Z.mod_small r5), (Z.mod_small g6), (Z.mod_small b5) by lia.
  rewrite (Z.shiftl_mul_pow2 g6 5) by lia. change (2 ^ 5) with 32.
  rewrite (lor_shiftl_low r5 (g6 * 32) 11) by (change (2 ^ 11) with 2048; lia).
  change (2 ^ 11) with 2048.
  replace (r5 * 2048 + g6 * 32) with (Z.shiftl (r5 * 64 + g6) 5)
    by (rewrite Z.shiftl_mul_pow2 by lia; change (2 ^ 5) with 32; lia).
  rewrite (lor_shiftl_low (r5 * 64 + g6) b5 5) by (change (2 ^ 5) with 32; lia).
  rewrite Z.shiftl_mul_pow2 by lia. change (2 ^ 5) with 32.
  rewrite Z.mod_small by lia. reflexivity.
Qed.

Lemma pack565_sum (r g b : Z) :
  is_u8 r -> is_u8 g -> is_u8 b ->
  pack565 r g b = Z.shiftr r 3 * 2048 + Z.shiftr g 2 * 32 + Z.shiftr b 3.
Proof.
  intros Hr Hg Hb.
  pose proof (shiftr3_u8 r Hr) as Br.
  pose proof (shiftr2_u8 g Hg) as Bg.
  pose proof (shiftr3_u8 b Hb) as Bb.
  unfold pack565.
  set (r5 := Z.shiftr r 3) in *. set (g6 := Z.shiftr g 2) in *.
  set (b5 := Z.shiftr b 3) in *.
  clearbody r5 g6 b5.
  rewrite (Z.shiftl_mul_pow2 g6 5) by lia. change (2 ^ 5) with 32.
  rewrite (lor_shiftl_low r5 (g6 * 32) 11) by (change (2 ^ 11) with 2048; lia).
  change (2 ^ 11) with 2048.
  replace (r5 * 2048 + g6 * 32) with (Z.shiftl (r5 * 64 + g6) 5)
    by (rewrite Z.shiftl_mul_pow2 by lia; change (2 ^ 5) with 32; lia).
  rewrite (lor_shiftl_low (r5 * 64 + g6) b5 5) by (change (2 ^ 5) with 32; lia).
  rewrite Z.shiftl_mul_pow2 by lia. change (2 ^ 5) with 32. lia.
Qed.

Lemma land_mask5_range (a : Z) : 0 <= Z.land a 0x1F < 32.
Proof.
  change 0x1F with (Z.ones 5). rewrite Z.land_ones by lia.
  change (2 ^ 5) with 32. apply Z.mod_pos_bound; lia.
Qed.

Lemma land_mask6_range (a : Z) : 0 <= Z.land a 0x3F < 64.
Proof.
  change 0x3F with (Z.ones 6). rewrite Z.land_ones by lia.
  change (2 ^ 6) with 64. apply Z.mod_pos_bound; lia.
Qed.

Lemma wide5_range (f : Z) : 0 <= f < 32 -> 0 <= ColorCodec.wide5 f <= 255.
Proof.
  intros H. unfold ColorCodec.wide5.
  rewrite Z.quot_div_nonneg by lia. split.
  - apply Z.div_pos; lia.
  - apply Z.div_le_upper_bound; lia.
Qed.

Lemma wide6_range (f : Z) : 0 <= f < 64 -> 0 <= ColorCodec.wide6 f <= 255.
Proof.
  intros H. unfold ColorCodec.wide6.
  rewrite Z.quot_div_nonneg by lia. split.
  - apply Z.div_pos; lia.
  - apply Z.div_le_upper_bound; lia.
Qed.

Lemma field_r_eq (p : Z) : ColorCodec.field_r p = Z.land (Z.shiftr p 11) 0x1F.
Proof.
  unfold ColorCodec.field_r, u8. apply Z.mod_small.
  pose proof (land_mask5_range (Z.shiftr p 11)); lia.
Qed.

Lemma field_g_eq (p : Z) : ColorCodec.field_g p = Z.land (Z.shiftr p 5) 0x3F.
Proof.
  unfold ColorCodec.field_g, u8. apply Z.mod_small.
  pose proof (land_mask6_range (Z.shiftr p 5)); lia.
Qed.

Lemma field_b_eq (p : Z) : ColorCodec.field_b p = Z.land p 0x1F.
Proof.
  unfold ColorCodec.field_b, u8. apply Z.mod_small.
  pose proof (land_mask5_range p); lia.
Qed.

Lemma expand5_wide (f : Z) :
  0 <= f < 32 -> ColorCodec.expand5 f = ColorCodec.wide5 f.
Proof.
  intros H. unfold ColorCodec.expand5, u8. fold (ColorCodec.wide5 f).
  apply Z.mod_small. pose proof (wide5_range f H); lia.
Qed.

Lemma expand6_wide (f : Z) :
  0 <= f < 64 -> ColorCodec.expand6 f = ColorCodec.wide6 f.
Proof.
  intros H. unfold ColorCodec.expand6, u8. fold (ColorCodec.wide6 f).
  apply Z.mod_small. pose proof (wide6_range f H); lia.
Qed.

(** ** Properties of the ColorCodec *)

(** The layout of the packed word, field by field. *)
Lemma to_rgb565_fields (r g b : Z) :
  is_u8 r -> is_u8 g -> is_u8 b ->
  let w := ColorCodec.to_rgb565 r g b in
  w = pack565 r g b
  /\ is_u16 w
  /\ Z.shiftr w 11 = Z.shiftr r 3
  /\ Z.land (Z.shiftr w 5) 0x3F = Z.shiftr g 2
  /\ Z.land w 0x1F = Z.shiftr b 3
  /\ Z.shiftr r 3 = r / 8 /\ Z.shiftr g 2 = g / 4 /\ Z.shiftr b 3 = b / 8.
Proof.
  intros Hr Hg Hb w. subst w.
  rewrite (to_rgb565_sum r g b Hr Hg Hb), (pack565_sum r g b Hr Hg Hb).
  pose proof (shiftr3_u8 r Hr) as Br.
  pose proof (shiftr2_u8 g Hg) as Bg.
  pose proof (shiftr3_u8 b Hb) as Bb.
  rewrite (Z.shiftr_div_pow2 r 3), (Z.shiftr_div_pow2 g 2),
    (Z.shiftr_div_pow2 b 3) in * by lia.
  change (2 ^ 3) with 8 in *. change (2 ^ 2) with 4 in *.
  set (r5 := r / 8) in *. set (g6 := g / 4) in *. set (b5 := b / 8) in *.
  clearbody r5 g6 b5.
  repeat split; try lia.
  - rewrite Z.shiftr_div_pow2 by lia. change (2 ^ 11) with 2048.
    symmetry. apply Z.div_unique with (g6 * 32 + b5); lia.
  - rewrite Z.shiftr_div_pow2 by lia. change (2 ^ 5) with 32.
    change 0x3F with (Z.ones 6). rewrite Z.land_ones by lia.
    change (2 ^ 6) with 64.
    replace ((r5 * 2048 + g6 * 32 + b5) / 32) with (r5 * 64 + g6)
      by (apply Z.div_unique with b5; lia).
    symmetry. apply Z.mod_unique with r5; lia.
  - change 0x1F with (Z.ones 5). rewrite Z.land_ones by lia.
    change (2 ^ 5) with 32.
    symmetry. apply Z.mod_unique with (r5 * 64 + g6); lia.
Qed.

(** C6. For every 8-bit triple, [to_rgb565] is
    [((r >> 3) << 11) | ((g >> 2) << 5) | (b >> 3)]: bits 15-11 hold the
    top five bits of red, bits 10-5 the top six of green, bits 4-0 the top
    five of blue, each obtained by truncation ([floor (c / 2^k)]), and the
    result is a 16-bit value. *)
Theorem to_rgb565_layout (r g b : Z) :
  is_u8 r -> is_u8 g -> is_u8 b ->
  let w := ColorCodec.to_rgb565 r g b in
  w = pack565 r g b
  /\ is_u16 w
  /\ Z.shiftr w 11 = Z.shiftr r 3
  /\ Z.land (Z.shiftr w 5) 0x3F = Z.shiftr g 2
  /\ Z.land w 0x1F = Z.shiftr b 3
  /\ Z.shiftr r 3 = r / 8 /\ Z.shiftr g 2 = g / 4 /\ Z.shiftr b 3 = b / 8.
Proof. exact (to_rgb565_fields r g b). Qed.

Lemma to_rgb565_layout_witness :
  let w := ColorCodec.to_rgb565 200 100 50 in
  w = pack565 200 100 50
  /\ is_u16 w
  /\ Z.shiftr w 11 = Z.shiftr 200 3
  /\ Z.land (Z.shiftr w 5) 0x3F = Z.shiftr 100 2
  /\ Z.land w 0x1F = Z.shiftr 50 3
  /\ Z.shiftr 200 3 = 200 / 8 /\ Z.shiftr 100 2 = 100 / 4
  /\ Z.shiftr 50 3 = 50 / 8.
Proof.
  apply (to_rgb565_layout 200 100 50); unfold is_u8; lia.
Defined.

(** C7. For every 16-bit packed value the expansion of convert.c is
    defined and yields [floor (((p >> 11) & 0x1F) * 255 / 31)],
    [floor (((p >> 5) & 0x3F) * 255 / 63)] and
    [floor ((p & 0x1F) * 255 / 31)]: the casts to [uint8_t] change
    nothing and C's truncating division coincides with the floor. *)
Theorem rgb565_to_rgb888_formula (p : Z) :
  is_u16 p ->
  ColorCodec.rgb565_to_rgb888 p
  = ( (Z.land (Z.shiftr p 11) 0x1F * 255) / 31,
      (Z.land (Z.shiftr p 5) 0x3F * 255) / 63,
      (Z.land p 0x1F * 255) / 31 ).
Proof.
  intros _. unfold ColorCodec.rgb565_to_rgb888.
  rewrite field_r_eq, field_g_eq, field_b_eq.
  pose proof (land_mask5_range (Z.shiftr p 11)) as Br.
  pose proof (land_mask6_range (Z.shiftr p 5)) as Bg.
  pose proof (land_mask5_range p) as Bb.
  rewrite !expand5_wide, expand6_wide by assumption.
  unfold ColorCodec.wide5, ColorCodec.wide6.
  rewrite !Z.quot_div_nonneg by lia. reflexivity.
Qed.

Lemma rgb565_to_rgb888_formula_witness :
  ColorCodec.rgb565_to_rgb888 0xF81F
  = ( (Z.land (Z.shiftr 0xF81F 11) 0x1F * 255) / 31,
      (Z.land (Z.shiftr 0xF81F 5) 0x3F * 255) / 63,
      (Z.land 0xF81F 0x1F * 255) / 31 ).
Proof.
  apply (rgb565_to_rgb888_formula 0xF81F). unfold is_u16; lia.
Defined.

(** A decoded encoding, channel by channel: each channel depends on its
    own top bits only. *)
Lemma decode_encode_channels (r g b : Z) :
  is_u8 r -> is_u8 g -> is_u8 b ->
  decode_encode (r, g, b)
  = (ColorCodec.wide5 (Z.shiftr r 3), ColorCodec.wide6 (Z.shiftr g 2),
     ColorCodec.wide5 (Z.shiftr b 3)).
Proof.
  intros Hr Hg Hb. unfold decode_encode, ColorCodec.rgb565_to_rgb888.
  destruct (to_rgb565_fields r g b Hr Hg Hb)
    as (_ & _ & Er & Eg & Eb & _).
  rewrite field_r_eq, field_g_eq, field_b_eq, Er, Eg, Eb.
  pose proof (shiftr3_u8 r Hr) as Br.
  pose proof (shiftr2_u8 g Hg) as Bg.
  pose proof (shiftr3_u8 b Hb) as Bb.
  rewrite (mask5_id (Z.shiftr r 3)) by assumption.
  rewrite !expand5_wide, expand6_wide by assumption.
  reflexivity.
Qed.

Lemma in_range_cases (P : Z -> bool) (n : nat) :
  forallb P (map Z.of_nat (seq 0 n)) = true ->
  forall f, 0 <= f < Z.of_nat n -> P f = true.
Proof.
  intros H f Hf. rewrite forallb_forall in H. apply H.
  apply in_map_iff. exists (Z.to_nat f). split; [lia |].
  apply in_seq. lia.
Qed.

(** The expansion of a field lies in the bucket of that field: packing
    a decoded pixel again gives the same packed value. *)
Lemma wide5_bucket (f : Z) :
  0 <= f < 32 -> Z.shiftr (ColorCodec.wide5 f) 3 = f.
Proof.
  intros H. apply Z.eqb_eq.
  apply (in_range_cases (fun f => Z.shiftr (ColorCodec.wide5 f) 3 =? f) 32);
    [reflexivity | exact H].
Qed.

Lemma wide6_bucket (f : Z) :
  0 <= f < 64 -> Z.shiftr (ColorCodec.wide6 f) 2 = f.
Proof.
  intros H. apply Z.eqb_eq.
  apply (in_range_cases (fun f => Z.shiftr (ColorCodec.wide6 f) 2 =? f) 64);
    [reflexivity | exact H].
Qed.

Lemma encode_decode_encode (r g b : Z) :
  is_u8 r -> is_u8 g -> is_u8 b ->
  (let '(r', g', b') := decode_encode (r, g, b) in
   ColorCodec.to_rgb565 r' g' b')
  = ColorCodec.to_rgb565 r g b.
Proof.
  intros Hr Hg Hb. rewrite (decode_encode_channels r g b Hr Hg Hb).
  pose proof (shiftr3_u8 r Hr) as Br.
  pose proof (shiftr2_u8 g Hg) as Bg.
  pose proof (shiftr3_u8 b Hb) as Bb.
  unfold ColorCodec.to_rgb565.
  rewrite !wide5_bucket, wide6_bucket by assumption. reflexivity.
Qed.

(** C8. Decoding an encoded triple is not the identity in general, but
    it is exact at the two ends of the range: (255, 255, 255) comes back
    as (255, 255, 255) and (0, 0, 0) as (0, 0, 0), and this holds channel
    by channel, whatever the other two channels are. *)
Theorem decode_encode_endpoints :
  decode_encode (255, 255, 255) = (255, 255, 255)
  /\ decode_encode (0, 0, 0) = (0, 0, 0)
  /\ (forall r g b, is_u8 r -> is_u8 g -> is_u8 b ->
        let '(r', g', b') := decode_encode (r, g, b) in
        (r = 255 -> r' = 255) /\ (r = 0 -> r' = 0)
        /\ (g = 255 -> g' = 255) /\ (g = 0 -> g' = 0)
        /\ (b = 255 -> b' = 255) /\ (b = 0 -> b' = 0))
  /\ (exists c, (let '(r, g, b) := c in is_u8 r /\ is_u8 g /\ is_u8 b)
                /\ decode_encode c <> c).
Proof.
  split; [reflexivity | split; [reflexivity | split]].
  - intros r g b Hr Hg Hb.
    rewrite (decode_encode_channels r g b Hr Hg Hb).
    repeat split; intros ->; reflexivity.
  - exists (1, 1, 1). split.
    + unfold is_u8; lia.
    + vm_compute. discriminate.
Qed.

(** C9. For every 16-bit packed value each expanded channel, computed
    as [field * 255 / max_field], lies in 0..255, so storing it in a
    [uint8_t] neither wraps nor loses information. *)
Theorem expansion_fits_byte (p : Z) :
  is_u16 p ->
  let r5 := ColorCodec.field_r p in
  let g6 := ColorCodec.field_g p in
  let b5 := ColorCodec.field_b p in
  (r5 <= 31 /\ g6 <= 63 /\ b5 <= 31)
  /\ (0 <= ColorCodec.wide5 r5 <= 255
      /\ 0 <= ColorCodec.wide6 g6 <= 255
      /\ 0 <= ColorCodec.wide5 b5 <= 255)
  /\ ColorCodec.rgb565_to_rgb888 p
     = (ColorCodec.wide5 r5, ColorCodec.wide6 g6, ColorCodec.wide5 b5).
Proof.
  intros _ r5 g6 b5. subst r5 g6 b5.
  unfold ColorCodec.rgb565_to_rgb888.
  rewrite field_r_eq, field_g_eq, field_b_eq.
  pose proof (land_mask5_range (Z.shiftr p 11)) as Br.
  pose proof (land_mask6_range (Z.shiftr p 5)) as Bg.
  pose proof (land_mask5_range p) as Bb.
  rewrite !expand5_wide, expand6_wide by assumption.
  repeat split; try lia;
    try (apply wide5_range; assumption); try (apply wide6_range; assumption).
Qed.

Lemma expansion_fits_byte_witness :
  let r5 := ColorCodec.field_r 0xFFFF in
  let g6 := ColorCodec.field_g 0xFFFF in
  let b5 := ColorCodec.field_b 0xFFFF in
  (r5 <= 31 /\ g6 <= 63 /\ b5 <= 31)
  /\ (0 <= ColorCodec.wide5 r5 <= 255
      /\ 0 <= ColorCodec.wide6 g6 <= 255
      /\ 0 <= ColorCodec.wide5 b5 <= 255)
  /\ ColorCodec.rgb565_to_rgb888 0xFFFF
     = (ColorCodec.wide5 r5, ColorCodec.wide6 g6, ColorCodec.wide5 b5).
Proof.
  apply (expansion_fits_byte 0xFFFF). unfold is_u16; lia.
Defined.

(** C10. [to_rgb565] depends only on [r >> 3], [g >> 2] and [b >> 3]:
    two 8-bit triples that agree on these are encoded alike, and the
    masks applied after the shifts leave the shifted values unchanged. *)
Theorem to_rgb565_top_bits (r g b r' g' b' : Z) :
  is_u8 r -> is_u8 g -> is_u8 b -> is_u8 r' -> is_u8 g' -> is_u8 b' ->
  (Z.shiftr r 3 = Z.shiftr r' 3 -> Z.shiftr g 2 = Z.shiftr g' 2 ->
   Z.shiftr b 3 = Z.shiftr b' 3 ->
   ColorCodec.to_rgb565 r g b = ColorCodec.to_rgb565 r' g' b')
  /\ Z.land (Z.shiftr r 3) 0x1F = Z.shiftr r 3
  /\ Z.land (Z.shiftr g 2) 0x3F = Z.shiftr g 2
  /\ Z.land (Z.shiftr b 3) 0x1F = Z.shiftr b 3.
Proof.
  intros Hr Hg Hb Hr' Hg' Hb'. split; [| split; [| split]].
  - intros Er Eg Eb. unfold ColorCodec.to_rgb565.
    rewrite Er, Eg, Eb. reflexivity.
  - apply mask5_id, shiftr3_u8, Hr.
  - apply mask6_id, shiftr2_u8, Hg.
  - apply mask5_id, shiftr3_u8, Hb.
Qed.

Lemma to_rgb565_top_bits_witness :
  ColorCodec.to_rgb565 200 100 50 = ColorCodec.to_rgb565 207 103 55.
Proof.
  apply (to_rgb565_top_bits 200 100 50 207 103 55);
    unfold is_u8; try lia; reflexivity.
Defined.

(** ** The line parser against the line classification *)

Section LineParser.

Ltac each_char c :=
  destruct c as [[] [] [] [] [] [] [] []].

Lemma isspace_nul (c : ascii) : is_nul c = true -> isspace c = false.
Proof. each_char c; vm_compute; congruence. Qed.

Lemma skip_leading_strip (line : list ascii) :
  Convert.skip_leading line = LineSpec.strip_leading_whitespace line.
Proof.
  unfold LineSpec.strip_leading_whitespace.
  induction line as [| c rest IH]; simpl; [reflexivity |].
  destruct (is_nul c) eqn:En; simpl.
  - rewrite (isspace_nul c En). reflexivity.
  - rewrite IH. reflexivity.
Qed.

Lemma drop_while_suffix (f : ascii -> bool) (s : list ascii) (c : ascii) :
  In c (LineSpec.drop_while f s) -> In c s.
Proof.
  induction s as [| a rest IH]; simpl; [tauto |].
  destruct (f a); simpl; intuition.
Qed.

Lemma is_nul_false (c : ascii) : c <> NUL -> is_nul c = false.
Proof. intros H. unfold is_nul. apply Ascii.eqb_neq. exact H. Qed.

Lemma copy_to_buf_content (room : nat) (s : list ascii) :
  ~ In NUL s ->
  Convert.copy_to_buf room s
  = firstn room (LineSpec.take_while (fun c => negb (LineSpec.is_eol c)) s).
Proof.
  revert s. induction room as [| room IH]; intros s Hs; [reflexivity |].
  destruct s as [| c rest]; [reflexivity |].
  simpl. rewrite is_nul_false by (intros ->; apply Hs; left; reflexivity).
  unfold LineSpec.is_eol. simpl.
  rewrite negb_orb.
  destruct (negb (Ascii.eqb c CR) && negb (Ascii.eqb c LF)); [| reflexivity].
  simpl. f_equal. apply IH. intros H; apply Hs; right; exact H.
Qed.

Lemma comment_test (s : list ascii) :
  Ascii.eqb (char_at s 0) "/" && Ascii.eqb (char_at s 1) "/" = true
  <-> LineSpec.begins_with_two_slashes s.
Proof.
  unfold LineSpec.begins_with_two_slashes, char_at. split.
  - intros H. apply andb_true_iff in H as [H0 H1].
    apply Ascii.eqb_eq in H0, H1.
    destruct s as [| a [| b rest]]; simpl in *; try discriminate.
    subst. eexists; reflexivity.
  - intros [rest ->]. reflexivity.
Qed.

Lemma In_existsb (c : ascii) (l : list ascii) :
  In c l <-> existsb (Ascii.eqb c) l = true.
Proof.
  rewrite existsb_exists. split.
  - intros H. exists c. split; [exact H | apply Ascii.eqb_refl].
  - intros [x [Hx E]]. apply Ascii.eqb_eq in E. subst. exact Hx.
Qed.

Lemma isxdigit_iff (c : ascii) : isxdigit c = true <-> LineSpec.is_hex_digit c.
Proof.
  unfold LineSpec.is_hex_digit. rewrite In_existsb.
  each_char c; vm_compute; split; congruence.
Qed.

Lemma xdigit_value_hex (c : ascii) :
  isxdigit c = true ->
  xdigit_value c = Some (LineSpec.hex_digit_value c)
  /\ 0 <= LineSpec.hex_digit_value c < 16.
Proof.
  each_char c; vm_compute; intros H; try discriminate H;
    repeat split; congruence.
Qed.

Lemma isxdigit_plain (c : ascii) :
  isxdigit c = true ->
  is_nul c = false /\ isspace c = false /\ Convert.is_x c = false
  /\ Ascii.eqb c "-" = false /\ Ascii.eqb c "+" = false.
Proof.
  each_char c; vm_compute; intros H; try discriminate H;
    repeat split; congruence.
Qed.

Lemma digits16_hex (s : list ascii) (acc : Z) :
  forallb isxdigit s = true ->
  Libc.digits16 acc s
  = fold_left (fun a c => a * 16 + LineSpec.hex_digit_value c) s acc.
Proof.
  revert acc. induction s as [| c rest IH]; intros acc H; [reflexivity |].
  simpl in H. apply andb_true_iff in H as [Hc Hrest].
  simpl. destruct (xdigit_value_hex c Hc) as [-> _].
  apply IH, Hrest.
Qed.

Lemma fold_hex_bound (s : list ascii) (acc : Z) :
  forallb isxdigit s = true -> 0 <= acc ->
  0 <= fold_left (fun a c => a * 16 + LineSpec.hex_digit_value c) s acc
    < (acc + 1) * 16 ^ Z.of_nat (length s).
Proof.
  revert acc. induction s as [| c rest IH]; intros acc H Hacc.
  - simpl. lia.
  - simpl in H. apply andb_true_iff in H as [Hc Hrest].
    destruct (xdigit_value_hex c Hc) as [_ Hd].
    cbn [fold_left length]. rewrite Nat2Z.inj_succ, Z.pow_succ_r by lia.
    specialize (IH (acc * 16 + LineSpec.hex_digit_value c) Hrest ltac:(lia)).
    assert (0 < 16 ^ Z.of_nat (length rest)) by (apply Z.pow_pos_nonneg; lia).
    nia.
Qed.

Lemma hex_value_bound (s : list ascii) :
  forallb isxdigit s = true -> (length s <= 4)%nat ->
  0 <= LineSpec.hex_value s < 65536.
Proof.
  intros H Hlen. unfold LineSpec.hex_value.
  pose proof (fold_hex_bound s 0 H ltac:(lia)) as B.
  assert (16 ^ Z.of_nat (length s) <= 16 ^ 4)
    by (apply Z.pow_le_mono_r; lia).
  change (16 ^ 4) with 65536 in *. lia.
Qed.

(** On one to four hexadecimal digits [strtoul] returns the plain
    base-16 value: there is no white space, sign or prefix to skip and
    no overflow to clamp. *)
Lemma strtoul16_hex (s : list ascii) :
  forallb isxdigit s = true -> (length s <= 4)%nat ->
  Libc.strtoul16 s = LineSpec.hex_value s.
Proof.
  intros H Hlen. pose proof (hex_value_bound s H Hlen) as B.
  unfold Libc.strtoul16.
  assert (E1 : Libc.skip_isspace s = s).
  { destruct s as [| c rest]; [reflexivity |].
    simpl in H. apply andb_true_iff in H as [Hc _].
    destruct (isxdigit_plain c Hc) as (_ & Hs & _). simpl. rewrite Hs.
    reflexivity. }
  rewrite E1.
  assert (E2 : match s with
               | c :: rest =>
                   if Ascii.eqb c "-" then (true, rest)
                   else if Ascii.eqb c "+" then (false, rest) else (false, s)
               | [] => (false, s)
               end = (false, s)).
  { destruct s as [| c rest]; [reflexivity |].
    simpl in H. apply andb_true_iff in H as [Hc _].
    destruct (isxdigit_plain c Hc) as (_ & _ & _ & -> & ->). reflexivity. }
  rewrite E2.
  assert (E3 : Libc.skip_0x s = s).
  { destruct s as [| z [| x [| d rest]]]; try reflexivity.
    simpl in H. apply andb_true_iff in H as [_ H].
    apply andb_true_iff in H as [Hx _].
    destruct (isxdigit_plain x Hx) as (_ & _ & Hnx & _).
    unfold Convert.is_x in Hnx. unfold Libc.skip_0x. rewrite Hnx.
    rewrite andb_false_r. reflexivity. }
  rewrite E3, (digits16_hex s 0 H). fold (LineSpec.hex_value s).
  unfold Libc.ULONG_MAX.
  destruct (2 ^ 64 - 1 <? LineSpec.hex_value s) eqn:E; [| reflexivity].
  apply Z.ltb_lt in E. change (2 ^ 64 - 1) with 18446744073709551615 in E. lia.
Qed.

Lemma forallb_isxdigit_iff (s : list ascii) :
  forallb isxdigit s = true <-> (forall c, In c s -> LineSpec.is_hex_digit c).
Proof.
  rewrite forallb_forall. split; intros H c Hc; apply isxdigit_iff, H, Hc.
Qed.

Lemma existsb_is_x_iff (s : list ascii) :
  existsb Convert.is_x s = false
  <-> (forall c, In c s -> c <> "x"%char /\ c <> "X"%char).
Proof.
  split.
  - intros H c Hc.
    assert (Hx : Convert.is_x c = false).
    { destruct (Convert.is_x c) eqn:E; [| reflexivity].
      rewrite <- H. symmetry. apply existsb_exists. exists c. tauto. }
    unfold Convert.is_x in Hx. apply orb_false_iff in Hx as [H1 H2].
    apply Ascii.eqb_neq in H1, H2. tauto.
  - intros H. destruct (existsb Convert.is_x s) eqn:E; [| reflexivity].
    apply existsb_exists in E as [c [Hc Hx]].
    destruct (H c Hc) as [H1 H2].
    unfold Convert.is_x in Hx. apply orb_true_iff in Hx as [Hx | Hx];
      apply Ascii.eqb_eq in Hx; contradiction.
Qed.

Lemma mask16_small (v : Z) :
  0 <= v < 65536 -> u16 (Z.land v 0xFFFF) = Z.land v 0xFFFF /\ Z.land v 0xFFFF = v.
Proof.
  intros H. change 0xFFFF with (Z.ones 16).
  rewrite land_ones_small by (simpl; lia).
  split; [apply Z.mod_small; lia | reflexivity].
Qed.

Lemma parse_rgb565_line_unfold (line : list ascii) :
  ~ In NUL line ->
  Convert.parse_rgb565_line line
  = let s := LineSpec.strip_leading_whitespace line in
    let buf := LineSpec.content line in
    if Ascii.eqb (char_at s 0) "/" && Ascii.eqb (char_at s 1) "/" then None
    else if Z.of_nat (length buf) =? 0 then None
    else if existsb Convert.is_x buf then None
    else if negb (forallb isxdigit buf) then None
    else if 4 <? Z.of_nat (length buf) then None
    else Some (u16 (Z.land (Libc.strtoul16 buf) 0xFFFF)).
Proof.
  intros Hnul. unfold Convert.parse_rgb565_line.
  rewrite skip_leading_strip.
  rewrite copy_to_buf_content.
  - reflexivity.
  - intros H. apply Hnul.
    apply (drop_while_suffix isspace). exact H.
Qed.

End LineParser.

(** The parser against the classification, for a line free of NUL. *)
Lemma parse_classifies (line : list ascii) (v : Z) :
  ~ In NUL line ->
  Convert.parse_rgb565_line line = Some v
  <-> LineSpec.is_data_line line /\ v = LineSpec.data_value line.
Proof.
  intros Hnul. rewrite (parse_rgb565_line_unfold line Hnul).
  unfold LineSpec.is_data_line, LineSpec.data_value. cbv zeta.
  set (s := LineSpec.strip_leading_whitespace line).
  set (buf := LineSpec.content line).
  destruct (Ascii.eqb (char_at s 0) "/" && Ascii.eqb (char_at s 1) "/")
    eqn:Ec.
  { apply comment_test in Ec. split; [discriminate | tauto]. }
  assert (Hc : ~ LineSpec.begins_with_two_slashes s).
  { intros H. apply comment_test in H. congruence. }
  destruct (Z.of_nat (length buf) =? 0) eqn:En.
  { apply Z.eqb_eq in En. destruct buf; [| simpl in En; lia].
    split; [discriminate | tauto]. }
  apply Z.eqb_neq in En.
  assert (Hne : buf <> []) by (intros E; rewrite E in En; simpl in En; lia).
  destruct (existsb Convert.is_x buf) eqn:Ex.
  { split; [discriminate |]. intros [(_ & _ & H & _) _].
    apply existsb_is_x_iff in H. congruence. }
  destruct (forallb isxdigit buf) eqn:Eh; simpl.
  2:{ split; [discriminate |]. intros [(_ & _ & _ & _ & H) _].
      apply forallb_isxdigit_iff in H. congruence. }
  destruct (4 <? Z.of_nat (length buf)) eqn:El.
  { apply Z.ltb_lt in El. split; [discriminate |].
    intros [(_ & _ & _ & H & _) _]. lia. }
  apply Z.ltb_ge in El.
  assert (Hlen : (length buf <= 4)%nat) by lia.
  rewrite (strtoul16_hex buf Eh Hlen).
  destruct (mask16_small _ (hex_value_bound buf Eh Hlen)) as [-> _].
  split.
  - intros E. injection E as <-.
    split; [| reflexivity].
    split; [exact Hc |]. split; [exact Hne |].
    split; [apply existsb_is_x_iff; exact Ex |].
    split; [exact Hlen | apply forallb_isxdigit_iff; exact Eh].
  - intros [_ ->]. reflexivity.
Qed.

(** C2. A line (a C string, hence free of NUL) yields a value exactly
    when, once leading white space is stripped, it does not begin with
    two slashes and its content up to the first CR or LF (at most 63
    characters) is non-empty, free of [x] and [X], at most four
    characters long and made of hexadecimal digits only; the value is
    then the content read in base 16 and masked to 16 bits. *)
Theorem parse_rgb565_line_spec (line : list ascii) (v : Z) :
  ~ In NUL line ->
  Convert.parse_rgb565_line line = Some v
  <-> LineSpec.is_data_line line /\ v = LineSpec.data_value line.
Proof. exact (parse_classifies line v). Qed.

Lemma parse_rgb565_line_spec_witness :
  Convert.parse_rgb565_line (list_ascii_of_string "FFFF" ++ [LF]) = Some 0xFFFF
  <-> LineSpec.is_data_line (list_ascii_of_string "FFFF" ++ [LF])
      /\ 0xFFFF = LineSpec.data_value (list_ascii_of_string "FFFF" ++ [LF]).
Proof.
  apply (parse_rgb565_line_spec (list_ascii_of_string "FFFF" ++ [LF]) 0xFFFF).
  simpl. intros H. repeat (destruct H as [H | H]; [discriminate H |]). exact H.
Defined.

(** The sample lines of the specification. *)
Example parse_samples :
  Convert.parse_rgb565_line (list_ascii_of_string "FFFF" ++ [LF]) = Some 0xFFFF
  /\ Convert.parse_rgb565_line (list_ascii_of_string "1" ++ [LF]) = Some 0x0001
  /\ Convert.parse_rgb565_line (list_ascii_of_string "//comment" ++ [LF]) = None
  /\ Convert.parse_rgb565_line (list_ascii_of_string "xxxx" ++ [LF]) = None
  /\ Convert.parse_rgb565_line (list_ascii_of_string "12G4" ++ [LF]) = None
  /\ Convert.parse_rgb565_line [LF] = None
  /\ Convert.parse_rgb565_line [] = None.
Proof. repeat split. Qed.

(** ** The resilient hex decoder *)

Section HexDecoder.

Import Convert.

Lemma emit_eq (p w : Z) (f : list Z) :
  emit p w f = (w + 1, rev (bytes_of p) ++ f).
Proof.
  unfold emit, bytes_of, fputc.
  destruct (ColorCodec.rgb565_to_rgb888 p) as [[r8 g8] b8]. reflexivity.
Qed.

Lemma ppm_bytes_cons (p : Z) (ps : list Z) :
  ppm_bytes (p :: ps) = bytes_of p ++ ppm_bytes ps.
Proof. reflexivity. Qed.

Lemma ppm_bytes_app (ps qs : list Z) :
  ppm_bytes (ps ++ qs) = ppm_bytes ps ++ ppm_bytes qs.
Proof. unfold ppm_bytes. apply flat_map_app. Qed.

Lemma fgets_chars_length (room : nat) (f : list ascii) :
  (length (snd (fgets_chars room f)) <= length f)%nat.
Proof.
  revert f. induction room as [| room IH]; intros f; [simpl; lia |].
  destruct f as [| c f']; [simpl; lia |].
  simpl. destruct (Ascii.eqb c LF); [simpl; lia |].
  specialize (IH f'). destruct (fgets_chars room f') as [l r].
  simpl in *. lia.
Qed.

Lemma fgets_chars_cons (room : nat) (c : ascii) (f : list ascii) :
  fgets_chars (S room) (c :: f)
  = if Ascii.eqb c LF then ([c], f)
    else (c :: fst (fgets_chars room f), snd (fgets_chars room f)).
Proof.
  cbn [fgets_chars]. destruct (Ascii.eqb c LF); [reflexivity |].
  destruct (fgets_chars room f); reflexivity.
Qed.

(** A successful [fgets] consumes at least one character. *)
Lemma fgets_progress (f line rest : list ascii) :
  fgets 256 f = Some (line, rest) -> (length rest < length f)%nat.
Proof.
  unfold fgets. destruct f as [| c f']; [discriminate |].
  intros H.
  assert (H' : fgets_chars (256 - 1) (c :: f') = (line, rest))
    by (apply (f_equal (fun o => match o with Some x => x | None => ([], []) end)) in H;
        exact H).
  clear H. rename H' into H.
  change (256 - 1)%nat with (S 254) in H. rewrite fgets_chars_cons in H.
  destruct (Ascii.eqb c LF).
  - injection H as _ <-. simpl. lia.
  - pose proof (fgets_chars_length 254 f') as L.
    apply (f_equal snd) in H. cbn [snd] in H. subst rest.
    cbn [length]. lia.
Qed.

Lemma fgets_eof (f : list ascii) : fgets 256 f = None <-> f = [].
Proof. destruct f; simpl; split; congruence. Qed.

(** More fuel than characters does not change the lines read. *)
Lemma lines_with_fuel_enough (fuel : nat) (f : list ascii) :
  (length f <= fuel)%nat -> lines_with_fuel fuel f = lines_of f.
Proof.
  unfold lines_of. remember (length f) as n eqn:En.
  assert (Hn : (length f <= n)%nat) by lia. clear En.
  revert f fuel Hn.
  induction n as [| n IH]; intros f fuel Hf Hfuel.
  - destruct f; [| simpl in Hf; lia].
    destruct fuel; reflexivity.
  - destruct fuel as [| fuel]; [lia |].
    cbn [lines_with_fuel].
    destruct (fgets 256 f) as [[line rest] |] eqn:Eg; [| reflexivity].
    apply fgets_progress in Eg. f_equal.
    rewrite (IH rest fuel) by lia.
    symmetry. apply (IH rest n); lia.
Qed.

Lemma lines_of_step (f line rest : list ascii) :
  fgets 256 f = Some (line, rest) -> lines_of f = line :: lines_of rest.
Proof.
  intros Eg. pose proof (fgets_progress _ _ _ Eg) as L.
  unfold lines_of at 1.
  destruct (length f) as [| n] eqn:En; [lia |].
  cbn [lines_with_fuel]. rewrite Eg. f_equal.
  apply lines_with_fuel_enough. lia.
Qed.

Lemma last_default (a d d' : Z) (l : list Z) :
  last (a :: l) d = last (a :: l) d'.
Proof.
  revert a. induction l as [| b l IH]; intros a; [reflexivity |].
  change (last (b :: l) d = last (b :: l) d'). apply IH.
Qed.

Lemma last_cons (v d : Z) (l : list Z) : last (v :: l) d = last l v.
Proof.
  destruct l as [| a l]; [reflexivity |].
  change (last (a :: l) d = last (a :: l) v). apply last_default.
Qed.

Lemma TOTAL_PIXELS_value : TOTAL_PIXELS = 76800.
Proof. reflexivity. Qed.

(** The first loop on a file that yields too few values: it reads the
    whole file, writes every valid value and remembers the last one. *)
Lemma read_loop_shortfall (fuel : nat) (st : state) :
  (length (hex_file st) < fuel)%nat ->
  written st + Z.of_nat (length (values_of_lines (lines_of (hex_file st))))
    < TOTAL_PIXELS ->
  let vals := values_of_lines (lines_of (hex_file st)) in
  read_loop fuel st
  = Some (mkState (written st + Z.of_nat (length vals))
                  (last vals (pixel st)) (last vals (last_valid st)) []
                  (rev (ppm_bytes vals) ++ ppm_file st)).
Proof.
  revert st. induction fuel as [| fuel IH]; intros st Hfuel Hlt; [lia |].
  cbn zeta. cbn [read_loop].
  destruct (written st <? TOTAL_PIXELS) eqn:Ew.
  2:{ apply Z.ltb_ge in Ew. lia. }
  destruct (fgets 256 (hex_file st)) as [[line rest] |] eqn:Eg.
  - pose proof (fgets_progress _ _ _ Eg) as L.
    rewrite (lines_of_step _ _ _ Eg) in *.
    cbn [values_of_lines] in *.
    destruct (parse_rgb565_line line) as [px |].
    + rewrite emit_eq.
      cbn [length] in Hlt. rewrite Nat2Z.inj_succ in Hlt.
      rewrite IH; cbn [hex_file written pixel last_valid ppm_file];
        [| lia | lia].
      rewrite !last_cons, ppm_bytes_cons, rev_app_distr, <- app_assoc.
      cbn [length]. rewrite Nat2Z.inj_succ.
      f_equal. f_equal. lia.
    + rewrite IH; cbn [hex_file written pixel last_valid ppm_file];
        [reflexivity | lia | lia].
  - apply fgets_eof in Eg. destruct st as [w p lv f o].
    cbn [hex_file] in *. subst f. cbn. rewrite Z.add_0_r. reflexivity.
Qed.

(** The second loop writes the last valid value until the quota is met. *)
Lemma fill_loop_fills (n fuel : nat) (st : state) :
  (n < fuel)%nat -> written st + Z.of_nat n = TOTAL_PIXELS ->
  fill_loop fuel st
  = Some (mkState TOTAL_PIXELS (pixel st) (last_valid st) (hex_file st)
            (rev (ppm_bytes (repeat (last_valid st) n)) ++ ppm_file st)).
Proof.
  revert fuel st. induction n as [| n IH]; intros fuel st Hfuel Hw.
  - destruct fuel as [| fuel]; [lia |]. cbn [fill_loop].
    rewrite Z.add_0_r in Hw.
    rewrite Hw, Z.ltb_irrefl. destruct st; cbn in *. subst. reflexivity.
  - destruct fuel as [| fuel]; [lia |]. cbn [fill_loop].
    rewrite Nat2Z.inj_succ in Hw.
    destruct (written st <? TOTAL_PIXELS) eqn:Ew.
    2:{ apply Z.ltb_ge in Ew. lia. }
    rewrite emit_eq.
    rewrite IH; cbn [hex_file written pixel last_valid ppm_file];
      [| lia | lia].
    cbn [repeat]. rewrite ppm_bytes_cons, rev_app_distr, <- app_assoc.
    reflexivity.
Qed.

Lemma nth_repeat_lt (x d : Z) (n i : nat) :
  (i < n)%nat -> nth i (repeat x n) d = x.
Proof.
  revert i. induction n as [| n IH]; intros i H; [lia |].
  destruct i as [| i]; [reflexivity |]. simpl. apply IH. lia.
Qed.

(** Any fuel above the file length and the pixel quota gives the same
    result: [main] does not run out of fuel on a short file. *)
Lemma main_with_fuel_shortfall (fuel : nat) (content : list ascii) :
  let vals := valid_values content in
  Z.of_nat (length vals) < TOTAL_PIXELS ->
  (length content < fuel)%nat -> (Z.to_nat TOTAL_PIXELS < fuel)%nat ->
  main_with_fuel fuel content
  = Some (ppm_bytes
            (vals ++ repeat (last vals 0)
                       (Z.to_nat TOTAL_PIXELS - length vals))).
Proof.
  intros vals Hk Hf1 Hf2. unfold main_with_fuel.
  rewrite read_loop_shortfall; cbn [hex_file written]; [| lia | exact Hk].
  fold (valid_values content). fold vals.
  rewrite (fill_loop_fills (Z.to_nat TOTAL_PIXELS - length vals));
    cbn [hex_file written pixel last_valid ppm_file].
  - rewrite rev_append_rev, !app_nil_r, rev_app_distr, !rev_involutive.
    rewrite ppm_bytes_app. reflexivity.
  - lia.
  - rewrite TOTAL_PIXELS_value in *. lia.
Qed.

(** The first loop in general: it takes the valid values until the
    quota is met or the file ends. *)
Lemma read_loop_takes (fuel : nat) (st : state) :
  (length (hex_file st) < fuel)%nat -> written st <= TOTAL_PIXELS ->
  let vals := values_of_lines (lines_of (hex_file st)) in
  let taken := firstn (Z.to_nat (TOTAL_PIXELS - written st)) vals in
  exists rest,
    read_loop fuel st
    = Some (mkState (written st + Z.of_nat (length taken))
                    (last taken (pixel st)) (last taken (last_valid st))
                    rest (rev (ppm_bytes taken) ++ ppm_file st)).
Proof.
  revert st. induction fuel as [| fuel IH]; intros st Hfuel Hw; [lia |].
  cbn zeta. cbn [read_loop].
  destruct (written st <? TOTAL_PIXELS) eqn:Ew.
  2:{ apply Z.ltb_ge in Ew.
      replace (TOTAL_PIXELS - written st) with 0 by lia.
      exists (hex_file st). destruct st; cbn. rewrite Z.add_0_r.
      reflexivity. }
  apply Z.ltb_lt in Ew.
  destruct (fgets 256 (hex_file st)) as [[line rest] |] eqn:Eg.
  - pose proof (fgets_progress _ _ _ Eg) as L.
    rewrite (lines_of_step _ _ _ Eg).
    cbn [values_of_lines].
    destruct (parse_rgb565_line line) as [px |].
    + rewrite emit_eq.
      destruct (IH (mkState (written st + 1) px px rest
                            (rev (bytes_of px) ++ ppm_file st)))
        as (rest' & E); cbn [hex_file written]; [lia | lia |].
      cbn [hex_file written pixel last_valid ppm_file] in E.
      exists rest'. rewrite E.
      replace (Z.to_nat (TOTAL_PIXELS - written st))
        with (S (Z.to_nat (TOTAL_PIXELS - (written st + 1)))) by lia.
      cbn [firstn length].
      rewrite !last_cons, ppm_bytes_cons, rev_app_distr, <- app_assoc.
      rewrite Nat2Z.inj_succ. f_equal. f_equal. lia.
    + destruct (IH (mkState (written st) (pixel st) (last_valid st) rest
                            (ppm_file st)))
        as (rest' & E); cbn [hex_file written]; [lia | lia |].
      exists rest'. exact E.
  - apply fgets_eof in Eg. exists []. destruct st as [w p lv f o].
    cbn [hex_file] in *. subst f. cbn [lines_of lines_with_fuel length].
    cbn [values_of_lines]. rewrite firstn_nil. cbn.
    rewrite Z.add_0_r. reflexivity.
Qed.

(** [main] never runs out of fuel, and always writes 76800 pixels: the
    first valid values of the file, at most 76800 of them, completed by
    copies of the last one taken. *)
Lemma main_decodes (content : list ascii) :
  let taken := firstn (Z.to_nat TOTAL_PIXELS) (valid_values content) in
  let packed :=
    taken ++ repeat (last taken 0) (Z.to_nat TOTAL_PIXELS - length taken) in
  main content = Some (ppm_bytes packed)
  /\ Z.of_nat (length packed) = TOTAL_PIXELS.
Proof.
  cbn zeta. unfold main, main_with_fuel.
  destruct (read_loop_takes (S (length content + Z.to_nat TOTAL_PIXELS))
              (mkState 0 0 0 content []))
    as (rest & E); cbn [hex_file written];
    [lia | rewrite TOTAL_PIXELS_value; lia |].
  cbn [hex_file written pixel last_valid ppm_file] in E.
  rewrite Z.sub_0_r in E. fold (valid_values content) in E.
  set (taken := firstn (Z.to_nat TOTAL_PIXELS) (valid_values content)) in *.
  assert (Ht : (length taken <= Z.to_nat TOTAL_PIXELS)%nat)
    by (unfold taken; rewrite length_firstn; lia).
  rewrite E.
  rewrite (fill_loop_fills (Z.to_nat TOTAL_PIXELS - length taken));
    cbn [hex_file written pixel last_valid ppm_file].
  - split.
    + rewrite rev_append_rev, !app_nil_r, rev_app_distr, !rev_involutive.
      rewrite ppm_bytes_app. reflexivity.
    + rewrite length_app, repeat_length. rewrite TOTAL_PIXELS_value in *.
      lia.
  - lia.
  - rewrite TOTAL_PIXELS_value in *. lia.
Qed.

(** *** Lines read by [fgets] and lines of the text *)

Lemma fgets_chars_take_line (room : nat) (f : list ascii) :
  (length (fst (TextLines.take_line f)) <= room)%nat ->
  fgets_chars room f = TextLines.take_line f.
Proof.
  revert room. induction f as [| c f IH]; intros room H.
  - destruct room; reflexivity.
  - cbn [TextLines.take_line] in *.
    destruct (Ascii.eqb c LF) eqn:Ec.
    + destruct room as [| room]; [simpl in H; lia |].
      rewrite fgets_chars_cons, Ec. reflexivity.
    + destruct (TextLines.take_line f) as [l r] eqn:El.
      cbn [fst length] in H.
      destruct room as [| room]; [lia |].
      rewrite fgets_chars_cons, Ec, IH by (cbn [fst]; lia).
      reflexivity.
Qed.

Lemma take_line_rest (f : list ascii) :
  (length (snd (TextLines.take_line f)) <= length f)%nat.
Proof.
  induction f as [| c f IH]; [simpl; lia |].
  cbn [TextLines.take_line]. destruct (Ascii.eqb c LF); [simpl; lia |].
  destruct (TextLines.take_line f) as [l r]. simpl in *. lia.
Qed.

Lemma lines_with_fuel_text (fuel : nat) (f : list ascii) :
  Forall (fun l => (length l <= 255)%nat) (TextLines.lines_with_fuel fuel f) ->
  lines_with_fuel fuel f = TextLines.lines_with_fuel fuel f.
Proof.
  revert f. induction fuel as [| fuel IH]; intros f H; [reflexivity |].
  cbn [lines_with_fuel TextLines.lines_with_fuel] in *.
  destruct f as [| c f']; [reflexivity |].
  unfold fgets. change (256 - 1)%nat with 255%nat.
  destruct (TextLines.take_line (c :: f')) as [l r] eqn:El.
  inversion H as [| ? ? Hl Hr]; subst.
  rewrite fgets_chars_take_line by (rewrite El; exact Hl).
  rewrite El. f_equal. apply IH, Hr.
Qed.

(** When no line of the text is longer than 255 characters, its line
    feed included, [fgets] delivers exactly the lines of the text. *)
Lemma lines_of_text_lines (content : list ascii) :
  Forall (fun l => (length l <= 255)%nat) (TextLines.text_lines content) ->
  lines_of content = TextLines.text_lines content.
Proof. apply lines_with_fuel_text. Qed.

(** A longer line reaches the parser in pieces: 254 blanks followed by
    [1F] are read as a first line ending in [1] and a second line [F]. *)
Example long_line_is_split :
  let content := repeat " "%char 254 ++ list_ascii_of_string "1F" ++ [LF] in
  TextLines.text_lines content = [content]
  /\ lines_of content
     = [repeat " "%char 254 ++ list_ascii_of_string "1";
        list_ascii_of_string "F" ++ [LF]]
  /\ valid_values content = [0x1; 0xF].
Proof. vm_compute. repeat split. Qed.

End HexDecoder.

(** ** The decoder against the specification *)

Section SpecDecoder.

(** The values of the valid data lines are determined by the lines. *)
Lemma data_values_unique (ls : list (list ascii)) (vs vs' : list Z) :
  data_values ls vs -> data_values ls vs' -> vs = vs'.
Proof.
  intros H. revert vs'.
  induction H as [| l ls vs Hd H IH | l ls vs Hd H IH]; intros vs' H';
    inversion H'; subst; try contradiction.
  - reflexivity.
  - f_equal. apply IH. assumption.
  - apply IH. assumption.
Qed.

(** On lines free of NUL the parser computes them. *)
Lemma data_values_parsed (ls : list (list ascii)) :
  Forall (fun l => ~ In NUL l) ls ->
  data_values ls (Convert.values_of_lines ls).
Proof.
  induction 1 as [| l ls Hl H IH]; cbn [Convert.values_of_lines];
    [constructor |].
  destruct (Convert.parse_rgb565_line l) as [v |] eqn:E.
  - apply (parse_classifies l v Hl) in E. destruct E as [Hd ->].
    constructor; assumption.
  - apply data_values_skip; [| exact IH].
    intros Hd.
    pose proof (proj2 (parse_classifies l (LineSpec.data_value l) Hl)
                  (conj Hd eq_refl)) as E'.
    congruence.
Qed.

Lemma short_lines_split (ls : list (list ascii)) :
  Forall short_line ls ->
  Forall (fun l => (length l <= 255)%nat) ls
  /\ Forall (fun l => ~ In NUL l) ls.
Proof.
  induction 1 as [| l ls [Hlen Hnul] H [IH1 IH2]];
    split; constructor; assumption.
Qed.

Lemma short_lineb_sound (ls : list (list ascii)) :
  forallb short_lineb ls = true -> Forall short_line ls.
Proof.
  intros H. apply Forall_forall. intros l Hl.
  rewrite forallb_forall in H. specialize (H l Hl).
  unfold short_lineb in H. apply andb_true_iff in H as [H1 H2].
  split; [apply Nat.leb_le, H1 |].
  intros Hin. apply negb_true_iff in H2.
  assert (E : existsb is_nul l = true).
  { apply existsb_exists. exists NUL. split; [exact Hin | reflexivity]. }
  congruence.
Qed.

(** When every line of the text fits the buffer and holds no NUL, the
    values that the reading loop obtains are those of the valid data
    lines of the text. *)
Lemma values_of_text (content : list ascii) (vals : list Z) :
  Forall short_line (TextLines.text_lines content) ->
  data_values (TextLines.text_lines content) vals ->
  vals = Convert.valid_values content.
Proof.
  intros Hs Hv. destruct (short_lines_split _ Hs) as [Hlen Hnul].
  unfold Convert.valid_values. rewrite (lines_of_text_lines content Hlen).
  exact (data_values_unique _ _ _ Hv (data_values_parsed _ Hnul)).
Qed.

(** The shortfall policy in terms of the pieces that [fgets] delivers:
    this holds of every file. *)
Lemma shortfall_of_pieces (content : list ascii) :
  Z.of_nat (length (Convert.valid_values content)) < Convert.TOTAL_PIXELS ->
  shortfall_filled content (Convert.valid_values content).
Proof.
  unfold shortfall_filled. cbv zeta.
  set (vals := Convert.valid_values content).
  set (K := length vals). intros HK.
  exists (vals ++ repeat (last vals 0)
                    (Z.to_nat Convert.TOTAL_PIXELS - K)).
  split; [| split; [reflexivity | split; [| split; [| split]]]].
  - unfold Convert.main. apply main_with_fuel_shortfall.
    + exact HK.
    + lia.
    + rewrite TOTAL_PIXELS_value. lia.
  - rewrite length_app, repeat_length. fold K.
    rewrite TOTAL_PIXELS_value in *. lia.
  - subst K. rewrite firstn_app, Nat.sub_diag, firstn_all. simpl.
    apply app_nil_r.
  - intros i Hi Hlt. rewrite app_nth2 by (fold K; lia).
    apply nth_repeat_lt. fold K. rewrite TOTAL_PIXELS_value in *. lia.
  - intros E. subst K. destruct vals; [reflexivity | discriminate].
Qed.

(** The long comment is one line of the text and not a data line, but
    [fgets] cuts it after 255 characters and the parser accepts what is
    left of it. *)
Lemma long_comment_lines :
  TextLines.text_lines long_comment = [long_comment]
  /\ ~ LineSpec.is_data_line long_comment
  /\ Convert.valid_values long_comment = [0xABCD].
Proof.
  split; [vm_compute; reflexivity |].
  split; [| vm_compute; reflexivity].
  intros (H & _). apply H. vm_compute. eexists. reflexivity.
Qed.

End SpecDecoder.

(** C1 as the specification states it fails on a stream with a line
    longer than the buffer of [main]: the stream [long_comment] has no
    valid data line, so all 76800 values should be 0, but [main] writes
    the expansion of [0xABCD] first. *)
Lemma shortfall_fill_fails_on_long_line :
  ~ (forall (content : list ascii) (vals : list Z),
       data_values (TextLines.text_lines content) vals ->
       Z.of_nat (length vals) < Convert.TOTAL_PIXELS ->
       shortfall_filled content vals).
Proof.
  intros H.
  destruct long_comment_lines as (Et & Hn & Ev).
  assert (Hv : data_values (TextLines.text_lines long_comment) []).
  { rewrite Et. apply data_values_skip; [exact Hn | constructor]. }
  destruct (H long_comment [] Hv ltac:(rewrite TOTAL_PIXELS_value; simpl; lia))
    as (packed & E & _ & L & _ & F & _).
  destruct (shortfall_of_pieces long_comment
              ltac:(rewrite Ev, TOTAL_PIXELS_value; simpl; lia))
    as (packed' & E' & _ & _ & P' & _).
  rewrite Ev in P'. cbn [length] in P'.
  rewrite E in E'.
  destruct packed as [| p packed];
    [rewrite TOTAL_PIXELS_value in L; simpl in L; lia |].
  destruct packed' as [| p' packed'']; [discriminate P' |].
  cbn [firstn] in P'. assert (p' = 0xABCD) by congruence. subst p'.
  pose proof (F 0%nat ltac:(simpl; lia)
                ltac:(rewrite TOTAL_PIXELS_value; simpl; lia)) as F0.
  cbn [nth last] in F0. subst p.
  rewrite !ppm_bytes_cons in E'. vm_compute bytes_of in E'.
  discriminate E'.
Qed.

(** C1, as it holds.  For a stream in which every line of the text has
    at most 255 characters, its line feed included, and holds no NUL,
    and whose valid data lines number [K < TOTAL_PIXELS]: the decoder
    writes exactly [TOTAL_PIXELS = 76800] pixels, the first [K] are the
    values of the valid data lines in stream order and every later one
    is the last of them, or 0 when no line is valid. *)
Theorem shortfall_fill (content : list ascii) (vals : list Z) :
  Forall short_line (TextLines.text_lines content) ->
  data_values (TextLines.text_lines content) vals ->
  Z.of_nat (length vals) < Convert.TOTAL_PIXELS ->
  shortfall_filled content vals.
Proof.
  intros Hs Hv HK.
  rewrite (values_of_text content vals Hs Hv) in *.
  apply shortfall_of_pieces, HK.
Qed.

Lemma shortfall_fill_witness :
  shortfall_filled
    (list_ascii_of_string "F800" ++ [LF]
     ++ list_ascii_of_string "xxxx" ++ [LF]
     ++ list_ascii_of_string "12")
    [0xF800; 0x12].
Proof.
  apply (shortfall_fill
           (list_ascii_of_string "F800" ++ [LF]
            ++ list_ascii_of_string "xxxx" ++ [LF]
            ++ list_ascii_of_string "12")
           [0xF800; 0x12]).
  - apply short_lineb_sound. vm_compute. reflexivity.
  - apply (data_values_parsed
             [list_ascii_of_string "F800" ++ [LF];
              list_ascii_of_string "xxxx" ++ [LF];
              list_ascii_of_string "12"]).
    apply short_lines_split, short_lineb_sound. vm_compute. reflexivity.
  - vm_compute. reflexivity.
Defined.

(** The same file run through [main]: 76800 pixels, the two valid
    values first, then copies of the last one. *)
Example main_short_file :
  match Convert.main (list_ascii_of_string "F800" ++ [LF]
                      ++ list_ascii_of_string "xxxx" ++ [LF]
                      ++ list_ascii_of_string "12") with
  | Some out =>
      Z.of_nat (length out) = 3 * 76800
      /\ firstn 9 out = [255; 0; 0; 0; 0; 148; 0; 0; 148]
      /\ pixels_all 0 0 148 (skipn 3 out) = true
  | None => False
  end.
Proof. vm_compute. repeat split. Qed.

(** ** Arrays: reads and writes in range *)

Section Arrays.

Context {A : Type}.

Lemma set_nth_length (a : list A) (n : nat) (f : A -> A) :
  length (set_nth a n f) = length a.
Proof.
  revert n. induction a as [| x a IH]; intros [| n]; simpl; auto.
Qed.

Lemma set_nth_same (a : list A) (n : nat) (f : A -> A) (d : A) :
  (n < length a)%nat -> nth n (set_nth a n f) d = f (nth n a d).
Proof.
  revert n. induction a as [| x a IH]; intros [| n] H; simpl in *;
    try lia; [reflexivity |]. apply IH; lia.
Qed.

Lemma set_nth_other (a : list A) (n m : nat) (f : A -> A) (d : A) :
  n <> m -> nth m (set_nth a n f) d = nth m a d.
Proof.
  revert n m. induction a as [| x a IH]; intros [| n] [| m] H; simpl;
    try reflexivity; try congruence. apply IH; congruence.
Qed.

Lemma load_in_range (a : list A) (i : Z) (d : A) :
  0 <= i < Z.of_nat (length a) -> load a i = Ok (nth (Z.to_nat i) a d).
Proof.
  intros H. unfold load.
  destruct (i <? 0) eqn:E; [apply Z.ltb_lt in E; lia |].
  destruct (nth_error a (Z.to_nat i)) as [x |] eqn:En.
  - rewrite (nth_error_nth _ _ d En). reflexivity.
  - apply nth_error_None in En. lia.
Qed.

Lemma update_in_range (a : list A) (i : Z) (f : A -> A) :
  0 <= i < Z.of_nat (length a) ->
  update a i f = Ok (set_nth a (Z.to_nat i) f).
Proof.
  intros H. unfold update.
  destruct (i <? 0) eqn:E1; [apply Z.ltb_lt in E1; lia |].
  destruct (Z.of_nat (length a) <=? i) eqn:E2; [apply Z.leb_le in E2; lia |].
  reflexivity.
Qed.

End Arrays.

(** ** Reading the bitmap: rows and channels *)

Section Bitmap.

Import BmpToHex.

Lemma fread_length (buf fp : list Z) (n : Z) :
  Z.of_nat (length buf) = n ->
  length (fst (fread buf n fp)) = length buf.
Proof.
  intros H. unfold fread. cbn [fst].
  rewrite length_app, length_skipn.
  pose proof (firstn_le_length (Z.to_nat n) fp). 
  rewrite length_firstn in *. lia.
Qed.

(** One pixel of a row: the three stores build the Red Green Blue
    triple out of the Blue Green Red bytes. *)
Lemma copy_pixel (col src_w dst_row : Z) (row_buf : list Z)
    (px : list Pixel) :
  0 <= col -> col * 3 + 2 < Z.of_nat (length row_buf) ->
  0 <= dst_row * src_w + col < Z.of_nat (length px) ->
  exists px',
    (r <- load row_buf (col * 3 + 2) ;;
     p1 <- update px (dst_row * src_w + col) (set_r r) ;;
     g <- load row_buf (col * 3 + 1) ;;
     p2 <- update p1 (dst_row * src_w + col) (set_g g) ;;
     b <- load row_buf (col * 3 + 0) ;;
     update p2 (dst_row * src_w + col) (set_b b)) = Ok px'
    /\ length px' = length px
    /\ at_index px' (dst_row * src_w + col) = rgb_of_row row_buf col
    /\ (forall j, 0 <= j -> j <> dst_row * src_w + col ->
          at_index px' j = at_index px j).
Proof.
  intros Hc Hb Hi.
  set (i := dst_row * src_w + col) in *.
  rewrite (load_in_range row_buf (col * 3 + 2) 0) by lia. cbn [bind].
  rewrite (update_in_range px i) by lia. cbn [bind].
  rewrite (load_in_range row_buf (col * 3 + 1) 0) by lia. cbn [bind].
  rewrite update_in_range by (rewrite set_nth_length; lia). cbn [bind].
  rewrite (load_in_range row_buf (col * 3 + 0) 0) by lia. cbn [bind].
  rewrite update_in_range by (rewrite !set_nth_length; lia).
  eexists. split; [reflexivity |]. split; [| split].
  - rewrite !set_nth_length. reflexivity.
  - unfold at_index. rewrite !set_nth_same by (rewrite ?set_nth_length; lia).
    reflexivity.
  - intros j Hj Hne. unfold at_index.
    rewrite !set_nth_other by lia. reflexivity.
Qed.

Lemma copy_row_spec (n : nat) (col src_w dst_row : Z) (row_buf : list Z)
    (px : list Pixel) :
  0 <= col -> col + Z.of_nat n = src_w ->
  src_w * 3 <= Z.of_nat (length row_buf) ->
  0 <= dst_row * src_w ->
  dst_row * src_w + src_w <= Z.of_nat (length px) ->
  exists px',
    copy_row n col src_w dst_row row_buf px = Ok px'
    /\ length px' = length px
    /\ (forall c, col <= c < src_w ->
          at_index px' (dst_row * src_w + c) = rgb_of_row row_buf c)
    /\ (forall j, 0 <= j ->
          j < dst_row * src_w + col \/ dst_row * src_w + src_w <= j ->
          at_index px' j = at_index px j).
Proof.
  revert col px. induction n as [| n IH]; intros col px Hc Hn Hrow Hd Hlen.
  - exists px. cbn [copy_row].
    split; [reflexivity | split; [reflexivity | split; intros; [lia | reflexivity]]].
  - rewrite Nat2Z.inj_succ in Hn. cbn [copy_row].
    destruct (copy_pixel col src_w dst_row row_buf px) as
      (p3 & E3 & L3 & V3 & F3); [lia | lia | lia |].
    unfold bind in E3 |- *.
    destruct (load row_buf (col * 3 + 2)) as [r |]; [| discriminate].
    destruct (update px (dst_row * src_w + col) (set_r r)) as [p1 |];
      [| discriminate].
    destruct (load row_buf (col * 3 + 1)) as [g |]; [| discriminate].
    destruct (update p1 (dst_row * src_w + col) (set_g g)) as [p2 |];
      [| discriminate].
    destruct (load row_buf (col * 3 + 0)) as [b |]; [| discriminate].
    rewrite E3.
    destruct (IH (col + 1) p3) as (px' & E & L & V & F); try lia.
    exists px'. split; [exact E |]. split; [congruence |]. split.
    + intros c Hcr. destruct (Z.eq_dec c col) as [-> | Hne].
      * rewrite F by lia. exact V3.
      * apply V. lia.
    + intros j Hj Hout. rewrite F by lia. apply F3; lia.
Qed.

Lemma read_rows_spec (n : nat) (row : Z) (top_down : bool)
    (src_w src_h row_stride : Z) (fp row_buf : list Z) (px : list Pixel) :
  0 <= row -> row + Z.of_nat n = src_h -> 0 <= src_w ->
  Z.of_nat (length row_buf) = row_stride -> src_w * 3 <= row_stride ->
  Z.of_nat (length px) = src_w * src_h ->
  exists px',
    read_rows n row top_down src_w src_h row_stride fp row_buf px = Ok px'
    /\ length px' = length px
    /\ (forall k c, row <= k < src_h -> 0 <= c < src_w ->
          at_index px' (dst_row_of top_down src_h k * src_w + c)
          = rgb_of_row
              (nth (Z.to_nat (k - row)) (rows_read n row_stride fp row_buf) [])
              c)
    /\ (forall k c, 0 <= k < row -> 0 <= c < src_w ->
          at_index px' (dst_row_of top_down src_h k * src_w + c)
          = at_index px (dst_row_of top_down src_h k * src_w + c)).
Proof.
  revert row fp row_buf px.
  induction n as [| n IH]; intros row fp row_buf px Hr Hn Hw Hs Hs3 Hlen.
  - exists px. cbn [read_rows].
    split; [reflexivity | split; [reflexivity | split; intros; [lia | reflexivity]]].
  - rewrite Nat2Z.inj_succ in Hn. cbn [read_rows rows_read].
    pose proof (fread_length row_buf fp row_stride Hs) as Lrb.
    destruct (fread row_buf row_stride fp) as [rb fp'] eqn:Ef.
    cbn [fst] in Lrb.
    fold (dst_row_of top_down src_h row).
    assert (Hd : 0 <= dst_row_of top_down src_h row < src_h)
      by (unfold dst_row_of; destruct top_down; lia).
    destruct (copy_row_spec (Z.to_nat src_w) 0 src_w
                (dst_row_of top_down src_h row) rb px)
      as (p1 & E1 & L1 & V1 & F1); try lia; try nia.
    rewrite E1. cbn [bind].
    destruct (IH (row + 1) fp' rb p1) as (px' & E & L & V & F);
      try lia.
    exists px'. split; [exact E |]. split; [congruence |]. split.
    + intros k c Hk Hc. destruct (Z.eq_dec k row) as [-> | Hne].
      * rewrite F by lia. rewrite Z.sub_diag. cbn [Z.to_nat nth].
        apply V1. lia.
      * rewrite V by lia.
        replace (Z.to_nat (k - row)) with (S (Z.to_nat (k - (row + 1))))
          by lia.
        reflexivity.
    + intros k c Hk Hc. rewrite F by lia.
      apply F1.
      * unfold dst_row_of; destruct top_down; nia.
      * assert (dst_row_of top_down src_h k <> dst_row_of top_down src_h row)
          by (unfold dst_row_of; destruct top_down; lia).
        assert (0 <= dst_row_of top_down src_h k)
          by (unfold dst_row_of; destruct top_down; lia).
        nia.
Qed.

(** The row stride: the row length rounded up to a multiple of four. *)
Lemma row_stride_bounds (a : Z) :
  0 <= a -> a <= Z.land (a + 3) (Z.lnot 3) <= a + 3.
Proof.
  intros Ha.
  replace (Z.land (a + 3) (Z.lnot 3)) with (Z.ldiff (a + 3) (Z.ones 2))
    by (rewrite Z.ldiff_land; reflexivity).
  rewrite Z.ldiff_ones_r by lia.
  rewrite Z.shiftr_div_pow2, Z.shiftl_mul_pow2 by lia.
  change (2 ^ 2) with 4.
  pose proof (Z.div_mod (a + 3) 4 ltac:(lia)).
  pose proof (Z.mod_pos_bound (a + 3) 4 ltac:(lia)). lia.
Qed.

Lemma rows_read_length (n : nat) (row_stride : Z) (fp row_buf : list Z) :
  length (rows_read n row_stride fp row_buf) = n.
Proof.
  revert fp row_buf. induction n as [| n IH]; intros fp row_buf;
    [reflexivity |].
  cbn [rows_read]. destruct (fread row_buf row_stride fp) as [rb fp'].
  cbn [length]. rewrite IH. reflexivity.
Qed.

Lemma last_as_nth (l : list (list Z)) :
  last l [] = nth (length l - 1) l [].
Proof.
  induction l as [| a l IH]; [reflexivity |].
  destruct l as [| b l]; [reflexivity |].
  change (last (a :: b :: l) []) with (last (b :: l) []).
  rewrite IH. cbn [length]. rewrite !Nat.sub_succ, !Nat.sub_0_r.
  reflexivity.
Qed.

(** When the file holds all the rows, the k-th row read is the k-th
    block of [row_stride] bytes of the pixel data. *)
Lemma rows_read_complete (n : nat) (row_stride : Z) (fp row_buf : list Z) :
  0 <= row_stride -> Z.of_nat (length row_buf) = row_stride ->
  Z.of_nat n * row_stride <= Z.of_nat (length fp) ->
  forall k, (k < n)%nat ->
    nth k (rows_read n row_stride fp row_buf) []
    = firstn (Z.to_nat row_stride) (skipn (k * Z.to_nat row_stride) fp).
Proof.
  revert fp row_buf. induction n as [| n IH];
    intros fp row_buf Hs Hlen Hfp k Hk; [lia |].
  cbn [rows_read]. unfold fread.
  assert (Hgot : length (firstn (Z.to_nat row_stride) fp)
                 = Z.to_nat row_stride)
    by (rewrite length_firstn; nia).
  rewrite Hgot.
  rewrite (skipn_all2 row_buf) by lia. rewrite app_nil_r.
  destruct k as [| k]; [reflexivity |].
  cbn [nth]. rewrite IH.
  - rewrite skipn_skipn. f_equal. f_equal. lia.
  - exact Hs.
  - rewrite length_firstn. nia.
  - rewrite length_skipn. nia.
  - lia.
Qed.

End Bitmap.

(** C3. For every accepted 24-bit bitmap (dimensions within the range
    of [int], both allocations successful) the rows read from the file
    are stored in file order when the height field is negative, so that
    buffer row 0 is the first row read, and in reverse order when it is
    positive, so that buffer row 0 is the last row read; each pixel's
    Blue, Green, Red bytes become the Red, Green, Blue fields. *)
Theorem read_bitmap_row_order (fh : BmpToHex.BMPFileHeader)
    (ih : BmpToHex.BMPInfoHeader) (file row_buf : list Z)
    (src_pixels : list Pixel) :
  accepted fh ih -> dims_in_range ih ->
  Z.of_nat (length row_buf) = row_stride_of ih ->
  Z.of_nat (length src_pixels)
  = Z.abs (BmpToHex.biWidth ih) * Z.abs (BmpToHex.biHeight ih) ->
  canonical_buffer fh ih file row_buf src_pixels.
Proof.
  intros (Ht & Hb & Hc) (R1 & R2 & R3) Lrow Lpix.
  unfold canonical_buffer, row_stride_of in *.
  set (w := Z.abs (BmpToHex.biWidth ih)) in *.
  set (h := Z.abs (BmpToHex.biHeight ih)) in *.
  assert (Hw : 0 <= w) by apply Z.abs_nonneg.
  assert (Hh : 0 <= h) by apply Z.abs_nonneg.
  pose proof (row_stride_bounds (w * 3) ltac:(lia)) as Hs.
  set (stride := Z.land (w * 3 + 3) (Z.lnot 3)) in *.
  set (fp := BmpToHex.fseek file (BmpToHex.bfOffBits fh)).
  destruct (read_rows_spec (Z.to_nat h) 0 (BmpToHex.biHeight ih <? 0)
              w h stride fp row_buf src_pixels)
    as (buf & E & L & V & _); try lia.
  assert (I : forall z, 0 <= z <= INT_MAX -> int_of z = Ok z).
  { intros z Hz. unfold int_of.
    destruct (INT_MIN <=? z) eqn:E1;
      [| apply Z.leb_gt in E1; unfold INT_MIN in E1; lia].
    destruct (z <=? INT_MAX) eqn:E2; [reflexivity |].
    apply Z.leb_gt in E2. lia. }
  assert (V' : forall k x, 0 <= k < h -> 0 <= x < w ->
      BmpToHex.pixel_at buf w x
        (if BmpToHex.biHeight ih <? 0 then k else h - 1 - k)
      = BmpToHex.rgb_of_row
          (nth (Z.to_nat k)
               (BmpToHex.rows_read (Z.to_nat h) stride fp row_buf) []) x).
  { intros k x Hk Hx. specialize (V k x ltac:(lia) Hx).
    rewrite Z.sub_0_r in V. exact V. }
  exists buf. split; [| split; [lia | split; [exact V' | split]]].
  - unfold BmpToHex.read_bitmap, BmpToHex.abs.
    rewrite Ht, Hb, Hc. cbn [Z.eqb Pos.eqb negb].
    fold w h. rewrite (I w), (I h) by (unfold INT_MAX in *; lia).
    cbn [bind]. rewrite (I (w * 3 + 3)) by lia. cbn [bind].
    rewrite (I (w * h)) by nia. cbn [bind].
    fold stride fp. rewrite E. reflexivity.
  - intros Hneg x Hx.
    assert (0 < h) by (unfold h; lia).
    specialize (V' 0 x ltac:(lia) Hx).
    destruct (BmpToHex.biHeight ih <? 0) eqn:En;
      [| apply Z.ltb_ge in En; lia].
    rewrite V'. cbn [Z.to_nat].
    destruct (BmpToHex.rows_read (Z.to_nat h) stride fp row_buf);
      reflexivity.
  - intros Hpos x Hx.
    assert (0 < h) by (unfold h; lia).
    specialize (V' (h - 1) x ltac:(lia) Hx).
    destruct (BmpToHex.biHeight ih <? 0) eqn:En;
      [apply Z.ltb_lt in En; lia |].
    replace (h - 1 - (h - 1)) with 0 in V' by lia.
    rewrite V', last_as_nth, rows_read_length.
    f_equal. f_equal. lia.
Qed.

Lemma read_bitmap_row_order_witness :
  canonical_buffer
    (BmpToHex.Build_BMPFileHeader 0x4D42 70 0 0 3)
    (BmpToHex.Build_BMPInfoHeader 40 2 2 1 24 0 0 0 0 0 0)
    [7; 7; 7; 1; 2; 3; 4; 5; 6; 99; 99; 11; 12; 13; 14; 15; 16; 98; 98]
    (repeat 0 8) (repeat (mkPixel 0 0 0) 4).
Proof.
  apply (read_bitmap_row_order
           (BmpToHex.Build_BMPFileHeader 0x4D42 70 0 0 3)
           (BmpToHex.Build_BMPInfoHeader 40 2 2 1 24 0 0 0 0 0 0)).
  - repeat split.
  - unfold dims_in_range, INT_MAX. cbn. lia.
  - reflexivity.
  - reflexivity.
Defined.

(** A 2 x 2 bitmap stored bottom-up and the same rows stored top-down. *)
Example read_bitmap_bottom_up :
  BmpToHex.read_bitmap
    (BmpToHex.Build_BMPFileHeader 0x4D42 70 0 0 3)
    (BmpToHex.Build_BMPInfoHeader 40 2 2 1 24 0 0 0 0 0 0)
    [7; 7; 7; 1; 2; 3; 4; 5; 6; 99; 99; 11; 12; 13; 14; 15; 16; 98; 98]
    (Some (repeat 0 8)) (Some (repeat (mkPixel 0 0 0) 4))
  = Ok (2, 2, [mkPixel 13 12 11; mkPixel 16 15 14;
               mkPixel 3 2 1; mkPixel 6 5 4]).
Proof. reflexivity. Qed.

Example read_bitmap_top_down :
  BmpToHex.read_bitmap
    (BmpToHex.Build_BMPFileHeader 0x4D42 70 0 0 3)
    (BmpToHex.Build_BMPInfoHeader 40 2 (-2) 1 24 0 0 0 0 0 0)
    [7; 7; 7; 1; 2; 3; 4; 5; 6; 99; 99; 11; 12; 13; 14; 15; 16; 98; 98]
    (Some (repeat 0 8)) (Some (repeat (mkPixel 0 0 0) 4))
  = Ok (2, 2, [mkPixel 3 2 1; mkPixel 6 5 4;
               mkPixel 13 12 11; mkPixel 16 15 14]).
Proof. reflexivity. Qed.

(** ** The resize step *)

(** C4. When the source buffer already has the target resolution
    320x240 the resize step is the identity: [out_pixels] is the source
    buffer itself, whatever its contents and whatever [malloc] would
    have returned, so no resize failure can arise. *)
Theorem resize_step_identity (dst_mem : option (list Pixel))
    (src_pixels : list Pixel) (src_w src_h : Z) :
  src_w = 320 -> src_h = 240 ->
  BmpToHex.resize_step dst_mem src_pixels src_w src_h = Ok src_pixels.
Proof. intros -> ->. reflexivity. Qed.

Lemma resize_step_identity_witness :
  BmpToHex.resize_step None [mkPixel 1 2 3] 320 240 = Ok [mkPixel 1 2 3].
Proof.
  apply (resize_step_identity None [mkPixel 1 2 3] 320 240); reflexivity.
Defined.

(** At any other size the step goes through [resize_bilinear] and can
    fail. *)
Example resize_step_can_fail :
  BmpToHex.resize_step None [mkPixel 1 2 3] 1 1 = Fail ResizeFailed.
Proof. reflexivity. Qed.

(** ** Rounding in binary32 *)

Section Digits.

Lemma digits2_pos_size (p : positive) : digits2_pos p = Pos.size p.
Proof. induction p; cbn; congruence. Qed.

Lemma digits2_pos_log2 (p : positive) :
  Zpos (digits2_pos p) = Z.log2 (Zpos p) + 1.
Proof.
  rewrite digits2_pos_size.
  destruct p; cbn [Pos.size Z.log2]; lia.
Qed.

(** [2^(d-1) <= m < 2^d] for the number of digits [d] of [m]. *)
Lemma digits2_bounds (p : positive) :
  2 ^ (Zpos (digits2_pos p) - 1) <= Zpos p < 2 ^ Zpos (digits2_pos p).
Proof.
  rewrite digits2_pos_log2.
  pose proof (Z.log2_spec (Zpos p) ltac:(lia)) as H.
  replace (Z.log2 (Zpos p) + 1 - 1) with (Z.log2 (Zpos p)) by lia.
  replace (Z.log2 (Zpos p) + 1) with (Z.succ (Z.log2 (Zpos p))) by lia.
  exact H.
Qed.

Lemma digits2_unique (p : positive) (d : Z) :
  0 < d -> 2 ^ (d - 1) <= Zpos p < 2 ^ d -> Zpos (digits2_pos p) = d.
Proof.
  intros Hd H. rewrite digits2_pos_log2.
  rewrite (Z.log2_unique (Zpos p) (d - 1)); [lia | lia |].
  replace (Z.succ (d - 1)) with d by lia. exact H.
Qed.

(** *** Shifting right *)

Lemma shr_1_m (mrs : shr_record) :
  0 <= shr_m mrs -> shr_m (shr_1 mrs) = shr_m mrs / 2.
Proof.
  destruct mrs as [m r s]. cbn [shr_m]. intros Hm.
  destruct m as [| [p | p |] | p]; cbn [shr_1 shr_m]; try lia.
  - reflexivity.
  - apply Z.div_unique with 1; lia.
  - apply Z.div_unique with 0; lia.
  - reflexivity.
Qed.

Lemma shr_1_nonneg (mrs : shr_record) :
  0 <= shr_m mrs -> 0 <= shr_m (shr_1 mrs).
Proof.
  intros H. rewrite shr_1_m by assumption. apply Z.div_pos; lia.
Qed.

Lemma iter_pos_shr_m (p : positive) (mrs : shr_record) :
  0 <= shr_m mrs ->
  shr_m (SpecFloat.iter_pos shr_1 p mrs) = shr_m mrs / 2 ^ Zpos p
  /\ 0 <= shr_m (SpecFloat.iter_pos shr_1 p mrs).
Proof.
  revert mrs. induction p as [p IH | p IH |]; intros mrs Hm;
    cbn [SpecFloat.iter_pos].
  - pose proof (shr_1_nonneg mrs Hm) as H1.
    destruct (IH (shr_1 mrs) H1) as [E2 H2].
    destruct (IH _ H2) as [E3 H3].
    split; [| exact H3].
    rewrite E3, E2, shr_1_m by assumption.
    rewrite !Z.div_div by (try apply Z.pow_pos_nonneg; lia).
    f_equal. rewrite <- Z.pow_add_r by lia.
    rewrite <- (Z.pow_1_r 2) at 1. rewrite <- Z.pow_add_r by lia.
    f_equal. lia.
  - destruct (IH mrs Hm) as [E2 H2].
    destruct (IH _ H2) as [E3 H3].
    split; [| exact H3].
    rewrite E3, E2.
    rewrite !Z.div_div by (try apply Z.pow_pos_nonneg; lia).
    f_equal. rewrite <- Z.pow_add_r by lia. f_equal. lia.
  - split; [| apply shr_1_nonneg; assumption].
    rewrite shr_1_m by assumption. reflexivity.
Qed.

(** [shr] by [n >= 0] places divides the mantissa by [2^n]. *)
Lemma shr_m_div (mrs : shr_record) (e n : Z) :
  0 <= shr_m mrs -> 0 <= n ->
  shr_m (fst (shr mrs e n)) = shr_m mrs / 2 ^ n
  /\ snd (shr mrs e n) = e + n.
Proof.
  intros Hm Hn. destruct n as [| p | p]; cbn [shr fst snd]; try lia.
  - rewrite Z.div_1_r. split; [reflexivity | lia].
  - split; [apply iter_pos_shr_m; assumption | reflexivity].
Qed.

Lemma shr_m_of_loc (m : Z) (l : location) :
  shr_m (shr_record_of_loc m l) = m.
Proof. destruct l as [| []]; reflexivity. Qed.

Lemma round_nearest_even_bounds (m : Z) (l : location) :
  m <= round_nearest_even m l <= m + 1.
Proof.
  destruct l as [| []]; cbn [round_nearest_even]; try lia.
  destruct (Z.even m); lia.
Qed.

End Digits.

Section Round.

Lemma fexp_normal (e : Z) : -125 <= e -> fexp 24 128 e = e - 24.
Proof. intros H. unfold fexp, emin. lia. Qed.

(** Rounding a positive mantissa of at least 24 digits, away from the
    subnormal range and from overflow: the result is a normalised finite
    number, at most one ulp above the truncated mantissa, hence within a
    factor [1 + 2^-23] of the value rounded. *)
Lemma binary_round_aux_ub (mx : positive) (ex : Z) (lx : location) :
  24 <= Zpos (digits2_pos mx) ->
  -125 <= Zpos (digits2_pos mx) + ex ->
  Zpos (digits2_pos mx) + ex <= 127 ->
  exists (m : positive) (k : Z),
    binary_round_aux 24 128 false (Zpos mx) ex lx
    = S754_finite false m (ex + k)
    /\ Zpos (digits2_pos m) = 24
    /\ Zpos (digits2_pos mx) - 24 <= k <= Zpos (digits2_pos mx) - 23
    /\ Zpos m * 2 ^ k * 2 ^ 23 <= Zpos mx * (2 ^ 23 + 1).
Proof.
  set (d := Zpos (digits2_pos mx)). intros Hd Hlo Hhi.
  pose proof (digits2_bounds mx) as Bmx. fold d in Bmx.
  unfold binary_round_aux, shr_fexp.
  change (Zdigits2 (Zpos mx)) with d.
  rewrite (fexp_normal (d + ex)) by lia.
  replace (d + ex - 24 - ex) with (d - 24) by lia.
  set (n := d - 24) in *.
  destruct (shr_m_div (shr_record_of_loc (Zpos mx) lx) ex n) as [E1m E1e];
    [rewrite shr_m_of_loc; lia | lia |].
  destruct (shr (shr_record_of_loc (Zpos mx) lx) ex n) as [mrs1 e1].
  cbn [fst snd] in E1m, E1e. rewrite shr_m_of_loc in E1m. subst e1.
  set (m1 := shr_m mrs1) in *.
  assert (P2n : 0 < 2 ^ n) by (apply Z.pow_pos_nonneg; lia).
  assert (Hsplit : 2 ^ (d - 1) = 2 ^ n * 2 ^ 23)
    by (rewrite <- Z.pow_add_r by lia; f_equal; lia).
  assert (Hsplit' : 2 ^ d = 2 ^ n * 2 ^ 24)
    by (rewrite <- Z.pow_add_r by lia; f_equal; lia).
  assert (B1 : 2 ^ 23 <= m1 < 2 ^ 24).
  { rewrite E1m. split.
    - apply Z.div_le_lower_bound; lia.
    - apply Z.div_lt_upper_bound; lia. }
  assert (F1 : m1 * 2 ^ n <= Zpos mx).
  { rewrite E1m. pose proof (Z.mul_div_le (Zpos mx) (2 ^ n) P2n). lia. }
  pose proof (round_nearest_even_bounds m1 (loc_of_shr_record mrs1)) as Br.
  set (mr := round_nearest_even m1 (loc_of_shr_record mrs1)) in *.
  change (2 ^ 23) with 8388608 in *. change (2 ^ 24) with 16777216 in *.
  destruct mr as [| pr | pr] eqn:Emr; try lia.
  change (Zdigits2 (Zpos pr)) with (Zpos (digits2_pos pr)).
  pose proof (digits2_bounds pr) as Bpr.
  set (dr := Zpos (digits2_pos pr)) in *.
  assert (Hdr : dr = 24 \/ dr = 25).
  { destruct (Z.lt_ge_cases dr 24) as [Hlt | Hge].
    - assert (2 ^ dr <= 2 ^ 23) by (apply Z.pow_le_mono_r; lia).
      change (2 ^ 23) with 8388608 in *. lia.
    - destruct (Z.lt_ge_cases 25 dr) as [Hgt | Hle]; [| lia].
      assert (2 ^ 25 <= 2 ^ (dr - 1)) by (apply Z.pow_le_mono_r; lia).
      change (2 ^ 25) with 33554432 in *. lia. }
  rewrite (fexp_normal (dr + (ex + n))) by (unfold n; lia).
  replace (dr + (ex + n) - 24 - (ex + n)) with (dr - 24) by lia.
  destruct (shr_m_div (shr_record_of_loc (Zpos pr) loc_Exact) (ex + n)
              (dr - 24)) as [E2m E2e]; [cbn; lia | lia |].
  destruct (shr (shr_record_of_loc (Zpos pr) loc_Exact) (ex + n) (dr - 24))
    as [mrs2 e2].
  cbn [fst snd] in E2m, E2e. rewrite shr_m_of_loc in E2m. subst e2.
  destruct Hdr as [Hdr | Hdr]; rewrite Hdr in *.
  - change (24 - 24) with 0 in *. change (2 ^ 0) with 1 in E2m.
    rewrite Z.div_1_r in E2m. rewrite E2m.
    assert (Hle : (ex + n + 0 <=? 128 - 24) = true)
      by (apply Z.leb_le; unfold n; lia).
    rewrite Hle. exists pr, n. rewrite Z.add_0_r.
    split; [reflexivity |]. split; [exact Hdr |]. split; [unfold n; lia |].
    nia.
  - change (25 - 24) with 1 in *. change (2 ^ 1) with 2 in E2m.
    change (2 ^ (25 - 1)) with 16777216 in Bpr.
    assert (Epr : Zpos pr = 16777216) by lia.
    rewrite Epr in E2m. change (16777216 / 2) with 8388608 in E2m.
    rewrite E2m.
    assert (Hle : (ex + n + 1 <=? 128 - 24) = true)
      by (apply Z.leb_le; unfold n; lia).
    rewrite Hle. exists 8388608%positive, (n + 1).
    rewrite Z.add_assoc.
    split; [reflexivity |]. split; [reflexivity |].
    split; [unfold n; lia |].
    rewrite Z.pow_add_r by lia. change (2 ^ 1) with 2. nia.
Qed.

End Round.

Section Values.

Local Open Scope R_scope.

Lemma bpow_pos (e : Z) : 0 < bpow e.
Proof. apply powerRZ_lt. lra. Qed.

Lemma bpow_add (a b : Z) : bpow (a + b) = bpow a * bpow b.
Proof. apply powerRZ_add. lra. Qed.

Lemma bpow_IZR (k : Z) : (0 <= k)%Z -> bpow k = IZR (2 ^ k).
Proof.
  intros H. unfold bpow.
  rewrite <- (Z2Nat.id k H), <- pow_powerRZ, pow_IZR. reflexivity.
Qed.

(** The integer inequality of [binary_round_aux_ub] read in the reals. *)
Lemma ub_transfer (m mx : positive) (ex k : Z) :
  (0 <= k)%Z ->
  (Zpos m * 2 ^ k * 2 ^ 23 <= Zpos mx * (2 ^ 23 + 1))%Z ->
  IZR (Zpos m) * bpow (ex + k) <= IZR (Zpos mx) * bpow ex * (1 + ulp1).
Proof.
  intros Hk H. apply IZR_le in H.
  rewrite !mult_IZR, plus_IZR in H.
  rewrite bpow_add, (bpow_IZR k Hk).
  change (IZR (2 ^ 23)) with 8388608 in H. change (IZR 1) with 1 in H.
  pose proof (bpow_pos ex) as Pe.
  unfold ulp1.
  assert (IZR (Zpos m) * IZR (2 ^ k) <= IZR (Zpos mx) * (1 + / 8388608))
    by lra.
  replace (IZR (Zpos m) * (bpow ex * IZR (2 ^ k)))
    with (IZR (Zpos m) * IZR (2 ^ k) * bpow ex) by ring.
  replace (IZR (Zpos mx) * bpow ex * (1 + / 8388608))
    with (IZR (Zpos mx) * (1 + / 8388608) * bpow ex) by ring.
  apply Rmult_le_compat_r; lra.
Qed.

End Values.

Section Ops.

Lemma pos_iter_xO (p d : positive) :
  Zpos (Pos.iter xO p d) = Zpos p * 2 ^ Zpos d.
Proof.
  revert p. induction d as [| d IH] using Pos.peano_ind; intros p.
  - cbn [Pos.iter]. lia.
  - rewrite Pos.iter_succ, Pos2Z.inj_xO, IH, Pos2Z.inj_succ,
      Z.pow_succ_r by lia. lia.
Qed.

(** The conversion of a positive [int]. *)
Lemma of_int_ub (z : Z) :
  1 <= z < 2 ^ 31 ->
  normal (Float32.of_int z) (-23) 8
  /\ (F2R (Float32.of_int z) <= IZR z * (1 + ulp1))%R.
Proof.
  intros Hz. destruct z as [| p | p]; try lia.
  unfold Float32.of_int, binary_normalize, binary_round,
    Float32.prec, Float32.emax.
  pose proof (digits2_bounds p) as Bp.
  set (d := Zpos (digits2_pos p)) in *.
  assert (Hd : 1 <= d <= 31).
  { split; [unfold d; lia |].
    destruct (Z.lt_ge_cases 31 d) as [Hgt | Hle]; [| lia].
    assert (2 ^ 31 <= 2 ^ (d - 1)) by (apply Z.pow_le_mono_r; lia). lia. }
  replace (d + 0) with d by lia.
  rewrite (fexp_normal d) by lia.
  unfold shl_align. rewrite Z.sub_0_r.
  destruct (d - 24) as [| q | q] eqn:Eq.
  - (* exactly 24 digits *)
    destruct (binary_round_aux_ub p 0 loc_Exact)
      as (m & k & E & Dm & Hk & Hub); fold d; try lia.
    fold d in Hk. rewrite E. split.
    + exists m, (0 + k). repeat split; try assumption; lia.
    + cbn [F2R]. pose proof (ub_transfer m p 0 k ltac:(lia) Hub) as H.
      unfold bpow at 2 in H. cbn [powerRZ] in H. lra.
  - (* more than 24 digits *)
    destruct (binary_round_aux_ub p 0 loc_Exact)
      as (m & k & E & Dm & Hk & Hub); fold d; try lia.
    fold d in Hk. rewrite E. split.
    + exists m, (0 + k). repeat split; try assumption; lia.
    + cbn [F2R]. pose proof (ub_transfer m p 0 k ltac:(lia) Hub) as H.
      unfold bpow at 2 in H. cbn [powerRZ] in H. lra.
  - (* fewer than 24 digits: the mantissa is shifted left first *)
    assert (Hq : Zpos q = 24 - d) by lia.
    pose proof (pos_iter_xO p q) as Ez.
    set (mz := Pos.iter xO p q) in *.
    assert (Dz : Zpos (digits2_pos mz) = 24).
    { apply digits2_unique; [lia |]. rewrite Ez, Hq.
      assert (P : 0 < 2 ^ (24 - d)) by (apply Z.pow_pos_nonneg; lia).
      assert (2 ^ (24 - 1) = 2 ^ (d - 1) * 2 ^ (24 - d))
        by (rewrite <- Z.pow_add_r by lia; f_equal; lia).
      assert (2 ^ 24 = 2 ^ d * 2 ^ (24 - d))
        by (rewrite <- Z.pow_add_r by lia; f_equal; lia).
      nia. }
    destruct (binary_round_aux_ub mz (Zneg q) loc_Exact)
      as (m & k & E & Dm & Hk & Hub); rewrite ?Dz; try lia.
    rewrite Dz in Hk. rewrite E. split.
    + exists m, (Zneg q + k). repeat split; try assumption; lia.
    + cbn [F2R].
      pose proof (ub_transfer m mz (Zneg q) k ltac:(lia) Hub) as H.
      replace (IZR (Zpos mz) * bpow (Zneg q))%R with (IZR (Zpos p)) in H;
        [exact H |].
      rewrite Ez, mult_IZR, <- bpow_IZR by lia.
      rewrite Rmult_assoc, <- bpow_add.
      replace (Zpos q + Zneg q) with 0 by lia.
      unfold bpow. cbn [powerRZ]. ring.
Qed.

Lemma digits2_between (p : positive) (lo hi : Z) :
  0 <= lo -> 2 ^ lo <= Zpos p < 2 ^ hi ->
  lo < Zpos (digits2_pos p) <= hi.
Proof.
  intros Hlo [H1 H2]. pose proof (digits2_bounds p) as B.
  set (d := Zpos (digits2_pos p)) in *.
  assert (Hd : 0 < d) by (unfold d; lia).
  split.
  - destruct (Z.lt_ge_cases lo d) as [H | H]; [exact H |].
    assert (2 ^ d <= 2 ^ lo) by (apply Z.pow_le_mono_r; lia). lia.
  - destruct (Z.lt_ge_cases hi d) as [H | H]; [| exact H].
    assert (2 ^ hi <= 2 ^ (d - 1)) by (apply Z.pow_le_mono_r; lia). lia.
Qed.

Lemma binary_round_aux_exact (mx : positive) (ex : Z) :
  Zpos (digits2_pos mx) = 24 -> -149 <= ex <= 104 ->
  binary_round_aux 24 128 false (Zpos mx) ex loc_Exact
  = S754_finite false mx ex.
Proof.
  intros Hd He. unfold binary_round_aux, shr_fexp.
  change (Zdigits2 (Zpos mx)) with (Zpos (digits2_pos mx)).
  rewrite Hd, (fexp_normal (24 + ex)) by lia.
  replace (24 + ex - 24 - ex) with 0 by lia.
  cbn [shr shr_record_of_loc shr_m loc_of_shr_record round_nearest_even].
  change (Zdigits2 (Zpos mx)) with (Zpos (digits2_pos mx)).
  rewrite Hd, (fexp_normal (24 + ex)) by lia.
  replace (24 + ex - 24 - ex) with 0 by lia.
  cbn [shr shr_record_of_loc shr_m].
  destruct (ex <=? 128 - 24) eqn:E; [reflexivity |].
  apply Z.leb_gt in E. lia.
Qed.

(** Integers below [2^24] are converted exactly. *)
Lemma of_int_exact (z : Z) :
  1 <= z < 2 ^ 24 ->
  normal (Float32.of_int z) (-23) 0
  /\ F2R (Float32.of_int z) = IZR z.
Proof.
  intros Hz. destruct z as [| p | p]; try lia.
  unfold Float32.of_int, binary_normalize, binary_round,
    Float32.prec, Float32.emax.
  pose proof (digits2_between p 0 24 ltac:(lia) ltac:(lia)) as Hd.
  set (d := Zpos (digits2_pos p)) in *.
  replace (d + 0) with d by lia.
  rewrite (fexp_normal d) by lia.
  unfold shl_align. rewrite Z.sub_0_r.
  destruct (d - 24) as [| q | q] eqn:Eq; try lia.
  - rewrite binary_round_aux_exact by (fold d; lia). split.
    + exists p, 0. split; [reflexivity |]. fold d. lia.
    + cbn [F2R]. unfold bpow. cbn [powerRZ]. ring.
  - assert (Hq : Zpos q = 24 - d) by lia.
    pose proof (pos_iter_xO p q) as Ez.
    set (mz := Pos.iter xO p q) in *.
    pose proof (digits2_bounds p) as Bp. fold d in Bp.
    assert (Dz : Zpos (digits2_pos mz) = 24).
    { apply digits2_unique; [lia |]. rewrite Ez, Hq.
      assert (P : 0 < 2 ^ (24 - d)) by (apply Z.pow_pos_nonneg; lia).
      assert (2 ^ (24 - 1) = 2 ^ (d - 1) * 2 ^ (24 - d))
        by (rewrite <- Z.pow_add_r by lia; f_equal; lia).
      assert (2 ^ 24 = 2 ^ d * 2 ^ (24 - d))
        by (rewrite <- Z.pow_add_r by lia; f_equal; lia).
      nia. }
    rewrite binary_round_aux_exact by (rewrite ?Dz; lia). split.
    + exists mz, (Zneg q). split; [reflexivity |]. lia.
    + cbn [F2R]. rewrite Ez, mult_IZR, <- bpow_IZR by lia.
      rewrite Rmult_assoc, <- bpow_add.
      replace (Zpos q + Zneg q) with 0 by lia.
      unfold bpow. cbn [powerRZ]. ring.
Qed.

Lemma F2R_pos (m : positive) (e : Z) : (0 < F2R (S754_finite false m e))%R.
Proof.
  cbn [F2R]. apply Rmult_lt_0_compat; [| apply bpow_pos].
  apply IZR_lt. lia.
Qed.

(** The product of two positive normalised numbers. *)
Lemma mul_ub (ma mb : positive) (ea eb : Z) :
  Zpos (digits2_pos ma) = 24 -> Zpos (digits2_pos mb) = 24 ->
  -150 <= ea + eb <= 70 ->
  normal (Float32.mul (S754_finite false ma ea) (S754_finite false mb eb))
    (ea + eb + 23) (ea + eb + 25)
  /\ (F2R (Float32.mul (S754_finite false ma ea) (S754_finite false mb eb))
      <= F2R (S754_finite false ma ea) * F2R (S754_finite false mb eb)
         * (1 + ulp1))%R.
Proof.
  intros Da Db He.
  unfold Float32.mul, SFmul, Float32.prec, Float32.emax. cbn [xorb].
  pose proof (digits2_bounds ma) as Ba. rewrite Da in Ba.
  pose proof (digits2_bounds mb) as Bb. rewrite Db in Bb.
  change (2 ^ (24 - 1)) with 8388608 in *. change (2 ^ 24) with 16777216 in *.
  pose proof (digits2_between (ma * mb) 46 48 ltac:(lia)) as Dp.
  rewrite Pos2Z.inj_mul in Dp.
  change (2 ^ 46) with (8388608 * 8388608) in Dp.
  change (2 ^ 48) with (16777216 * 16777216) in Dp.
  specialize (Dp ltac:(nia)).
  destruct (binary_round_aux_ub (ma * mb) (ea + eb) loc_Exact)
    as (m & k & E & Dm & Hk & Hub); try lia.
  rewrite E. split.
  - exists m, (ea + eb + k). repeat split; try assumption; lia.
  - pose proof (ub_transfer m (ma * mb) (ea + eb) k ltac:(lia) Hub) as H.
    cbn [F2R]. rewrite Pos2Z.inj_mul, mult_IZR in H.
    rewrite !bpow_add in H. rewrite !bpow_add.
    replace (IZR (Z.pos ma) * bpow ea * (IZR (Z.pos mb) * bpow eb)
             * (1 + ulp1))%R
      with (IZR (Z.pos ma) * IZR (Z.pos mb) * (bpow ea * bpow eb)
            * (1 + ulp1))%R by ring.
    exact H.
Qed.

(** The quotient of two positive normalised numbers. *)
Lemma div_ub (ma mb : positive) (ea eb : Z) :
  Zpos (digits2_pos ma) = 24 -> Zpos (digits2_pos mb) = 24 ->
  -100 <= ea - eb <= 100 ->
  normal (Float32.div (S754_finite false ma ea) (S754_finite false mb eb))
    (ea - eb - 24) (ea - eb - 22)
  /\ (F2R (Float32.div (S754_finite false ma ea) (S754_finite false mb eb))
      <= F2R (S754_finite false ma ea) / F2R (S754_finite false mb eb)
         * (1 + ulp1))%R.
Proof.
  intros Da Db He.
  unfold Float32.div, SFdiv, SFdiv_core_binary, Float32.prec, Float32.emax.
  cbn [xorb].
  change (Zdigits2 (Zpos ma)) with (Zpos (digits2_pos ma)).
  change (Zdigits2 (Zpos mb)) with (Zpos (digits2_pos mb)).
  rewrite Da, Db.
  replace (24 + ea - (24 + eb)) with (ea - eb) by lia.
  rewrite (fexp_normal (ea - eb)) by lia.
  rewrite (Z.min_l (ea - eb - 24)) by lia.
  replace (ea - eb - (ea - eb - 24)) with 24 by lia.
  pose proof (digits2_bounds ma) as Ba. rewrite Da in Ba.
  pose proof (digits2_bounds mb) as Bb. rewrite Db in Bb.
  change (2 ^ (24 - 1)) with 8388608 in *. change (2 ^ 24) with 16777216 in *.
  rewrite Z.shiftl_mul_pow2 by lia. change (2 ^ 24) with 16777216.
  set (m' := Zpos ma * 16777216).
  assert (Eqr : Z.div_eucl m' (Zpos mb) = (m' / Zpos mb, m' mod Zpos mb)).
  { unfold Z.div, Z.modulo. destruct (Z.div_eucl m' (Zpos mb)); reflexivity. }
  rewrite Eqr.
  set (q := m' / Zpos mb).
  assert (Bq : 8388608 <= q < 33554432).
  { unfold q, m'. split.
    - apply Z.div_le_lower_bound; lia.
    - apply Z.div_lt_upper_bound; lia. }
  assert (Fq : q * Zpos mb <= m').
  { unfold q. pose proof (Z.mul_div_le m' (Zpos mb) ltac:(lia)). lia. }
  destruct q as [| pq | pq] eqn:Epq; try lia.
  pose proof (digits2_between pq 23 25 ltac:(lia)) as Dq.
  change (2 ^ 23) with 8388608 in Dq. change (2 ^ 25) with 33554432 in Dq.
  specialize (Dq Bq).
  destruct (binary_round_aux_ub pq (ea - eb - 24)
              (new_location (Zpos mb) (m' mod Zpos mb)))
    as (m & k & E & Dm & Hk & Hub); try lia.
  rewrite E. split.
  - exists m, (ea - eb - 24 + k). repeat split; try assumption; lia.
  - pose proof (ub_transfer m pq (ea - eb - 24) k ltac:(lia) Hub) as H.
    cbn [F2R].
    pose proof (bpow_pos ea) as Pa. pose proof (bpow_pos eb) as Pb.
    assert (Pmb : (0 < IZR (Zpos mb))%R) by (apply IZR_lt; lia).
    assert (Hq : (IZR (Zpos pq) * bpow (ea - eb - 24)
                  <= IZR (Zpos ma) * bpow ea / (IZR (Zpos mb) * bpow eb))%R).
    { apply IZR_le in Fq. unfold m' in Fq. rewrite !mult_IZR in Fq.
      replace ea with ((ea - eb - 24) + (eb + 24)) at 2 by lia.
      rewrite !bpow_add. rewrite (bpow_IZR 24) by lia.
      change (IZR (2 ^ 24)) with 16777216%R.
      pose proof (bpow_pos (ea - eb - 24)) as Pc.
      assert (Pd : (0 < IZR (Zpos mb) * bpow eb)%R)
        by (apply Rmult_lt_0_compat; assumption).
      apply (Rmult_le_reg_r (IZR (Zpos mb) * bpow eb)); [exact Pd |].
      replace (IZR (Z.pos ma)
               * (bpow (ea - eb - 24) * (bpow eb * 16777216))
               / (IZR (Z.pos mb) * bpow eb) * (IZR (Z.pos mb) * bpow eb))%R
        with (IZR (Z.pos ma) * 16777216
              * (bpow (ea - eb - 24) * bpow eb))%R
        by (field; split; apply Rgt_not_eq; assumption).
      replace (IZR (Z.pos pq) * bpow (ea - eb - 24)
               * (IZR (Z.pos mb) * bpow eb))%R
        with (IZR (Z.pos pq) * IZR (Z.pos mb)
              * (bpow (ea - eb - 24) * bpow eb))%R by ring.
      apply Rmult_le_compat_r; [| exact Fq].
      apply Rlt_le, Rmult_lt_0_compat; assumption. }
    eapply Rle_trans; [exact H |].
    apply Rmult_le_compat_r; [unfold ulp1; lra | exact Hq].
Qed.

(** Truncation never exceeds the value. *)
Lemma trunc_le (m : positive) (e : Z) :
  exists a, Float32.trunc (S754_finite false m e) = Some a
            /\ 0 <= a /\ (IZR a <= F2R (S754_finite false m e))%R.
Proof.
  cbn [Float32.trunc F2R].
  destruct (0 <=? e) eqn:Ee.
  - apply Z.leb_le in Ee. eexists. split; [reflexivity |]. split.
    + apply Z.mul_nonneg_nonneg; [lia | apply Z.pow_nonneg; lia].
    + rewrite mult_IZR, <- bpow_IZR by assumption. lra.
  - apply Z.leb_gt in Ee. eexists. split; [reflexivity |].
    assert (P : 0 < 2 ^ (- e)) by (apply Z.pow_pos_nonneg; lia).
    split; [apply Z.div_pos; lia |].
    pose proof (Z.mul_div_le (Zpos m) (2 ^ (- e)) P) as H.
    apply IZR_le in H. rewrite mult_IZR, <- bpow_IZR in H by lia.
    pose proof (bpow_pos e) as Pe. pose proof (bpow_pos (- e)) as Pn.
    assert (Hinv : (bpow (- e) * bpow e = 1)%R).
    { rewrite <- bpow_add. replace (- e + e) with 0 by lia.
      unfold bpow. reflexivity. }
    apply (Rmult_le_reg_r (bpow (- e))); [exact Pn |].
    rewrite Rmult_assoc, (Rmult_comm (bpow e)), Hinv, Rmult_1_r.
    lra.
Qed.

Lemma slack_cubed : ((1 + ulp1) * (1 + ulp1) * (1 + ulp1) <= 1 + 4 * ulp1)%R.
Proof. unfold ulp1. lra. Qed.

(** One axis of the coordinate computation: for a destination of at
    most [2^21] pixels the truncated source coordinate is a valid index. *)
Lemma axis_in_range (W D x : Z) :
  1 <= W <= INT_MAX -> 1 <= D <= 2 ^ 21 -> 0 <= x < D ->
  exists x0,
    Float32.to_int (Float32.mul (Float32.of_int x) (BmpToHex.x_scale_of W D)) = Ok x0
    /\ 0 <= x0 < W.
Proof.
  intros HW HD Hx. unfold INT_MAX in HW.
  change (2 ^ 31 - 1) with 2147483647 in HW.
  change (2 ^ 21) with 2097152 in HD.
  destruct (of_int_ub W) as [(mW & eW & EW & DW & HeW) UW];
    [change (2 ^ 31) with 2147483648; lia |].
  destruct (of_int_exact D) as [(mD & eD & ED & DD & HeD) UD];
    [change (2 ^ 24) with 16777216; lia |].
  unfold BmpToHex.x_scale_of. rewrite EW, ED in *.
  destruct (div_ub mW mD eW eD DW DD ltac:(lia))
    as [(mS & eS & ES & DS & HeS) US].
  rewrite ES in *.
  destruct (Z.eq_dec x 0) as [-> | Hx0].
  { exists 0. split; [reflexivity | lia]. }
  destruct (of_int_exact x) as [(mX & eX & EX & DX & HeX) UX];
    [change (2 ^ 24) with 16777216; lia |].
  rewrite EX in *.
  destruct (mul_ub mX mS eX eS DX DS ltac:(lia))
    as [(mT & eT & ET & DT & HeT) UT].
  rewrite ET in *.
  destruct (trunc_le mT eT) as (a & Ea & Ha0 & Ha).
  assert (Hlt : (F2R (S754_finite false mT eT) < IZR W)%R).
  { pose proof (F2R_pos mW eW) as PW. pose proof (F2R_pos mD eD) as PD.
    pose proof (F2R_pos mS eS) as PS. pose proof (F2R_pos mX eX) as PX.
    set (fw := F2R (S754_finite false mW eW)) in *.
    set (fd := F2R (S754_finite false mD eD)) in *.
    set (fs := F2R (S754_finite false mS eS)) in *.
    set (fx := F2R (S754_finite false mX eX)) in *.
    set (ft := F2R (S754_finite false mT eT)) in *.
    assert (Pw : (1 <= IZR W)%R) by (apply IZR_le; lia).
    assert (Bx : (IZR x <= IZR D - 1)%R)
      by (rewrite <- minus_IZR; apply IZR_le; lia).
    assert (Bd : (IZR D <= 2097152)%R) by (apply IZR_le; lia).
    pose proof slack_cubed as K.
    set (c := (1 + ulp1)%R) in *.
    assert (Pc : (1 < c)%R) by (unfold c, ulp1; lra).
    assert (Pu : (ulp1 = / 8388608)%R) by reflexivity.
    set (id := (/ fd)%R).
    assert (Pid : (0 < id)%R) by (apply Rinv_0_lt_compat; exact PD).
    assert (Eid : (fd * id = 1)%R)
      by (unfold id; apply Rinv_r, Rgt_not_eq; exact PD).
    assert (S1 : (fs <= IZR W * c * id * c)%R).
    { eapply Rle_trans; [exact US |]. unfold Rdiv. fold id.
      apply Rmult_le_compat_r; [lra |].
      apply Rmult_le_compat_r; [lra | exact UW]. }
    assert (T1 : (ft <= fx * (IZR W * c * id * c) * c)%R).
    { eapply Rle_trans; [exact UT |].
      apply Rmult_le_compat_r; [lra |].
      apply Rmult_le_compat_l; [lra | exact S1]. }
    rewrite UX in T1. rewrite UD in Eid.
    assert (T2 : (IZR x * (IZR W * c * id * c) * c
                  = IZR W * id * (IZR x * (c * c * c)))%R) by ring.
    rewrite T2 in T1.
    assert (T3 : (IZR x * (c * c * c) < IZR D)%R).
    { assert (0 < IZR x)%R by (apply IZR_lt; lia).
      rewrite Pu in K.
      assert (IZR x * (c * c * c) <= IZR x * (1 + 4 * / 8388608))%R
        by (apply Rmult_le_compat_l; lra).
      lra. }
    assert (T4 : (IZR W * id * (IZR x * (c * c * c))
                  < IZR W * id * IZR D)%R).
    { apply Rmult_lt_compat_l; [| exact T3].
      apply Rmult_lt_0_compat; lra. }
    replace (IZR W * id * IZR D)%R with (IZR W * (IZR D * id))%R in T4
      by ring.
    rewrite Eid, Rmult_1_r in T4. lra. }
  assert (HaW : a < W) by (apply lt_IZR; lra).
  exists a. split; [| lia].
  unfold Float32.to_int. rewrite Ea.
  assert (E1 : (INT_MIN <=? a) = true)
    by (apply Z.leb_le; unfold INT_MIN; lia).
  assert (E2 : (a <=? INT_MAX) = true)
    by (apply Z.leb_le; unfold INT_MAX; lia).
  rewrite E1, E2. reflexivity.
Qed.

End Ops.

(** ** The sampled coordinates *)

(** C5 does not hold for every destination size.  For destination
    widths of [2^24] and more the conversion of [dst_x] to [float]
    rounds, and [x0] can reach [src_w]: resizing a
    16777220 x 1 image to the same size samples column 16777220 for the
    last destination pixel, one past the end of the only row. *)
Lemma samples_out_of_bounds :
  ~ (forall src_w src_h dst_w dst_h dst_x dst_y,
       0 < src_w -> 0 < src_h -> 0 < dst_w -> 0 < dst_h ->
       0 <= dst_x < dst_w -> 0 <= dst_y < dst_h ->
       samples_in_bounds src_w src_h dst_w dst_h dst_x dst_y).
Proof.
  intros H.
  destruct (H 16777220 1 16777220 1 16777219 0)
    as (s & E & _ & _ & Hx0 & _); try lia.
  vm_compute in E. injection E as <-.
  cbn [BmpToHex.s_x0] in Hx0. lia.
Qed.

Example sample_at_wide :
  BmpToHex.sample_at 16777220 1
    (BmpToHex.x_scale_of 16777220 16777220) (BmpToHex.x_scale_of 1 1)
    16777219 0
  = Ok (BmpToHex.mkSample 16777220 0 16777220 0
          (S754_zero false) (S754_zero false)).
Proof. vm_compute. reflexivity. Qed.


(** A subscript inside a buffer whose size fits in [int] is computed
    without overflow. *)
Lemma index_in_range (row w col h : Z) :
  0 <= row < h -> 0 <= col < w -> w * h <= INT_MAX ->
  BmpToHex.index row w col = Ok (row * w + col).
Proof.
  intros Hr Hc Hm. unfold BmpToHex.index, int_of, INT_MIN, INT_MAX in *.
  change (2 ^ 31 - 1) with 2147483647 in *.
  change (- 2 ^ 31) with (-2147483648).
  assert (B : 0 <= row * w /\ row * w + col < w * h) by nia.
  replace ((-2147483648 <=? row * w) && (row * w <=? 2147483647)) with true
    by (symmetry; apply andb_true_iff; split; apply Z.leb_le; lia).
  cbn [bind].
  replace ((-2147483648 <=? row * w + col)
           && (row * w + col <=? 2147483647)) with true
    by (symmetry; apply andb_true_iff; split; apply Z.leb_le; lia).
  reflexivity.
Qed.

Lemma load_at_in_range (a : list Pixel) (row w col h : Z) :
  0 <= row < h -> 0 <= col < w -> w * h <= INT_MAX ->
  Z.of_nat (length a) = w * h ->
  BmpToHex.load_at a row w col = Ok (at_index a (row * w + col)).
Proof.
  intros Hr Hc Hm L. unfold BmpToHex.load_at.
  rewrite (index_in_range row w col h Hr Hc Hm). cbn [bind].
  apply load_in_range. nia.
Qed.

(** Source dimensions in the range of [int] and destination dimensions
    of at most [MAX_TARGET]: both truncated coordinates are valid
    indices, and the rest follows from the two conditionals. *)
Lemma sample_coordinates_bounded
    (src_w src_h dst_w dst_h dst_x dst_y : Z) :
  1 <= src_w <= INT_MAX -> 1 <= src_h <= INT_MAX ->
  src_w * src_h <= INT_MAX ->
  1 <= dst_w <= MAX_TARGET -> 1 <= dst_h <= MAX_TARGET ->
  0 <= dst_x < dst_w -> 0 <= dst_y < dst_h ->
  samples_in_bounds src_w src_h dst_w dst_h dst_x dst_y.
Proof.
  intros Hw Hh Hm Hdw Hdh Hx Hy. unfold MAX_TARGET in *.
  destruct (axis_in_range src_w dst_w dst_x Hw Hdw Hx) as (x0 & Ex & Bx).
  destruct (axis_in_range src_h dst_h dst_y Hh Hdh Hy) as (y0 & Ey & By).
  unfold samples_in_bounds, BmpToHex.sample_at.
  rewrite Ex, Ey. cbn [bind].
  eexists. split; [reflexivity |].
  cbn [BmpToHex.s_x0 BmpToHex.s_x1 BmpToHex.s_y0 BmpToHex.s_y1].
  assert (X1 : 0 <= (if x0 + 1 <? src_w then x0 + 1 else x0) < src_w
               /\ (if x0 + 1 <? src_w then x0 + 1 else x0)
                  = Z.min (x0 + 1) (src_w - 1)).
  { destruct (x0 + 1 <? src_w) eqn:E;
      [apply Z.ltb_lt in E | apply Z.ltb_ge in E]; lia. }
  assert (Y1 : 0 <= (if y0 + 1 <? src_h then y0 + 1 else y0) < src_h
               /\ (if y0 + 1 <? src_h then y0 + 1 else y0)
                  = Z.min (y0 + 1) (src_h - 1)).
  { destruct (y0 + 1 <? src_h) eqn:E;
      [apply Z.ltb_lt in E | apply Z.ltb_ge in E]; lia. }
  destruct X1 as [X1 X1m]. destruct Y1 as [Y1 Y1m].
  set (x1 := if x0 + 1 <? src_w then x0 + 1 else x0) in *.
  set (y1 := if y0 + 1 <? src_h then y0 + 1 else y0) in *.
  repeat (split; [first [assumption | lia] |]).
  intros src Hlen. unfold reads_defined.
  cbn [BmpToHex.s_x0 BmpToHex.s_x1 BmpToHex.s_y0 BmpToHex.s_y1].
  exists (at_index src (y0 * src_w + x0)),
         (at_index src (y0 * src_w + x1)),
         (at_index src (y1 * src_w + x0)),
         (at_index src (y1 * src_w + x1)).
  repeat split; apply (load_at_in_range src _ src_w _ src_h);
    assumption.
Qed.

(** The program's own use: a resize to 320 x 240. *)
Corollary samples_in_bounds_fixed_target (src_w src_h dst_x dst_y : Z) :
  1 <= src_w <= INT_MAX -> 1 <= src_h <= INT_MAX ->
  src_w * src_h <= INT_MAX ->
  0 <= dst_x < BmpToHex.OUT_WIDTH -> 0 <= dst_y < BmpToHex.OUT_HEIGHT ->
  samples_in_bounds src_w src_h BmpToHex.OUT_WIDTH BmpToHex.OUT_HEIGHT
    dst_x dst_y.
Proof.
  intros Hw Hh Hm Hx Hy.
  apply sample_coordinates_bounded; try assumption;
    unfold BmpToHex.OUT_WIDTH, BmpToHex.OUT_HEIGHT, MAX_TARGET; lia.
Qed.

(** Without the bound on the pixel count the subscript itself is
    undefined: in a source of 65536 x 65536 pixels, row 65262 and
    column 65331 are inside the source but [65262 * 65536 + 65331]
    overflows [int]. *)
Example index_overflow :
  BmpToHex.index 65262 65536 65331 = Fail Undefined.
Proof. reflexivity. Qed.

(** C5, as it holds.  For a source whose dimensions are positive and
    whose pixel count [src_w * src_h] is in the range of [int] (as it
    is for every buffer that [main] allocates), and destination
    dimensions of at most [2^21] (the program's only target, 320 x 240,
    among them), every destination pixel samples
    [x1 = min (x0 + 1, src_w - 1)] and [y1 = min (y0 + 1, src_h - 1)],
    the four sampled coordinates lie inside the source, the four
    subscripts are computed in [int] without overflow, and the four
    reads stay inside the source buffer. *)
Theorem samples_in_bounds_moderate_target
    (src_w src_h dst_w dst_h dst_x dst_y : Z) :
  1 <= src_w <= INT_MAX -> 1 <= src_h <= INT_MAX ->
  src_w * src_h <= INT_MAX ->
  1 <= dst_w <= MAX_TARGET -> 1 <= dst_h <= MAX_TARGET ->
  0 <= dst_x < dst_w -> 0 <= dst_y < dst_h ->
  samples_in_bounds src_w src_h dst_w dst_h dst_x dst_y.
Proof. exact (sample_coordinates_bounded src_w src_h dst_w dst_h dst_x dst_y). Qed.

Lemma samples_in_bounds_moderate_target_witness :
  samples_in_bounds 1000 750 320 240 319 239.
Proof.
  apply (samples_in_bounds_moderate_target 1000 750 320 240 319 239);
    unfold INT_MAX, MAX_TARGET; lia.
Defined.

(** * Further properties of the two programs *)

Section DecoderOutput.

Import Convert.

Lemma ppm_bytes_length (l : list Z) :
  Z.of_nat (length (ppm_bytes l)) = 3 * Z.of_nat (length l).
Proof.
  induction l as [| p l IH]; [reflexivity |].
  rewrite ppm_bytes_cons, length_app, Nat2Z.inj_add, IH.
  unfold bytes_of. destruct (ColorCodec.rgb565_to_rgb888 p) as [[r g] b].
  cbn [length]. lia.
Qed.

Lemma u8_is_u8 (z : Z) : is_u8 (u8 z).
Proof. unfold is_u8, u8. apply Z.mod_pos_bound. lia. Qed.

Lemma ppm_bytes_are_bytes (l : list Z) : Forall is_u8 (ppm_bytes l).
Proof.
  induction l as [| p l IH]; [constructor |].
  rewrite ppm_bytes_cons. apply Forall_app. split; [| exact IH].
  unfold bytes_of, ColorCodec.rgb565_to_rgb888,
    ColorCodec.expand5, ColorCodec.expand6.
  repeat constructor; apply u8_is_u8.
Qed.

End DecoderOutput.

(** X1. Whatever blurred.hex contains, [main] of convert.c terminates
    and writes exactly 76800 pixels after the header: 230400 bytes, each
    in 0..255. *)
Theorem main_writes_full_frame (content : list ascii) :
  exists out,
    Convert.main content = Some out
    /\ Z.of_nat (length out) = 3 * 76800
    /\ Forall is_u8 out.
Proof.
  destruct (main_decodes content) as [E L]. cbv zeta in E, L.
  eexists. split; [exact E |]. split.
  - rewrite ppm_bytes_length, L. reflexivity.
  - apply ppm_bytes_are_bytes.
Qed.

Lemma main_at_quota (content : list ascii) :
  Convert.TOTAL_PIXELS <= Z.of_nat (length (Convert.valid_values content)) ->
  Convert.main content
  = Some (Convert.ppm_bytes
            (firstn (Z.to_nat Convert.TOTAL_PIXELS)
                    (Convert.valid_values content))).
Proof.
  intros H. destruct (main_decodes content) as [E _]. cbv zeta in E.
  rewrite E. f_equal. f_equal.
  rewrite length_firstn.
  replace (Z.to_nat Convert.TOTAL_PIXELS
           - Nat.min (Z.to_nat Convert.TOTAL_PIXELS)
               (length (Convert.valid_values content)))%nat with 0%nat by lia.
  apply app_nil_r.
Qed.

(** X2. For a file in which every line has at most 255 characters,
    its line feed included, and no NUL, and which holds at least 76800
    valid data lines: the output is the expansion of the values of the
    first 76800 valid data lines and nothing else; no value is invented
    and whatever follows in the file is ignored. *)
Theorem main_stops_at_quota (content : list ascii) (vals : list Z) :
  Forall short_line (TextLines.text_lines content) ->
  data_values (TextLines.text_lines content) vals ->
  Convert.TOTAL_PIXELS <= Z.of_nat (length vals) ->
  Convert.main content
  = Some (Convert.ppm_bytes (firstn (Z.to_nat Convert.TOTAL_PIXELS) vals)).
Proof.
  intros Hs Hv. rewrite (values_of_text content vals Hs Hv).
  apply main_at_quota.
Qed.

Lemma main_stops_at_quota_witness :
  Convert.main many_lines
  = Some (Convert.ppm_bytes
            (firstn (Z.to_nat Convert.TOTAL_PIXELS)
                    (Convert.values_of_lines
                       (TextLines.text_lines many_lines)))).
Proof.
  apply (main_stops_at_quota many_lines
           (Convert.values_of_lines (TextLines.text_lines many_lines))).
  - apply short_lineb_sound. vm_compute. reflexivity.
  - apply data_values_parsed, short_lines_split, short_lineb_sound.
    vm_compute. reflexivity.
  - vm_compute. discriminate.
Defined.

Section FgetsLines.

Import Convert.

Lemma fgets_chars_split (room : nat) (f : list ascii) :
  fst (fgets_chars room f) ++ snd (fgets_chars room f) = f.
Proof.
  revert f. induction room as [| room IH]; intros f; [reflexivity |].
  destruct f as [| c f]; [reflexivity |].
  rewrite fgets_chars_cons. destruct (Ascii.eqb c LF); [reflexivity |].
  cbn [fst snd app]. rewrite IH. reflexivity.
Qed.

Lemma fgets_chars_well_cut (room : nat) (f : list ascii) :
  well_cut room (fst (fgets_chars room f)).
Proof.
  revert f. induction room as [| room IH]; intros f.
  - split; [simpl; lia | simpl; intros; lia].
  - destruct f as [| c f]; [split; [simpl; lia | simpl; intros; lia] |].
    rewrite fgets_chars_cons. destruct (Ascii.eqb c LF) eqn:Ec.
    + split; [simpl; lia | simpl; intros; lia].
    + destruct (IH f) as [L N]. cbn [fst]. split; [simpl; lia |].
      intros [| i] Hi.
      * cbn [nth]. apply Ascii.eqb_neq. exact Ec.
      * cbn [nth]. apply N. simpl in Hi. lia.
Qed.

Lemma lines_with_fuel_partition (fuel : nat) (f : list ascii) :
  (length f <= fuel)%nat ->
  concat (lines_with_fuel fuel f) = f
  /\ Forall (fun l => l <> [] /\ well_cut 255 l) (lines_with_fuel fuel f).
Proof.
  revert f. induction fuel as [| fuel IH]; intros f Hf.
  - destruct f; [split; [reflexivity | constructor] | simpl in Hf; lia].
  - cbn [lines_with_fuel].
    destruct (fgets 256 f) as [[line rest] |] eqn:Eg.
    + pose proof (fgets_progress _ _ _ Eg) as L.
      destruct (IH rest ltac:(lia)) as [C F].
      unfold fgets in Eg. destruct f as [| c f']; [discriminate |].
      assert (E : fgets_chars (256 - 1) (c :: f') = (line, rest))
        by congruence.
      change (256 - 1)%nat with 255%nat in E.
      pose proof (fgets_chars_split 255 (c :: f')) as S.
      pose proof (fgets_chars_well_cut 255 (c :: f')) as W.
      rewrite E in S, W. cbn [fst snd] in S, W.
      split.
      * cbn [concat]. rewrite C. exact S.
      * constructor; [| exact F]. split; [| exact W].
        intros ->. simpl in S. subst rest. simpl in L. lia.
    + apply fgets_eof in Eg. subst f. split; [reflexivity | constructor].
Qed.

End FgetsLines.

(** X3. The lines that the reading loop of convert.c hands to the parser
    cut the file into consecutive pieces without losing or adding a
    character: each piece is non-empty and at most 255 characters long,
    and a line feed occurs in a piece only as its last character. *)
Theorem fgets_lines_partition (content : list ascii) :
  concat (Convert.lines_of content) = content
  /\ Forall (fun l => l <> [] /\ well_cut 255 l) (Convert.lines_of content).
Proof. apply lines_with_fuel_partition. lia. Qed.

Section ParserTolerance.

Import Convert.

Lemma isspace_not_nul (c : ascii) : isspace c = true -> is_nul c = false.
Proof.
  intros H. destruct (is_nul c) eqn:E; [| reflexivity].
  rewrite (isspace_nul c E) in H. discriminate.
Qed.

Lemma skip_leading_blank (ws line : list ascii) :
  forallb isspace ws = true ->
  skip_leading (ws ++ line) = skip_leading line.
Proof.
  induction ws as [| c ws IH]; intros H; [reflexivity |].
  simpl in H. apply andb_true_iff in H as [Hc Hws].
  cbn [app skip_leading]. rewrite Hc, (isspace_not_nul c Hc).
  cbn [negb andb]. apply IH, Hws.
Qed.

Lemma parse_skips_indentation (ws line : list ascii) :
  forallb isspace ws = true ->
  parse_rgb565_line (ws ++ line) = parse_rgb565_line line.
Proof.
  intros H. unfold parse_rgb565_line.
  rewrite (skip_leading_blank ws line H). reflexivity.
Qed.

Lemma copy_to_buf_stop (room : nat) (s t : list ascii) (c : ascii) :
  existsb ends_content s = false -> ends_content c = true ->
  copy_to_buf room (s ++ c :: t) = copy_to_buf room s.
Proof.
  intros Hs Hc. revert room. induction s as [| a s IH]; intros room.
  - destruct room as [| room]; [reflexivity |].
    cbn [app copy_to_buf]. unfold ends_content in Hc.
    destruct (is_nul c); [reflexivity |].
    destruct (Ascii.eqb c CR); [reflexivity |].
    destruct (Ascii.eqb c LF); [reflexivity | discriminate].
  - simpl in Hs. apply orb_false_iff in Hs as [Ha Hs].
    destruct room as [| room]; [reflexivity |].
    cbn [app copy_to_buf].
    destruct (negb (is_nul a) && negb (Ascii.eqb a CR) && negb (Ascii.eqb a LF));
      [| reflexivity].
    f_equal. apply IH, Hs.
Qed.

Lemma skip_leading_keeps (s t : list ascii) :
  skip_leading s <> [] -> skip_leading (s ++ t) = skip_leading s ++ t.
Proof.
  induction s as [| a s IH]; intros H; [contradiction |].
  cbn [app skip_leading] in *.
  destruct (negb (is_nul a) && isspace a); [apply IH, H | reflexivity].
Qed.

Lemma skip_leading_sub (s : list ascii) :
  existsb ends_content s = false ->
  existsb ends_content (skip_leading s) = false.
Proof.
  induction s as [| a s IH]; intros H; [reflexivity |].
  cbn [skip_leading]. destruct (negb (is_nul a) && isspace a); [| exact H].
  simpl in H. apply orb_false_iff in H as [_ H]. apply IH, H.
Qed.

Lemma ends_content_not_slash (c : ascii) :
  ends_content c = true -> Ascii.eqb c "/" = false.
Proof.
  unfold ends_content, is_nul. intros H.
  apply Ascii.eqb_neq. intros ->. vm_compute in H. discriminate.
Qed.

Lemma parse_stops_at_terminator (s t : list ascii) (c : ascii) :
  existsb ends_content s = false -> ends_content c = true ->
  skip_leading s <> [] ->
  parse_rgb565_line (s ++ c :: t) = parse_rgb565_line s.
Proof.
  intros Hs Hc Hne. unfold parse_rgb565_line.
  rewrite (skip_leading_keeps s (c :: t) Hne).
  pose proof (skip_leading_sub s Hs) as Hs'.
  set (s' := skip_leading s) in *.
  rewrite (copy_to_buf_stop _ s' t c Hs' Hc).
  assert (E0 : char_at (s' ++ c :: t) 0 = char_at s' 0)
    by (destruct s'; [contradiction | reflexivity]).
  assert (E1 : Ascii.eqb (char_at (s' ++ c :: t) 1) "/"
               = Ascii.eqb (char_at s' 1) "/").
  { destruct s' as [| a [| b s'']]; [contradiction | | reflexivity].
    unfold char_at. cbn [app nth].
    rewrite (ends_content_not_slash c Hc). reflexivity. }
  rewrite E0, E1. reflexivity.
Qed.

End ParserTolerance.

(** X4. Leading white space never matters to the line parser: a line
    and the same line behind any run of blanks, tabs or other white
    space parse alike. *)
Theorem parse_ignores_indentation (ws line : list ascii) :
  forallb isspace ws = true ->
  Convert.parse_rgb565_line (ws ++ line) = Convert.parse_rgb565_line line.
Proof. exact (parse_skips_indentation ws line). Qed.

Lemma parse_ignores_indentation_witness :
  Convert.parse_rgb565_line
    (list_ascii_of_string "   " ++ list_ascii_of_string "1F")
  = Convert.parse_rgb565_line (list_ascii_of_string "1F").
Proof.
  apply (parse_ignores_indentation (list_ascii_of_string "   ")).
  reflexivity.
Defined.

(** X5. The parser reads a line up to its first CR, LF or NUL only: for
    a line with something other than white space in front of that
    character, whatever follows it, the terminator included, has no
    effect on the result, so CR LF line ends parse like LF ones. *)
Theorem parse_ignores_line_end (s t : list ascii) (c : ascii) :
  existsb ends_content s = false -> ends_content c = true ->
  Convert.skip_leading s <> [] ->
  Convert.parse_rgb565_line (s ++ c :: t) = Convert.parse_rgb565_line s.
Proof. exact (parse_stops_at_terminator s t c). Qed.

Lemma parse_ignores_line_end_witness :
  Convert.parse_rgb565_line (list_ascii_of_string "1F" ++ CR :: [LF])
  = Convert.parse_rgb565_line (list_ascii_of_string "1F").
Proof.
  apply (parse_ignores_line_end (list_ascii_of_string "1F") [LF] CR).
  - reflexivity.
  - reflexivity.
  - discriminate.
Defined.

Section CodecRoundTrip.

Lemma fields_of_word (p : Z) :
  is_u16 p ->
  p = ColorCodec.field_r p * 2048 + ColorCodec.field_g p * 32
      + ColorCodec.field_b p.
Proof.
  unfold is_u16. intros H.
  rewrite field_r_eq, field_g_eq, field_b_eq.
  change 0x1F with (Z.ones 5). change 0x3F with (Z.ones 6).
  rewrite !Z.land_ones, !Z.shiftr_div_pow2 by lia.
  change (2 ^ 5) with 32. change (2 ^ 6) with 64. change (2 ^ 11) with 2048.
  Z.div_mod_to_equations. lia.
Qed.

Lemma field_ranges (p : Z) :
  0 <= ColorCodec.field_r p < 32 /\ 0 <= ColorCodec.field_g p < 64
  /\ 0 <= ColorCodec.field_b p < 32.
Proof.
  rewrite field_r_eq, field_g_eq, field_b_eq.
  repeat split; try apply land_mask5_range; apply land_mask6_range.
Qed.

Lemma encode_of_decode (p : Z) :
  is_u16 p ->
  (let '(r, g, b) := ColorCodec.rgb565_to_rgb888 p in
   ColorCodec.to_rgb565 r g b) = p.
Proof.
  intros Hp. unfold ColorCodec.rgb565_to_rgb888.
  destruct (field_ranges p) as (Br & Bg & Bb).
  rewrite !expand5_wide, expand6_wide by assumption.
  pose proof (wide5_range _ Br) as Wr. pose proof (wide6_range _ Bg) as Wg.
  pose proof (wide5_range _ Bb) as Wb.
  rewrite to_rgb565_sum by (unfold is_u8; lia).
  rewrite !wide5_bucket, wide6_bucket by assumption.
  symmetry. apply fields_of_word, Hp.
Qed.

Lemma bucket5 (c c' : Z) :
  Z.shiftr c' 3 = Z.shiftr c 3 -> Z.abs (c' - c) <= 7.
Proof.
  rewrite !Z.shiftr_div_pow2 by lia. change (2 ^ 3) with 8.
  intros H. Z.div_mod_to_equations. lia.
Qed.

Lemma bucket6 (c c' : Z) :
  Z.shiftr c' 2 = Z.shiftr c 2 -> Z.abs (c' - c) <= 3.
Proof.
  rewrite !Z.shiftr_div_pow2 by lia. change (2 ^ 2) with 4.
  intros H. Z.div_mod_to_equations. lia.
Qed.

Lemma decode_encode_close (r g b : Z) :
  is_u8 r -> is_u8 g -> is_u8 b ->
  let '(r', g', b') := decode_encode (r, g, b) in
  (is_u8 r' /\ is_u8 g' /\ is_u8 b')
  /\ (Z.shiftr r' 3 = Z.shiftr r 3 /\ Z.shiftr g' 2 = Z.shiftr g 2
      /\ Z.shiftr b' 3 = Z.shiftr b 3)
  /\ (Z.abs (r' - r) <= 7 /\ Z.abs (g' - g) <= 3 /\ Z.abs (b' - b) <= 7).
Proof.
  intros Hr Hg Hb. rewrite (decode_encode_channels r g b Hr Hg Hb).
  pose proof (shiftr3_u8 r Hr) as Br.
  pose proof (shiftr2_u8 g Hg) as Bg.
  pose proof (shiftr3_u8 b Hb) as Bb.
  pose proof (wide5_range _ Br) as Wr. pose proof (wide6_range _ Bg) as Wg.
  pose proof (wide5_range _ Bb) as Wb.
  pose proof (wide5_bucket _ Br) as Kr. pose proof (wide6_bucket _ Bg) as Kg.
  pose proof (wide5_bucket _ Bb) as Kb.
  split; [unfold is_u8; lia |]. split; [auto |].
  repeat split; first [apply bucket5 | apply bucket6]; assumption.
Qed.

End CodecRoundTrip.

(** X6. Packing the expansion of a packed value gives the value back:
    for every 16-bit [p], [to_rgb565] applied to the three bytes that
    convert.c writes for [p] is [p].  The expansion therefore loses
    nothing, and two different packed values never give the same
    pixel. *)
Theorem to_rgb565_of_expansion (p : Z) :
  is_u16 p ->
  (let '(r, g, b) := ColorCodec.rgb565_to_rgb888 p in
   ColorCodec.to_rgb565 r g b) = p.
Proof. exact (encode_of_decode p). Qed.

Lemma to_rgb565_of_expansion_witness :
  (let '(r, g, b) := ColorCodec.rgb565_to_rgb888 0xABCD in
   ColorCodec.to_rgb565 r g b) = 0xABCD.
Proof. apply (to_rgb565_of_expansion 0xABCD). unfold is_u16. lia. Defined.

(** X7. Going through RGB565 and back moves every channel by little and
    keeps it in its quantization bucket: the decoded red and blue keep
    their top five bits and differ from the original by at most 7, the
    decoded green keeps its top six bits and differs by at most 3. *)
Theorem decode_encode_error (r g b : Z) :
  is_u8 r -> is_u8 g -> is_u8 b ->
  let '(r', g', b') := decode_encode (r, g, b) in
  (is_u8 r' /\ is_u8 g' /\ is_u8 b')
  /\ (Z.shiftr r' 3 = Z.shiftr r 3 /\ Z.shiftr g' 2 = Z.shiftr g 2
      /\ Z.shiftr b' 3 = Z.shiftr b 3)
  /\ (Z.abs (r' - r) <= 7 /\ Z.abs (g' - g) <= 3 /\ Z.abs (b' - b) <= 7).
Proof. exact (decode_encode_close r g b). Qed.

Lemma decode_encode_error_witness :
  let '(r', g', b') := decode_encode (200, 100, 50) in
  (is_u8 r' /\ is_u8 g' /\ is_u8 b')
  /\ (Z.shiftr r' 3 = Z.shiftr 200 3 /\ Z.shiftr g' 2 = Z.shiftr 100 2
      /\ Z.shiftr b' 3 = Z.shiftr 50 3)
  /\ (Z.abs (r' - 200) <= 7 /\ Z.abs (g' - 100) <= 3
      /\ Z.abs (b' - 50) <= 7).
Proof.
  apply (decode_encode_error 200 100 50); unfold is_u8; lia.
Defined.

Section BitmapFiles.

Import BmpToHex.

Lemma int_of_ok (z : Z) : 0 <= z <= INT_MAX -> int_of z = Ok z.
Proof.
  intros Hz. unfold int_of.
  destruct (INT_MIN <=? z) eqn:E1;
    [| apply Z.leb_gt in E1; unfold INT_MIN in E1; lia].
  destruct (z <=? INT_MAX) eqn:E2; [reflexivity |].
  apply Z.leb_gt in E2. lia.
Qed.

Lemma int_of_inv (z r : Z) : int_of z = Ok r -> r = z /\ z <= INT_MAX.
Proof.
  unfold int_of. destruct (INT_MIN <=? z); [| discriminate].
  destruct (z <=? INT_MAX) eqn:E; [| discriminate].
  apply Z.leb_le in E. intros H. injection H as <-. split; [reflexivity | exact E].
Qed.

(** [read_bitmap] once the header checks and the [int] computations are
    through. *)
Lemma read_bitmap_accepted (fh : BMPFileHeader) (ih : BMPInfoHeader)
    (file : list Z) (row_mem : option (list Z))
    (pix_mem : option (list Pixel)) :
  accepted fh ih -> dims_in_range ih ->
  read_bitmap fh ih file row_mem pix_mem
  = match row_mem, pix_mem with
    | Some row_buf, Some src_pixels =>
        px <- read_rows (Z.to_nat (Z.abs (biHeight ih))) 0
                (biHeight ih <? 0) (Z.abs (biWidth ih))
                (Z.abs (biHeight ih)) (row_stride_of ih)
                (fseek file (bfOffBits fh)) row_buf src_pixels ;;
        Ok (Z.abs (biWidth ih), Z.abs (biHeight ih), px)
    | _, _ => Fail OutOfMemory
    end.
Proof.
  intros (Ht & Hb & Hc) (R1 & R2 & R3).
  unfold read_bitmap, abs, row_stride_of.
  rewrite Ht, Hb, Hc. cbn [Z.eqb Pos.eqb negb].
  pose proof (Z.abs_nonneg (biWidth ih)).
  pose proof (Z.abs_nonneg (biHeight ih)).
  rewrite (int_of_ok (Z.abs (biWidth ih))) by lia. cbn [bind].
  rewrite (int_of_ok (Z.abs (biHeight ih))) by lia. cbn [bind].
  rewrite (int_of_ok (Z.abs (biWidth ih) * 3 + 3)) by lia. cbn [bind].
  rewrite (int_of_ok (Z.abs (biWidth ih) * Z.abs (biHeight ih))) by nia.
  reflexivity.
Qed.

Lemma read_bitmap_ok_inv (fh : BMPFileHeader) (ih : BMPInfoHeader)
    (file : list Z) (row_mem : option (list Z))
    (pix_mem : option (list Pixel)) (r : Z * Z * list Pixel) :
  read_bitmap fh ih file row_mem pix_mem = Ok r ->
  accepted fh ih /\ dims_in_range ih
  /\ row_mem <> None /\ pix_mem <> None.
Proof.
  unfold read_bitmap, accepted, dims_in_range, abs.
  destruct (bfType fh =? 0x4D42) eqn:Et; [| discriminate].
  destruct (biBitCount ih =? 24) eqn:Eb; [| discriminate].
  destruct (biCompression ih =? 0) eqn:Ec; [| discriminate].
  cbn [negb].
  destruct (int_of (Z.abs (biWidth ih))) as [w |] eqn:Ew; [| discriminate].
  destruct (int_of (Z.abs (biHeight ih))) as [h |] eqn:Eh; [| discriminate].
  cbn [bind].
  destruct (int_of (w * 3 + 3)) as [s |] eqn:Es; [| discriminate].
  cbn [bind].
  destruct (int_of (w * h)) as [a |] eqn:Ea; [| discriminate].
  cbn [bind].
  apply int_of_inv in Ew as [-> Ew], Eh as [-> Eh], Es as [-> Es],
    Ea as [-> Ea].
  apply Z.eqb_eq in Et, Eb, Ec.
  destruct row_mem, pix_mem; try discriminate.
  intros _. repeat split; auto; discriminate.
Qed.

Lemma read_bitmap_succeeds (fh : BMPFileHeader) (ih : BMPInfoHeader)
    (file row_buf : list Z) (src_pixels : list Pixel) :
  Z.of_nat (length row_buf) = row_stride_of ih ->
  Z.of_nat (length src_pixels)
  = Z.abs (biWidth ih) * Z.abs (biHeight ih) ->
  accepted fh ih -> dims_in_range ih ->
  exists buf,
    read_bitmap fh ih file (Some row_buf) (Some src_pixels)
    = Ok (Z.abs (biWidth ih), Z.abs (biHeight ih), buf)
    /\ length buf = length src_pixels
    /\ (forall k c, 0 <= k < Z.abs (biHeight ih) ->
          0 <= c < Z.abs (biWidth ih) ->
          pixel_at buf (Z.abs (biWidth ih)) c
            (dst_row_of (biHeight ih <? 0) (Z.abs (biHeight ih)) k)
          = rgb_of_row
              (nth (Z.to_nat k)
                 (rows_read (Z.to_nat (Z.abs (biHeight ih)))
                    (row_stride_of ih) (fseek file (bfOffBits fh)) row_buf)
                 []) c).
Proof.
  intros Lrow Lpix Ha Hr.
  rewrite (read_bitmap_accepted fh ih file _ _ Ha Hr).
  destruct Hr as (R1 & R2 & R3).
  pose proof (Z.abs_nonneg (biWidth ih)) as Hw.
  pose proof (Z.abs_nonneg (biHeight ih)) as Hh.
  pose proof (row_stride_bounds (Z.abs (biWidth ih) * 3) ltac:(lia)) as Hs.
  fold (row_stride_of ih) in Hs.
  destruct (read_rows_spec (Z.to_nat (Z.abs (biHeight ih))) 0
              (biHeight ih <? 0) (Z.abs (biWidth ih)) (Z.abs (biHeight ih))
              (row_stride_of ih) (fseek file (bfOffBits fh)) row_buf
              src_pixels)
    as (buf & E & L & V & _); try lia.
  exists buf. rewrite E. cbn [bind]. split; [reflexivity |].
  split; [exact L |].
  intros k c Hk Hc. specialize (V k c ltac:(lia) Hc).
  rewrite Z.sub_0_r in V. exact V.
Qed.

End BitmapFiles.

(** X8. With both buffers allocated at the sizes [main] asks for, the
    bitmap reader succeeds exactly on the headers it is meant for: the
    signature is [BM], the bit count 24, the compression 0, and the
    dimensions are within the range of the [int] arithmetic; a bitmap
    is never rejected for its pixel data, short or not. *)
Theorem read_bitmap_succeeds_iff (fh : BmpToHex.BMPFileHeader)
    (ih : BmpToHex.BMPInfoHeader) (file row_buf : list Z)
    (src_pixels : list Pixel) :
  Z.of_nat (length row_buf) = row_stride_of ih ->
  Z.of_nat (length src_pixels)
  = Z.abs (BmpToHex.biWidth ih) * Z.abs (BmpToHex.biHeight ih) ->
  (exists r,
     BmpToHex.read_bitmap fh ih file (Some row_buf) (Some src_pixels) = Ok r)
  <-> accepted fh ih /\ dims_in_range ih.
Proof.
  intros Lrow Lpix. split.
  - intros [r E]. apply read_bitmap_ok_inv in E. tauto.
  - intros [Ha Hr].
    destruct (read_bitmap_succeeds fh ih file row_buf src_pixels
                Lrow Lpix Ha Hr) as (buf & E & _).
    eexists. exact E.
Qed.

Lemma read_bitmap_succeeds_iff_witness :
  (exists r,
     BmpToHex.read_bitmap
       (BmpToHex.Build_BMPFileHeader 0x4D42 70 0 0 3)
       (BmpToHex.Build_BMPInfoHeader 40 2 2 1 24 0 0 0 0 0 0)
       [7; 7; 7; 1; 2; 3]
       (Some (repeat 0 8)) (Some (repeat (mkPixel 0 0 0) 4)) = Ok r)
  <-> accepted (BmpToHex.Build_BMPFileHeader 0x4D42 70 0 0 3)
        (BmpToHex.Build_BMPInfoHeader 40 2 2 1 24 0 0 0 0 0 0)
      /\ dims_in_range (BmpToHex.Build_BMPInfoHeader 40 2 2 1 24 0 0 0 0 0 0).
Proof.
  apply (read_bitmap_succeeds_iff
           (BmpToHex.Build_BMPFileHeader 0x4D42 70 0 0 3)
           (BmpToHex.Build_BMPInfoHeader 40 2 2 1 24 0 0 0 0 0 0));
    reflexivity.
Defined.

Section BitmapLayout.

Import BmpToHex.

Lemma nth_firstn_lt (l : list Z) (n i : nat) :
  (i < n)%nat -> nth i (firstn n l) 0 = nth i l 0.
Proof.
  revert l i. induction n as [| n IH]; intros l i H; [lia |].
  destruct l as [| a l]; [destruct i; reflexivity |].
  destruct i as [| i]; [reflexivity |]. cbn [firstn nth]. apply IH. lia.
Qed.

Lemma nth_skipn_add (l : list Z) (n i : nat) :
  nth i (skipn n l) 0 = nth (n + i) l 0.
Proof.
  revert l. induction n as [| n IH]; intros l; [reflexivity |].
  destruct l as [| a l]; [destruct i; reflexivity |].
  cbn [skipn Nat.add nth]. apply IH.
Qed.

Lemma row_stride_multiple (a : Z) :
  0 <= a -> Z.land (a + 3) (Z.lnot 3) = 4 * ((a + 3) / 4).
Proof.
  intros Ha.
  replace (Z.land (a + 3) (Z.lnot 3)) with (Z.ldiff (a + 3) (Z.ones 2))
    by (rewrite Z.ldiff_land; reflexivity).
  rewrite Z.ldiff_ones_r by lia.
  rewrite Z.shiftr_div_pow2, Z.shiftl_mul_pow2 by lia.
  change (2 ^ 2) with 4. lia.
Qed.

(** A pixel of a complete file, read off the bytes of the file. *)
Lemma rgb_of_complete_row (file : list Z) (off stride k x w : Z)
    (n : nat) (row_buf : list Z) :
  0 <= off -> 0 <= k -> (Z.to_nat k < n)%nat -> 0 <= x < w ->
  w * 3 <= stride -> Z.of_nat (length row_buf) = stride ->
  Z.of_nat n * stride <= Z.of_nat (length (fseek file off)) ->
  rgb_of_row (nth (Z.to_nat k) (rows_read n stride (fseek file off) row_buf) [])
    x
  = mkPixel (byte_at file (off + k * stride + x * 3 + 2))
            (byte_at file (off + k * stride + x * 3 + 1))
            (byte_at file (off + k * stride + x * 3 + 0)).
Proof.
  intros Hoff Hk Hkn Hx Hs Hlen Hfile.
  rewrite (rows_read_complete n stride (fseek file off) row_buf)
    by (try assumption; lia).
  unfold rgb_of_row, byte_at, fseek.
  rewrite !nth_firstn_lt by lia.
  rewrite skipn_skipn, !nth_skipn_add.
  f_equal; f_equal; nia.
Qed.

(** After the end of the file every [fread] leaves [row_buf] as it is. *)
Lemma rows_read_eof (n : nat) (stride : Z) (row_buf : list Z) :
  rows_read n stride [] row_buf = repeat row_buf n.
Proof.
  induction n as [| n IH]; [reflexivity |].
  cbn [rows_read fread]. rewrite firstn_nil, skipn_nil.
  cbn [length skipn app repeat]. f_equal. exact IH.
Qed.

Lemma nth_repeat_row (rb : list Z) (n j : nat) :
  (j < n)%nat -> nth j (repeat rb n) [] = rb.
Proof.
  revert j. induction n as [| n IH]; intros j H; [lia |].
  destruct j as [| j]; [reflexivity |]. cbn [repeat nth]. apply IH. lia.
Qed.

(** A file that ends after [k] whole rows: every later row is read as a
    copy of row [k - 1]. *)
Lemma rows_read_short (n k : nat) (stride : Z) (fp row_buf : list Z) :
  0 <= stride -> Z.of_nat (length row_buf) = stride ->
  Z.of_nat (length fp) = Z.of_nat k * stride -> (1 <= k)%nat ->
  forall j, (k <= j < n)%nat ->
    nth j (rows_read n stride fp row_buf) []
    = nth (k - 1) (rows_read n stride fp row_buf) [].
Proof.
  revert k fp row_buf. induction n as [| n IH];
    intros k fp row_buf Hs Hlen Hfp Hk j Hj; [lia |].
  cbn [rows_read]. unfold fread.
  assert (Hgot : length (firstn (Z.to_nat stride) fp) = Z.to_nat stride)
    by (rewrite length_firstn; nia).
  rewrite Hgot, (skipn_all2 row_buf) by lia. rewrite app_nil_r.
  set (rb := firstn (Z.to_nat stride) fp).
  set (fp' := skipn (Z.to_nat stride) fp).
  assert (Lfp' : Z.of_nat (length fp') = Z.of_nat (k - 1) * stride)
    by (unfold fp'; rewrite length_skipn; nia).
  assert (Lrb : Z.of_nat (length rb) = stride) by (unfold rb; lia).
  destruct j as [| j]; [lia |]. cbn [nth].
  destruct (Nat.eq_dec k 1) as [-> | Hk1].
  - cbn [Nat.sub nth].
    assert (E : fp' = [])
      by (destruct fp'; [reflexivity | simpl in Lfp'; lia]).
    rewrite E, rows_read_eof. apply nth_repeat_row. lia.
  - replace (k - 1)%nat with (S (k - 1 - 1)) by lia. cbn [nth].
    apply (IH (k - 1)%nat); try assumption; lia.
Qed.

End BitmapLayout.

(** X9. The row stride that [main] computes is the row length in bytes
    rounded up to the next multiple of four: [4 * ceil (3 w / 4)], at
    least [3 w] and less than [3 w + 4]. *)
Theorem row_stride_rounds_up (ih : BmpToHex.BMPInfoHeader) :
  let w := Z.abs (BmpToHex.biWidth ih) in
  row_stride_of ih = 4 * ((3 * w + 3) / 4)
  /\ row_stride_of ih mod 4 = 0
  /\ 3 * w <= row_stride_of ih < 3 * w + 4.
Proof.
  cbv zeta. unfold row_stride_of.
  pose proof (Z.abs_nonneg (BmpToHex.biWidth ih)) as Hw.
  rewrite (row_stride_multiple (Z.abs (BmpToHex.biWidth ih) * 3)) by lia.
  replace (Z.abs (BmpToHex.biWidth ih) * 3) with
    (3 * Z.abs (BmpToHex.biWidth ih)) by lia.
  split; [reflexivity |]. split.
  - rewrite Z.mul_comm. apply Z.mod_mul. lia.
  - Z.div_mod_to_equations. lia.
Qed.

(** The bytes of the file that make up one pixel of the buffer. *)
Lemma bitmap_pixel_bytes (fh : BmpToHex.BMPFileHeader)
    (ih : BmpToHex.BMPInfoHeader) (file row_buf : list Z)
    (src_pixels : list Pixel) :
  accepted fh ih -> dims_in_range ih ->
  Z.of_nat (length row_buf) = row_stride_of ih ->
  Z.of_nat (length src_pixels)
  = Z.abs (BmpToHex.biWidth ih) * Z.abs (BmpToHex.biHeight ih) ->
  0 <= BmpToHex.bfOffBits fh ->
  BmpToHex.bfOffBits fh + Z.abs (BmpToHex.biHeight ih) * row_stride_of ih
  <= Z.of_nat (length file) ->
  let w := Z.abs (BmpToHex.biWidth ih) in
  let h := Z.abs (BmpToHex.biHeight ih) in
  exists buf,
    BmpToHex.read_bitmap fh ih file (Some row_buf) (Some src_pixels)
    = Ok (w, h, buf)
    /\ forall x y, 0 <= x < w -> 0 <= y < h ->
         let k := if BmpToHex.biHeight ih <? 0 then y else h - 1 - y in
         let base := BmpToHex.bfOffBits fh + k * row_stride_of ih + x * 3 in
         BmpToHex.pixel_at buf w x y
         = mkPixel (byte_at file (base + 2)) (byte_at file (base + 1))
                   (byte_at file (base + 0)).
Proof.
  intros Ha Hr Lrow Lpix Hoff Hfile. cbv zeta.
  destruct (read_bitmap_succeeds fh ih file row_buf src_pixels
              Lrow Lpix Ha Hr) as (buf & E & _ & V).
  exists buf. split; [exact E |].
  intros x y Hx Hy.
  pose proof (Z.abs_nonneg (BmpToHex.biWidth ih)) as Hw.
  pose proof (row_stride_bounds (Z.abs (BmpToHex.biWidth ih) * 3)
                ltac:(lia)) as Hs.
  fold (row_stride_of ih) in Hs.
  set (k := if BmpToHex.biHeight ih <? 0 then y
            else Z.abs (BmpToHex.biHeight ih) - 1 - y).
  assert (Hk : 0 <= k < Z.abs (BmpToHex.biHeight ih))
    by (unfold k; destruct (BmpToHex.biHeight ih <? 0); lia).
  specialize (V k x Hk Hx).
  assert (Ey : dst_row_of (BmpToHex.biHeight ih <? 0)
                 (Z.abs (BmpToHex.biHeight ih)) k = y)
    by (unfold dst_row_of, k; destruct (BmpToHex.biHeight ih <? 0); lia).
  rewrite Ey in V. rewrite V.
  rewrite <- !Z.add_assoc.
  rewrite !(Z.add_assoc (BmpToHex.bfOffBits fh)).
  rewrite !(Z.add_assoc (BmpToHex.bfOffBits fh + k * row_stride_of ih)).
  apply rgb_of_complete_row with (w := Z.abs (BmpToHex.biWidth ih));
    try lia.
  unfold BmpToHex.fseek. rewrite length_skipn, Z2Nat.id by lia. lia.
Qed.

(** X10. For an accepted bitmap whose file holds all its rows, pixel
    ([x], [y]) of the buffer is made of the three bytes at offset
    [bfOffBits + k * row_stride + 3 * x] of the file, where [k = y] for
    a negative height field and [k = h - 1 - y] otherwise: red is the
    third byte, green the second, blue the first, and the padding bytes
    at the end of each row are skipped. *)
Theorem read_bitmap_pixel_bytes (fh : BmpToHex.BMPFileHeader)
    (ih : BmpToHex.BMPInfoHeader) (file row_buf : list Z)
    (src_pixels : list Pixel) :
  accepted fh ih -> dims_in_range ih ->
  Z.of_nat (length row_buf) = row_stride_of ih ->
  Z.of_nat (length src_pixels)
  = Z.abs (BmpToHex.biWidth ih) * Z.abs (BmpToHex.biHeight ih) ->
  0 <= BmpToHex.bfOffBits fh ->
  BmpToHex.bfOffBits fh + Z.abs (BmpToHex.biHeight ih) * row_stride_of ih
  <= Z.of_nat (length file) ->
  let w := Z.abs (BmpToHex.biWidth ih) in
  let h := Z.abs (BmpToHex.biHeight ih) in
  exists buf,
    BmpToHex.read_bitmap fh ih file (Some row_buf) (Some src_pixels)
    = Ok (w, h, buf)
    /\ forall x y, 0 <= x < w -> 0 <= y < h ->
         let k := if BmpToHex.biHeight ih <? 0 then y else h - 1 - y in
         let base := BmpToHex.bfOffBits fh + k * row_stride_of ih + x * 3 in
         BmpToHex.pixel_at buf w x y
         = mkPixel (byte_at file (base + 2)) (byte_at file (base + 1))
                   (byte_at file (base + 0)).
Proof. exact (bitmap_pixel_bytes fh ih file row_buf src_pixels). Qed.

Lemma read_bitmap_pixel_bytes_witness :
  let fh := BmpToHex.Build_BMPFileHeader 0x4D42 70 0 0 3 in
  let ih := BmpToHex.Build_BMPInfoHeader 40 2 2 1 24 0 0 0 0 0 0 in
  let file := [7; 7; 7; 1; 2; 3; 4; 5; 6; 99; 99;
               11; 12; 13; 14; 15; 16; 98; 98] in
  let w := Z.abs (BmpToHex.biWidth ih) in
  let h := Z.abs (BmpToHex.biHeight ih) in
  exists buf,
    BmpToHex.read_bitmap fh ih file (Some (repeat 0 8))
      (Some (repeat (mkPixel 0 0 0) 4))
    = Ok (w, h, buf)
    /\ forall x y, 0 <= x < w -> 0 <= y < h ->
         let k := if BmpToHex.biHeight ih <? 0 then y else h - 1 - y in
         let base := BmpToHex.bfOffBits fh + k * row_stride_of ih + x * 3 in
         BmpToHex.pixel_at buf w x y
         = mkPixel (byte_at file (base + 2)) (byte_at file (base + 1))
                   (byte_at file (base + 0)).
Proof.
  apply (read_bitmap_pixel_bytes
           (BmpToHex.Build_BMPFileHeader 0x4D42 70 0 0 3)
           (BmpToHex.Build_BMPInfoHeader 40 2 2 1 24 0 0 0 0 0 0)).
  - repeat split.
  - unfold dims_in_range, INT_MAX. cbn. lia.
  - reflexivity.
  - reflexivity.
  - cbn. lia.
  - cbn. lia.
Defined.

(** X11. A bitmap file that ends after [k] whole rows, [1 <= k < h], is
    not rejected: the rows that are missing are filled with copies of
    the last row read, because a short [fread] leaves the row buffer
    as it was. *)
Theorem read_bitmap_truncated (fh : BmpToHex.BMPFileHeader)
    (ih : BmpToHex.BMPInfoHeader) (file row_buf : list Z)
    (src_pixels : list Pixel) (k : Z) :
  accepted fh ih -> dims_in_range ih ->
  Z.of_nat (length row_buf) = row_stride_of ih ->
  Z.of_nat (length src_pixels)
  = Z.abs (BmpToHex.biWidth ih) * Z.abs (BmpToHex.biHeight ih) ->
  1 <= k < Z.abs (BmpToHex.biHeight ih) ->
  Z.of_nat (length (BmpToHex.fseek file (BmpToHex.bfOffBits fh)))
  = k * row_stride_of ih ->
  let w := Z.abs (BmpToHex.biWidth ih) in
  let h := Z.abs (BmpToHex.biHeight ih) in
  let row_of j := if BmpToHex.biHeight ih <? 0 then j else h - 1 - j in
  exists buf,
    BmpToHex.read_bitmap fh ih file (Some row_buf) (Some src_pixels)
    = Ok (w, h, buf)
    /\ forall j x, k <= j < h -> 0 <= x < w ->
         BmpToHex.pixel_at buf w x (row_of j)
         = BmpToHex.pixel_at buf w x (row_of (k - 1)).
Proof.
  intros Ha Hr Lrow Lpix Hk Hfile. cbv zeta.
  destruct (read_bitmap_succeeds fh ih file row_buf src_pixels
              Lrow Lpix Ha Hr) as (buf & E & _ & V).
  exists buf. split; [exact E |].
  intros j x Hj Hx.
  pose proof (V j x ltac:(lia) Hx) as Vj.
  pose proof (V (k - 1) x ltac:(lia) Hx) as Vk.
  unfold dst_row_of in Vj, Vk. rewrite Vj, Vk. f_equal.
  pose proof (Z.abs_nonneg (BmpToHex.biWidth ih)) as Hw.
  pose proof (row_stride_bounds (Z.abs (BmpToHex.biWidth ih) * 3)
                ltac:(lia)) as Hs.
  fold (row_stride_of ih) in Hs.
  rewrite (rows_read_short _ (Z.to_nat k) (row_stride_of ih)); try lia.
  f_equal. lia.
Qed.

Lemma read_bitmap_truncated_witness :
  let fh := BmpToHex.Build_BMPFileHeader 0x4D42 70 0 0 3 in
  let ih := BmpToHex.Build_BMPInfoHeader 40 2 3 1 24 0 0 0 0 0 0 in
  let file := [7; 7; 7; 1; 2; 3; 4; 5; 6; 99; 99] in
  let w := Z.abs (BmpToHex.biWidth ih) in
  let h := Z.abs (BmpToHex.biHeight ih) in
  let row_of j := if BmpToHex.biHeight ih <? 0 then j else h - 1 - j in
  exists buf,
    BmpToHex.read_bitmap fh ih file (Some (repeat 0 8))
      (Some (repeat (mkPixel 0 0 0) 6))
    = Ok (w, h, buf)
    /\ forall j x, 1 <= j < h -> 0 <= x < w ->
         BmpToHex.pixel_at buf w x (row_of j)
         = BmpToHex.pixel_at buf w x (row_of (1 - 1)).
Proof.
  apply (read_bitmap_truncated
           (BmpToHex.Build_BMPFileHeader 0x4D42 70 0 0 3)
           (BmpToHex.Build_BMPInfoHeader 40 2 3 1 24 0 0 0 0 0 0)
           [7; 7; 7; 1; 2; 3; 4; 5; 6; 99; 99]
           (repeat 0 8) (repeat (mkPixel 0 0 0) 6) 1).
  - repeat split.
  - unfold dims_in_range, INT_MAX. cbn. lia.
  - reflexivity.
  - reflexivity.
  - cbn. lia.
  - reflexivity.
Defined.

Section HexWriter.

Import HexOut.

Lemma holds_from_sound (P : Z -> bool) (n : nat) (v : Z) :
  holds_from P n v = true ->
  forall f, v <= f < v + Z.of_nat n -> P f = true.
Proof.
  revert v. induction n as [| n IH]; intros v H f Hf; [lia |].
  cbn [holds_from] in H. apply andb_true_iff in H as [H0 H1].
  destruct (Z.eq_dec f v) as [-> | Hne]; [exact H0 |].
  apply (IH (v + 1) H1). lia.
Qed.

Lemma line_checks_all : forall v, 0 <= v < 65536 -> line_checks v = true.
Proof.
  intros v Hv.
  apply (holds_from_sound line_checks (Z.to_nat 65536) 0).
  - vm_compute. reflexivity.
  - rewrite Z2Nat.id; lia.
Qed.

Lemma fprintf_04X_parse (v : Z) :
  is_u16 v -> Convert.parse_rgb565_line (fprintf_04X v) = Some v.
Proof.
  intros H. pose proof (line_checks_all v H) as C.
  unfold line_checks in C. apply andb_true_iff in C as [_ C].
  destruct (Convert.parse_rgb565_line (fprintf_04X v)) as [w |];
    [| discriminate].
  apply Z.eqb_eq in C. congruence.
Qed.

Lemma fprintf_04X_shape (v : Z) :
  is_u16 v -> hex_line_shape (fprintf_04X v) = true.
Proof.
  intros H. pose proof (line_checks_all v H) as C.
  unfold line_checks in C. apply andb_true_iff in C as [C _]. exact C.
Qed.

Lemma upper_xdigit_not_LF (c : ascii) :
  is_upper_xdigit c = true -> Ascii.eqb c LF = false.
Proof.
  intros H. apply Ascii.eqb_neq. intros ->. vm_compute in H. discriminate.
Qed.

(** [fgets] delivers a written line whole. *)
Lemma fgets_hex_line (l rest : list ascii) :
  hex_line_shape l = true -> Convert.fgets 256 (l ++ rest) = Some (l, rest).
Proof.
  intros H.
  destruct l as [| a [| b [| c [| d [| e [| ? ?]]]]]]; try discriminate.
  cbn [hex_line_shape] in H.
  repeat (apply andb_true_iff in H; destruct H as [H ?]).
  cbn [app]. unfold Convert.fgets.
  change (256 - 1)%nat with (S (S (S (S (S 250))))).
  rewrite !fgets_chars_cons.
  rewrite !upper_xdigit_not_LF by assumption.
  match goal with E : Ascii.eqb e LF = true |- _ =>
    rewrite E; apply Ascii.eqb_eq in E; subst e end.
  reflexivity.
Qed.

Lemma is_u16_all_cons (v : Z) (vs : list Z) :
  Forall is_u16 (v :: vs) -> is_u16 v /\ Forall is_u16 vs.
Proof. intros H. inversion H; subst. split; assumption. Qed.

Lemma lines_of_hex_lines (vs : list Z) :
  Forall is_u16 vs -> Convert.lines_of (hex_lines vs) = map fprintf_04X vs.
Proof.
  induction vs as [| v vs IH]; intros H; [reflexivity |].
  apply is_u16_all_cons in H as [Hv Hvs].
  unfold hex_lines. cbn [map concat]. fold (hex_lines vs).
  rewrite (lines_of_step _ _ _
             (fgets_hex_line _ (hex_lines vs) (fprintf_04X_shape v Hv))).
  f_equal. apply IH, Hvs.
Qed.

Lemma values_of_hex_lines (vs : list Z) :
  Forall is_u16 vs -> Convert.values_of_lines (map fprintf_04X vs) = vs.
Proof.
  induction vs as [| v vs IH]; intros H; [reflexivity |].
  apply is_u16_all_cons in H as [Hv Hvs].
  cbn [map Convert.values_of_lines].
  rewrite (fprintf_04X_parse v Hv). f_equal. apply IH, Hvs.
Qed.

Lemma valid_values_hex_lines (vs : list Z) :
  Forall is_u16 vs -> Convert.valid_values (hex_lines vs) = vs.
Proof.
  intros H. unfold Convert.valid_values.
  rewrite (lines_of_hex_lines vs H). apply values_of_hex_lines, H.
Qed.

Lemma packed_of_u16 (p : Pixel) : is_u16 (packed_of p).
Proof.
  unfold packed_of, ColorCodec.to_rgb565, is_u16, u16.
  apply Z.mod_pos_bound. lia.
Qed.

Lemma packed_all_u16 (ps : list Pixel) : Forall is_u16 (map packed_of ps).
Proof.
  induction ps; constructor; [apply packed_of_u16 | assumption].
Qed.

Lemma load_nth_error {A : Type} (a : list A) (i : nat) :
  load a (Z.of_nat i)
  = match nth_error a i with Some x => Ok x | None => Fail Undefined end.
Proof.
  unfold load. destruct (Z.of_nat i <? 0) eqn:E;
    [apply Z.ltb_lt in E; lia |].
  rewrite Nat2Z.id. reflexivity.
Qed.

Lemma skipn_nth_error {A : Type} (l : list A) (k : nat) (p : A) :
  nth_error l k = Some p -> skipn k l = p :: skipn (S k) l.
Proof.
  revert l. induction k as [| k IH]; intros [| q l] E; try discriminate.
  - cbn in E. injection E as ->. reflexivity.
  - cbn [nth_error] in E. change (skipn (S k) (q :: l)) with (skipn k l).
    rewrite (IH l E). reflexivity.
Qed.

(** The inner loop writes the pixels [y * 320 + x ...] when they all
    exist, and is undefined otherwise. *)
Lemma write_cols_spec (n : nat) (x y : nat) (out_pixels : list Pixel) :
  write_cols n (Z.of_nat x) (Z.of_nat y) out_pixels
  = if (y * 320 + x + n <=? length out_pixels)%nat
    then Ok (hex_lines (map packed_of
                          (firstn n (skipn (y * 320 + x) out_pixels))))
    else if (n =? 0)%nat then Ok [] else Fail Undefined.
Proof.
  revert x. induction n as [| n IH]; intros x.
  - cbn [write_cols firstn map]. destruct (_ <=? _)%nat; reflexivity.
  - cbn [write_cols Nat.eqb].
    replace (Z.of_nat y * BmpToHex.OUT_WIDTH + Z.of_nat x)
      with (Z.of_nat (y * 320 + x)) by (unfold BmpToHex.OUT_WIDTH; lia).
    rewrite load_nth_error.
    replace (Z.of_nat x + 1) with (Z.of_nat (S x)) by lia. rewrite IH.
    destruct (nth_error out_pixels (y * 320 + x)) as [p |] eqn:Ep.
    + pose proof (proj1 (nth_error_Some out_pixels (y * 320 + x))
                    ltac:(congruence)) as L.
      cbn [bind].
      assert (Es : skipn (y * 320 + x) out_pixels
                   = p :: skipn (y * 320 + S x) out_pixels)
        by (replace (y * 320 + S x)%nat with (S (y * 320 + x)) by lia;
            apply skipn_nth_error, Ep).
      rewrite Es. cbn [firstn map].
      destruct (y * 320 + S x + n <=? length out_pixels)%nat eqn:E1;
        destruct (y * 320 + x + S n <=? length out_pixels)%nat eqn:E2;
        try (apply Nat.leb_le in E1); try (apply Nat.leb_le in E2);
        try (apply Nat.leb_gt in E1); try (apply Nat.leb_gt in E2);
        try lia.
      * reflexivity.
      * destruct n; [lia |]. reflexivity.
    + apply nth_error_None in Ep. cbn [bind].
      destruct (y * 320 + x + S n <=? length out_pixels)%nat eqn:E2;
        [apply Nat.leb_le in E2; lia | reflexivity].
Qed.

Lemma firstn_plus {A : Type} (a b : nat) (l : list A) :
  firstn (a + b) l = firstn a l ++ firstn b (skipn a l).
Proof.
  revert l. induction a as [| a IH]; intros l; [reflexivity |].
  destruct l as [| x l]; [cbn; rewrite firstn_nil; reflexivity |].
  cbn [Nat.add firstn skipn app]. rewrite IH. reflexivity.
Qed.

Lemma firstn_skipn_add {A : Type} (a b k : nat) (l : list A) :
  firstn a (skipn k l) ++ firstn b (skipn (k + a) l)
  = firstn (a + b) (skipn k l).
Proof.
  rewrite firstn_plus, skipn_skipn.
  replace (a + k)%nat with (k + a)%nat by lia. reflexivity.
Qed.

Lemma hex_lines_app (a b : list Z) :
  hex_lines (a ++ b) = hex_lines a ++ hex_lines b.
Proof. unfold hex_lines. rewrite map_app, concat_app. reflexivity. Qed.

Lemma write_rows_spec (n : nat) (y : nat) (out_pixels : list Pixel) :
  ((y + n) * 320 <= length out_pixels)%nat ->
  write_rows n (Z.of_nat y) out_pixels
  = Ok (hex_lines (map packed_of
                     (firstn (n * 320) (skipn (y * 320) out_pixels)))).
Proof.
  revert y. induction n as [| n IH]; intros y H; [reflexivity |].
  cbn [write_rows].
  change 0 with (Z.of_nat 0). rewrite write_cols_spec.
  change (Z.to_nat BmpToHex.OUT_WIDTH) with 320%nat.
  replace (y * 320 + 0 + 320 <=? length out_pixels)%nat with true
    by (symmetry; apply Nat.leb_le; lia).
  cbn [bind].
  replace (Z.of_nat y + 1) with (Z.of_nat (S y)) by lia.
  rewrite IH by lia. cbn [bind]. f_equal.
  rewrite <- hex_lines_app, <- map_app. do 2 f_equal.
  replace (y * 320 + 0)%nat with (y * 320)%nat by lia.
  replace (S y * 320)%nat with (y * 320 + 320)%nat by lia.
  replace (S n * 320)%nat with (320 + n * 320)%nat by lia.
  apply firstn_skipn_add.
Qed.

Lemma write_rows_short (n : nat) (y : nat) (out_pixels : list Pixel) :
  (length out_pixels < (y + n) * 320)%nat -> (0 < n)%nat ->
  write_rows n (Z.of_nat y) out_pixels = Fail Undefined.
Proof.
  revert y. induction n as [| n IH]; intros y H Hn; [lia |].
  cbn [write_rows].
  change 0 with (Z.of_nat 0). rewrite write_cols_spec.
  change (Z.to_nat BmpToHex.OUT_WIDTH) with 320%nat.
  destruct (y * 320 + 0 + 320 <=? length out_pixels)%nat eqn:E;
    [| reflexivity].
  apply Nat.leb_le in E. cbn [bind].
  replace (Z.of_nat y + 1) with (Z.of_nat (S y)) by lia.
  rewrite IH by lia. reflexivity.
Qed.

Lemma write_hex_spec (out_pixels : list Pixel) :
  write_hex out_pixels
  = if 76800 <=? Z.of_nat (length out_pixels)
    then Ok (hex_lines (map packed_of
                          (firstn (Z.to_nat 76800) out_pixels)))
    else Fail Undefined.
Proof.
  unfold write_hex. change (Z.to_nat BmpToHex.OUT_HEIGHT) with 240%nat.
  change 0 with (Z.of_nat 0).
  replace (Z.to_nat 76800) with (240 * 320)%nat by lia.
  destruct (76800 <=? Z.of_nat (length out_pixels)) eqn:E.
  - apply Z.leb_le in E. rewrite write_rows_spec by lia. reflexivity.
  - apply Z.leb_gt in E. apply write_rows_short; lia.
Qed.

Lemma hex_lines_length (vs : list Z) :
  Forall is_u16 vs -> length (hex_lines vs) = (5 * length vs)%nat.
Proof.
  induction vs as [| v vs IH]; intros H; [reflexivity |].
  apply is_u16_all_cons in H as [Hv Hvs].
  unfold hex_lines. cbn [map concat]. fold (hex_lines vs).
  rewrite length_app, (IH Hvs).
  pose proof (fprintf_04X_shape v Hv) as S.
  destruct (fprintf_04X v) as [| a [| b [| c [| d [| e [| ? ?]]]]]];
    try discriminate.
  cbn [length]. lia.
Qed.

End HexWriter.

Section WholePrograms.

Import BmpToHex.

Lemma write_hex_decodes (out_pixels : list Pixel) :
  76800 <= Z.of_nat (length out_pixels) ->
  let packed := map packed_of (firstn (Z.to_nat 76800) out_pixels) in
  HexOut.write_hex out_pixels = Ok (hex_lines packed)
  /\ Convert.main (hex_lines packed) = Some (Convert.ppm_bytes packed).
Proof.
  intros H packed. rewrite write_hex_spec.
  replace (76800 <=? Z.of_nat (length out_pixels)) with true
    by (symmetry; apply Z.leb_le; exact H).
  split; [reflexivity |].
  assert (V : Convert.valid_values (hex_lines packed) = packed)
    by apply valid_values_hex_lines, packed_all_u16.
  assert (L : length packed = Z.to_nat 76800)
    by (unfold packed; rewrite length_map, length_firstn; lia).
  rewrite main_at_quota; rewrite V; rewrite TOTAL_PIXELS_value.
  - rewrite <- L, firstn_all. reflexivity.
  - rewrite L, Z2Nat.id; lia.
Qed.

(** Without pixels in the source, the first destination pixel already
    reads outside it. *)
Lemma resize_pixel_empty (src_w src_h dst_w : Z)
    (x_scale y_scale : Float32.float) (dst_x dst_y : Z) (dst : list Pixel) :
  resize_pixel [] src_w src_h dst_w x_scale y_scale dst_x dst_y dst
  = Fail Undefined.
Proof.
  unfold resize_pixel, sample_at, Float32.to_int.
  destruct (Float32.trunc _) as [x0 |]; [| reflexivity].
  destruct (_ && _); [| reflexivity]. cbn [bind].
  destruct (Float32.trunc _) as [y0 |]; [| reflexivity].
  destruct (_ && _); [| reflexivity]. cbn [bind s_x0 s_y0].
  assert (E : forall row w col, load_at [] row w col = Fail Undefined).
  { intros row w col. unfold load_at, index, int_of.
    destruct ((INT_MIN <=? row * w) && (row * w <=? INT_MAX));
      cbn [bind]; [| reflexivity].
    destruct ((INT_MIN <=? row * w + col) && (row * w + col <=? INT_MAX));
      cbn [bind]; [| reflexivity].
    unfold load. destruct (row * w + col <? 0); [reflexivity |].
    destruct (Z.to_nat (row * w + col)); reflexivity. }
  rewrite E. reflexivity.
Qed.

Lemma resize_bilinear_empty (dst : list Pixel) (src_w src_h dst_w dst_h : Z) :
  0 < dst_w -> 0 < dst_h -> dst_w * dst_h <= INT_MAX ->
  resize_bilinear (Some dst) [] src_w src_h dst_w dst_h = Fail Undefined.
Proof.
  intros Hw Hh Hm. unfold resize_bilinear, int_of.
  replace ((INT_MIN <=? dst_w * dst_h) && (dst_w * dst_h <=? INT_MAX))
    with true
    by (symmetry; apply andb_true_iff; unfold INT_MIN; split;
        [apply Z.leb_le; nia | apply Z.leb_le; exact Hm]).
  cbn [bind].
  destruct (Z.to_nat dst_h) as [| n] eqn:En; [lia |].
  cbn [resize_rows].
  destruct (Z.to_nat dst_w) as [| m] eqn:Em; [lia |].
  cbn [resize_cols]. rewrite resize_pixel_empty. reflexivity.
Qed.

Lemma main_of_empty (fh : BMPFileHeader) (ih : BMPInfoHeader)
    (file row_buf : list Z) (dst_mem : option (list Pixel)) :
  accepted fh ih -> dims_in_range ih ->
  Z.abs (biWidth ih) * Z.abs (biHeight ih) = 0 ->
  Z.of_nat (length row_buf) = row_stride_of ih ->
  HexOut.main fh ih file (Some row_buf) (Some []) dst_mem
  = Fail (match dst_mem with Some _ => Undefined | None => ResizeFailed end).
Proof.
  intros Ha Hr H0 Lrow.
  destruct (read_bitmap_succeeds fh ih file row_buf [] Lrow
              ltac:(rewrite H0; reflexivity) Ha Hr) as (buf & E & L & _).
  unfold HexOut.main. rewrite E. cbn [bind].
  destruct buf; [| discriminate L].
  unfold resize_step.
  replace ((Z.abs (biWidth ih) =? OUT_WIDTH)
           && (Z.abs (biHeight ih) =? OUT_HEIGHT)) with false.
  2:{ symmetry. apply andb_false_iff. unfold OUT_WIDTH, OUT_HEIGHT.
      destruct (Z.abs (biWidth ih) =? 320) eqn:Ew; [| left; reflexivity].
      right. apply Z.eqb_neq. apply Z.eqb_eq in Ew. nia. }
  destruct dst_mem as [dst |].
  - rewrite resize_bilinear_empty;
      [reflexivity | reflexivity | reflexivity |].
    unfold OUT_WIDTH, OUT_HEIGHT, INT_MAX. lia.
  - reflexivity.
Qed.

Lemma main_of_320x240 (fh : BMPFileHeader) (ih : BMPInfoHeader)
    (file row_buf : list Z) (src_pixels : list Pixel)
    (dst_mem : option (list Pixel)) :
  accepted fh ih ->
  Z.abs (biWidth ih) = 320 -> Z.abs (biHeight ih) = 240 ->
  Z.of_nat (length row_buf) = 960 ->
  Z.of_nat (length src_pixels) = 76800 ->
  exists buf,
    read_bitmap fh ih file (Some row_buf) (Some src_pixels)
    = Ok (320, 240, buf)
    /\ HexOut.main fh ih file (Some row_buf) (Some src_pixels) dst_mem
       = Ok (hex_lines (map packed_of buf))
    /\ Convert.main (hex_lines (map packed_of buf))
       = Some (Convert.ppm_bytes (map packed_of buf)).
Proof.
  intros Ha Hw Hh Lrow Lpix.
  assert (Hr : dims_in_range ih)
    by (unfold dims_in_range, INT_MAX; rewrite Hw, Hh; lia).
  destruct (read_bitmap_succeeds fh ih file row_buf src_pixels
              ltac:(unfold row_stride_of; rewrite Hw; exact Lrow)
              ltac:(rewrite Hw, Hh; exact Lpix) Ha Hr) as (buf & E & L & _).
  rewrite Hw, Hh in E. exists buf. split; [exact E |].
  destruct (write_hex_decodes buf ltac:(lia)) as [W D]. cbv zeta in W, D.
  rewrite firstn_all2 in W, D by lia.
  split; [| exact D].
  unfold HexOut.main. rewrite E. cbn [bind]. exact W.
Qed.

End WholePrograms.

(** X12. A line written by [fprintf (out, "%04X\n", v)] for a 16-bit
    [v] is four upper-case hexadecimal digits and a line feed, and
    [parse_rgb565_line] of convert.c reads [v] back from it. *)
Theorem fprintf_line_parses_back (v : Z) :
  is_u16 v ->
  hex_line_shape (HexOut.fprintf_04X v) = true
  /\ Convert.parse_rgb565_line (HexOut.fprintf_04X v) = Some v.
Proof.
  intros H. split; [apply fprintf_04X_shape | apply fprintf_04X_parse];
    exact H.
Qed.

Lemma fprintf_line_parses_back_witness :
  hex_line_shape (HexOut.fprintf_04X 0x0A5F) = true
  /\ Convert.parse_rgb565_line (HexOut.fprintf_04X 0x0A5F) = Some 0x0A5F.
Proof. apply (fprintf_line_parses_back 0x0A5F). unfold is_u16. lia. Defined.

(** X13. The output loop of bmp_to_hex.c writes one line per pixel for
    the first 76800 pixels of the buffer, row by row, 384000 characters
    in all, and nothing for any pixel beyond them; on a buffer with
    fewer pixels it reads past the end, and no file content is
    defined. *)
Theorem write_hex_output (out_pixels : list Pixel) :
  (76800 <= Z.of_nat (length out_pixels) ->
     HexOut.write_hex out_pixels
     = Ok (hex_lines (map packed_of (firstn (Z.to_nat 76800) out_pixels)))
     /\ Z.of_nat (length (hex_lines
                            (map packed_of
                               (firstn (Z.to_nat 76800) out_pixels))))
        = 384000)
  /\ (Z.of_nat (length out_pixels) < 76800 ->
        HexOut.write_hex out_pixels = Fail Undefined).
Proof.
  rewrite write_hex_spec. split; intros H.
  - replace (76800 <=? Z.of_nat (length out_pixels)) with true
      by (symmetry; apply Z.leb_le; exact H).
    split; [reflexivity |].
    rewrite hex_lines_length by apply packed_all_u16.
    rewrite length_map, length_firstn. lia.
  - replace (76800 <=? Z.of_nat (length out_pixels)) with false
      by (symmetry; apply Z.leb_gt; exact H).
    reflexivity.
Qed.

(** X14. convert.c undoes the text format of bmp_to_hex.c: run on the
    hex file written for a pixel buffer, it outputs for each of the
    76800 pixels the expansion of that pixel's packed value, in the
    same order, and never has to fill in. *)
Theorem hex_file_decodes (out_pixels : list Pixel) :
  76800 <= Z.of_nat (length out_pixels) ->
  let packed := map packed_of (firstn (Z.to_nat 76800) out_pixels) in
  HexOut.write_hex out_pixels = Ok (hex_lines packed)
  /\ Convert.main (hex_lines packed) = Some (Convert.ppm_bytes packed).
Proof. exact (write_hex_decodes out_pixels). Qed.

Lemma hex_file_decodes_witness :
  let out_pixels := repeat (mkPixel 200 100 50) (Z.to_nat 76800) in
  let packed := map packed_of (firstn (Z.to_nat 76800) out_pixels) in
  HexOut.write_hex out_pixels = Ok (hex_lines packed)
  /\ Convert.main (hex_lines packed) = Some (Convert.ppm_bytes packed).
Proof.
  apply (hex_file_decodes (repeat (mkPixel 200 100 50) (Z.to_nat 76800))).
  rewrite repeat_length, Z2Nat.id; lia.
Defined.

(** X15. The two programs composed on a 320x240 bitmap: bmp_to_hex.c
    writes the hex lines of the packed pixels of the buffer it read,
    without resizing and whatever the third allocation returns, and
    convert.c turns that file into the expansion of the same packed
    values, pixel for pixel. *)
Theorem bitmap_320x240_end_to_end (fh : BmpToHex.BMPFileHeader)
    (ih : BmpToHex.BMPInfoHeader) (file row_buf : list Z)
    (src_pixels : list Pixel) (dst_mem : option (list Pixel)) :
  accepted fh ih ->
  Z.abs (BmpToHex.biWidth ih) = 320 -> Z.abs (BmpToHex.biHeight ih) = 240 ->
  Z.of_nat (length row_buf) = 960 ->
  Z.of_nat (length src_pixels) = 76800 ->
  exists buf,
    BmpToHex.read_bitmap fh ih file (Some row_buf) (Some src_pixels)
    = Ok (320, 240, buf)
    /\ HexOut.main fh ih file (Some row_buf) (Some src_pixels) dst_mem
       = Ok (hex_lines (map packed_of buf))
    /\ Convert.main (hex_lines (map packed_of buf))
       = Some (Convert.ppm_bytes (map packed_of buf)).
Proof. exact (main_of_320x240 fh ih file row_buf src_pixels dst_mem). Qed.

Lemma bitmap_320x240_end_to_end_witness :
  let fh := BmpToHex.Build_BMPFileHeader 0x4D42 230454 0 0 54 in
  let ih := BmpToHex.Build_BMPInfoHeader 40 320 (-240) 1 24 0 0 0 0 0 0 in
  let file := repeat 7 (Z.to_nat 230454) in
  let row_buf := repeat 0 (Z.to_nat 960) in
  let src_pixels := repeat px0 (Z.to_nat 76800) in
  exists buf,
    BmpToHex.read_bitmap fh ih file (Some row_buf) (Some src_pixels)
    = Ok (320, 240, buf)
    /\ HexOut.main fh ih file (Some row_buf) (Some src_pixels) None
       = Ok (hex_lines (map packed_of buf))
    /\ Convert.main (hex_lines (map packed_of buf))
       = Some (Convert.ppm_bytes (map packed_of buf)).
Proof.
  apply (bitmap_320x240_end_to_end
           (BmpToHex.Build_BMPFileHeader 0x4D42 230454 0 0 54)
           (BmpToHex.Build_BMPInfoHeader 40 320 (-240) 1 24 0 0 0 0 0 0)).
  - repeat split.
  - reflexivity.
  - reflexivity.
  - rewrite repeat_length, Z2Nat.id; lia.
  - rewrite repeat_length, Z2Nat.id; lia.
Defined.

(** X16. A bitmap whose header declares a zero width or a zero height
    passes the header checks but never yields a hex file: the resize is
    entered with an empty source, and either its allocation fails or
    its first pixel reads outside the source. *)
Theorem empty_bitmap_no_output (fh : BmpToHex.BMPFileHeader)
    (ih : BmpToHex.BMPInfoHeader) (file row_buf : list Z)
    (dst_mem : option (list Pixel)) :
  accepted fh ih -> dims_in_range ih ->
  Z.abs (BmpToHex.biWidth ih) * Z.abs (BmpToHex.biHeight ih) = 0 ->
  Z.of_nat (length row_buf) = row_stride_of ih ->
  HexOut.main fh ih file (Some row_buf) (Some []) dst_mem
  = Fail (match dst_mem with Some _ => Undefined | None => ResizeFailed end).
Proof. exact (main_of_empty fh ih file row_buf dst_mem). Qed.

Lemma empty_bitmap_no_output_witness :
  HexOut.main (BmpToHex.Build_BMPFileHeader 0x4D42 54 0 0 54)
    (BmpToHex.Build_BMPInfoHeader 40 0 5 1 24 0 0 0 0 0 0)
    [] (Some []) (Some []) (Some (repeat px0 (Z.to_nat 76800)))
  = Fail Undefined.
Proof.
  apply (empty_bitmap_no_output
           (BmpToHex.Build_BMPFileHeader 0x4D42 54 0 0 54)
           (BmpToHex.Build_BMPInfoHeader 40 0 5 1 24 0 0 0 0 0 0)
           [] [] (Some (repeat px0 (Z.to_nat 76800)))).
  - repeat split.
  - unfold dims_in_range, INT_MAX. cbn. lia.
  - reflexivity.
  - reflexivity.
Defined.

Section ExactArithmetic.

Lemma pow2_pos (a : Z) : 0 <= a -> 0 < 2 ^ a.
Proof. intros H. apply Z.pow_pos_nonneg; lia. Qed.

Lemma pow2_split (a b : Z) : 0 <= a -> 0 <= b -> 2 ^ (a + b) = 2 ^ a * 2 ^ b.
Proof. intros. apply Z.pow_add_r; assumption. Qed.

Lemma pow2_lt_inv (a b : Z) : 0 <= a -> 0 <= b -> 2 ^ a < 2 ^ b -> a < b.
Proof. intros Ha Hb H. apply (Z.pow_lt_mono_r_iff 2); lia. Qed.

(** Two 24-digit mantissas of the same integer are the same datum. *)
Lemma holds_int_unique (f g : spec_float) (n : Z) :
  holds_int f n -> holds_int g n -> f = g.
Proof.
  destruct f as [s | | | s m e], g as [s' | | | s' m' e']; cbn;
    try contradiction.
  - intros [-> _] [-> _]. reflexivity.
  - intros [_ ->] (_ & _ & He & Hm). lia.
  - intros (_ & _ & He & Hm) [_ ->]. lia.
  - intros (-> & Dm & He & Hm) (-> & Dm' & He' & Hm').
    pose proof (digits2_bounds m) as B. pose proof (digits2_bounds m') as B'.
    rewrite Dm in B. rewrite Dm' in B'.
    change (2 ^ (24 - 1)) with 8388608 in *.
    change (2 ^ 24) with 16777216 in *.
    assert (Hn : 0 < n).
    { destruct (Z.lt_ge_cases 0 n) as [H | H]; [exact H |].
      pose proof (pow2_pos (- e) ltac:(lia)). nia. }
    assert (Ee : e = e').
    { destruct (Z.lt_trichotomy e e') as [H | [H | H]]; [| exact H |].
      - exfalso.
        assert (E : 2 ^ (- e) = 2 ^ (- e') * 2 ^ (e' - e))
          by (rewrite <- pow2_split by lia; f_equal; lia).
        assert (2 <= 2 ^ (e' - e))
          by (change 2 with (2 ^ 1) at 1; apply Z.pow_le_mono_r; lia).
        pose proof (pow2_pos (- e') ltac:(lia)). nia.
      - exfalso.
        assert (E : 2 ^ (- e') = 2 ^ (- e) * 2 ^ (e - e'))
          by (rewrite <- pow2_split by lia; f_equal; lia).
        assert (2 <= 2 ^ (e - e'))
          by (change 2 with (2 ^ 1) at 1; apply Z.pow_le_mono_r; lia).
        pose proof (pow2_pos (- e) ltac:(lia)). nia. }
    subst e'. f_equal. lia.
Qed.

(** Shifting out zero bits leaves an exact record. *)
Lemma shr_1_even (m : Z) :
  0 <= m ->
  shr_1 (Build_shr_record (2 * m) false false)
  = Build_shr_record m false false.
Proof. intros H. destruct m as [| p | p]; [reflexivity | reflexivity | lia]. Qed.

Lemma iter_shr_1_exact (p : positive) (m : Z) :
  0 <= m ->
  SpecFloat.iter_pos shr_1 p (Build_shr_record (m * 2 ^ Zpos p) false false)
  = Build_shr_record m false false.
Proof.
  revert m. induction p as [p IH | p IH |]; intros m Hm;
    cbn [SpecFloat.iter_pos].
  - replace (m * 2 ^ Zpos p~1) with (2 * ((m * 2 ^ Zpos p) * 2 ^ Zpos p)).
    + rewrite shr_1_even
        by (pose proof (pow2_pos (Zpos p) ltac:(lia)); nia).
      rewrite IH by (pose proof (pow2_pos (Zpos p) ltac:(lia)); nia).
      apply IH, Hm.
    + change (Zpos p~1) with (2 * Zpos p + 1). rewrite pow2_split by lia.
      change (2 ^ 1) with 2.
      replace (2 * Zpos p) with (Zpos p + Zpos p) by lia.
      rewrite pow2_split by lia. ring.
  - replace (m * 2 ^ Zpos p~0) with ((m * 2 ^ Zpos p) * 2 ^ Zpos p).
    + rewrite IH by (pose proof (pow2_pos (Zpos p) ltac:(lia)); nia).
      apply IH, Hm.
    + change (Zpos p~0) with (2 * Zpos p).
      replace (2 * Zpos p) with (Zpos p + Zpos p) by lia.
      rewrite pow2_split by lia. ring.
  - change (2 ^ 1) with 2. rewrite Z.mul_comm. apply shr_1_even, Hm.
Qed.

(** Rounding a mantissa whose digits beyond the 24th are all zero: the
    mantissa is shortened, nothing is lost. *)
Lemma binary_round_aux_shift (mx m0 : positive) (j ex : Z) :
  Zpos (digits2_pos m0) = 24 -> 0 <= j -> Zpos mx = Zpos m0 * 2 ^ j ->
  -149 <= ex + j <= 104 ->
  binary_round_aux 24 128 false (Zpos mx) ex loc_Exact
  = S754_finite false m0 (ex + j).
Proof.
  intros Dm Hj Hmx He.
  destruct (Z.eq_dec j 0) as [-> | Hj0].
  - assert (mx = m0) by (rewrite Z.mul_1_r in Hmx; congruence). subst mx.
    rewrite Z.add_0_r in *. apply binary_round_aux_exact; assumption.
  - assert (Dx : Zpos (digits2_pos mx) = 24 + j).
    { apply digits2_unique; [lia |].
      pose proof (digits2_bounds m0) as B. rewrite Dm in B.
      pose proof (pow2_pos j Hj) as P.
      replace (24 + j - 1) with (24 - 1 + j) by lia.
      rewrite !pow2_split by lia. nia. }
    unfold binary_round_aux, shr_fexp.
    change (Zdigits2 (Zpos mx)) with (Zpos (digits2_pos mx)).
    rewrite Dx, (fexp_normal (24 + j + ex)) by lia.
    replace (24 + j + ex - 24 - ex) with j by lia.
    destruct j as [| p | p]; try lia.
    cbn [shr shr_record_of_loc]. rewrite Hmx, iter_shr_1_exact by lia.
    cbn [shr_m loc_of_shr_record round_nearest_even].
    change (Zdigits2 (Zpos m0)) with (Zpos (digits2_pos m0)).
    rewrite Dm, (fexp_normal (24 + (ex + Zpos p))) by lia.
    replace (24 + (ex + Zpos p) - 24 - (ex + Zpos p)) with 0 by lia.
    cbn [shr shr_record_of_loc shr_m].
    destruct (ex + Zpos p <=? 128 - 24) eqn:E; [reflexivity |].
    apply Z.leb_gt in E. lia.
Qed.

(** Every integer in [1, 2^24) has a 24-digit mantissa. *)
Lemma mantissa_of (n : Z) :
  1 <= n < 2 ^ 24 ->
  exists (m : positive) (e : Z),
    Zpos (digits2_pos m) = 24 /\ -23 <= e <= 0 /\ Zpos m = n * 2 ^ (- e).
Proof.
  intros Hn. destruct n as [| p | p]; try lia.
  pose proof (digits2_between p 0 24 ltac:(lia) ltac:(lia)) as Hd.
  pose proof (digits2_bounds p) as Bp.
  set (d := Zpos (digits2_pos p)) in *.
  pose proof (pow2_pos (24 - d) ltac:(lia)) as P.
  exists (Z.to_pos (Zpos p * 2 ^ (24 - d))), (d - 24).
  rewrite Z2Pos.id by nia.
  replace (- (d - 24)) with (24 - d) by lia.
  split; [| split; [lia | reflexivity]].
  apply digits2_unique; [lia |]. rewrite Z2Pos.id by nia.
  assert (2 ^ (24 - 1) = 2 ^ (d - 1) * 2 ^ (24 - d))
    by (rewrite <- pow2_split by lia; f_equal; lia).
  assert (2 ^ 24 = 2 ^ d * 2 ^ (24 - d))
    by (rewrite <- pow2_split by lia; f_equal; lia).
  nia.
Qed.

Lemma of_int_holds (n : Z) :
  0 <= n < 2 ^ 24 -> holds_int (Float32.of_int n) n.
Proof.
  intros Hn. destruct (Z.eq_dec n 0) as [-> | Hn0].
  - cbn. split; reflexivity.
  - destruct (of_int_exact n ltac:(lia)) as [(m & e & E & Dm & He) V].
    rewrite E in *. cbn [holds_int]. split; [reflexivity |].
    split; [exact Dm |]. split; [exact He |].
    cbn [F2R] in V.
    apply eq_IZR.
    rewrite mult_IZR, <- bpow_IZR by lia.
    rewrite <- V, Rmult_assoc, <- bpow_add.
    replace (e + - e) with 0 by lia. unfold bpow. cbn [powerRZ].
    rewrite Rmult_1_r. reflexivity.
Qed.

(** The datum of an integer, from any datum that holds it. *)
Lemma holds_int_of_int (f : spec_float) (n : Z) :
  0 <= n < 2 ^ 24 -> holds_int f n -> f = Float32.of_int n.
Proof.
  intros Hn H. apply (holds_int_unique _ _ n H), of_int_holds, Hn.
Qed.

Lemma holds_int_nonneg (f : spec_float) (n : Z) : holds_int f n -> 0 <= n.
Proof.
  destruct f as [s | | | s m e]; cbn; try contradiction.
  - intros [_ ->]. lia.
  - intros (_ & _ & He & Hm).
    pose proof (pow2_pos (- e) ltac:(lia)). nia.
Qed.

(** Products below [2^24] are exact. *)
Lemma mul_holds (f g : spec_float) (a b : Z) :
  holds_int f a -> holds_int g b -> a * b < 2 ^ 24 ->
  holds_int (Float32.mul f g) (a * b).
Proof.
  intros Hf Hg Hab.
  destruct f as [s | | | s ma ea]; cbn [holds_int] in Hf; try contradiction;
    destruct g as [s' | | | s' mb eb]; cbn [holds_int] in Hg;
    try contradiction.
  - destruct Hf as [-> ->], Hg as [-> ->]. cbn. split; reflexivity.
  - destruct Hf as [-> ->], Hg as (-> & _). cbn. split; reflexivity.
  - destruct Hf as (-> & _), Hg as [-> ->]. cbn. split; [reflexivity | lia].
  - destruct Hf as (-> & Da & Hea & Ha), Hg as (-> & Db & Heb & Hb).
    pose proof (digits2_bounds ma) as Ba. rewrite Da in Ba.
    pose proof (digits2_bounds mb) as Bb. rewrite Db in Bb.
    change (2 ^ (24 - 1)) with 8388608 in *.
    change (2 ^ 24) with 16777216 in *.
    pose proof (pow2_pos (- ea) ltac:(lia)) as Pa.
    pose proof (pow2_pos (- eb) ltac:(lia)) as Pb.
    assert (Hp : 1 <= a * b < 2 ^ 24)
      by (change (2 ^ 24) with 16777216; nia).
    destruct (mantissa_of (a * b) Hp) as (m0 & e0 & D0 & He0 & Hm0).
    pose proof (digits2_bounds m0) as B0. rewrite D0 in B0.
    change (2 ^ (24 - 1)) with 8388608 in *.
    change (2 ^ 24) with 16777216 in *.
    pose proof (pow2_pos (- e0) ltac:(lia)) as P0.
    (* ma * mb = a b 2^(-ea-eb) = m0 2^(-ea-eb+e0) *)
    assert (Hj : 0 <= - ea - eb + e0).
    { destruct (Z.lt_ge_cases (- ea - eb + e0) 0) as [H | H]; [| exact H].
      exfalso.
      assert (E : 2 ^ (- e0) = 2 ^ (- ea - eb) * 2 ^ (ea + eb - e0))
        by (rewrite <- pow2_split by lia; f_equal; lia).
      assert (E2 : 2 ^ (- ea - eb) = 2 ^ (- ea) * 2 ^ (- eb))
        by (rewrite <- pow2_split by lia; f_equal; lia).
      assert (2 <= 2 ^ (ea + eb - e0))
        by (change 2 with (2 ^ 1) at 1; apply Z.pow_le_mono_r; lia).
      assert (Zpos m0 = Zpos ma * Zpos mb * 2 ^ (ea + eb - e0)) by nia.
      nia. }
    assert (Hx : Zpos (ma * mb) = Zpos m0 * 2 ^ (- ea - eb + e0)).
    { rewrite Pos2Z.inj_mul, Ha, Hb, Hm0.
      replace (- ea - eb + e0) with ((- ea) + (- eb) - (- e0)) by lia.
      assert (E : 2 ^ (- ea) * 2 ^ (- eb)
                  = 2 ^ (- e0) * 2 ^ (- ea + - eb - - e0))
        by (rewrite <- !pow2_split by lia; f_equal; lia).
      nia. }
    unfold Float32.mul, SFmul, Float32.prec, Float32.emax. cbn [xorb].
    rewrite (binary_round_aux_shift (ma * mb) m0 (- ea - eb + e0) (ea + eb)
               D0 Hj Hx) by lia.
    cbn [holds_int]. replace (ea + eb + (- ea - eb + e0)) with e0 by lia.
    repeat split; try assumption; lia.
Qed.

Lemma holds_int_bound (f : spec_float) (n : Z) :
  holds_int f n -> 0 <= n < 2 ^ 24.
Proof.
  intros H. split; [apply (holds_int_nonneg f n H) |].
  destruct f as [s | | | s m e]; cbn in H; try contradiction.
  - destruct H as [_ ->]. reflexivity.
  - destruct H as (_ & Dm & He & Hm).
    pose proof (digits2_bounds m) as B. rewrite Dm in B.
    pose proof (pow2_pos (- e) ltac:(lia)). nia.
Qed.

(** A quotient that is an integer is exact. *)
Lemma div_holds (f g : spec_float) (k D : Z) :
  holds_int f (k * D) -> holds_int g D -> 1 <= k -> 1 <= D ->
  holds_int (Float32.div f g) k.
Proof.
  intros Hf Hg Hk HD.
  pose proof (holds_int_bound _ _ Hf) as BN.
  destruct f as [s | | | s ma ea]; cbn [holds_int] in Hf; try contradiction;
    [destruct Hf as [_ Hf]; nia |].
  destruct g as [s' | | | s' mb eb]; cbn [holds_int] in Hg;
    try contradiction; [destruct Hg as [_ Hg]; lia |].
  destruct Hf as (-> & Da & Hea & Ha), Hg as (-> & Db & Heb & Hb).
  unfold Float32.div, SFdiv, SFdiv_core_binary, Float32.prec, Float32.emax.
  cbn [xorb].
  change (Zdigits2 (Zpos ma)) with (Zpos (digits2_pos ma)).
  change (Zdigits2 (Zpos mb)) with (Zpos (digits2_pos mb)).
  rewrite Da, Db.
  replace (24 + ea - (24 + eb)) with (ea - eb) by lia.
  rewrite (fexp_normal (ea - eb)) by lia.
  rewrite (Z.min_l (ea - eb - 24)) by lia.
  replace (ea - eb - (ea - eb - 24)) with 24 by lia.
  pose proof (digits2_bounds ma) as Ba. rewrite Da in Ba.
  pose proof (digits2_bounds mb) as Bb. rewrite Db in Bb.
  rewrite Z.shiftl_mul_pow2 by lia.
  change (2 ^ (24 - 1)) with 8388608 in *. change (2 ^ 24) with 16777216 in *.
  set (t := 24 - ea + eb).
  pose proof (pow2_pos (- ea) ltac:(lia)) as Pa.
  pose proof (pow2_pos (- eb) ltac:(lia)) as Pb.
  pose proof (pow2_pos t ltac:(unfold t; lia)) as Pt.
  assert (Em : Zpos ma * 16777216 = k * 2 ^ t * Zpos mb).
  { rewrite Ha, Hb.
    assert (E : 2 ^ (- ea) * 16777216 = 2 ^ t * 2 ^ (- eb)).
    { change 16777216 with (2 ^ 24).
      rewrite <- !pow2_split by (unfold t; lia). f_equal. unfold t. lia. }
    nia. }
  assert (Eqr : Z.div_eucl (Zpos ma * 16777216) (Zpos mb)
                = (k * 2 ^ t, 0)).
  { pose proof (Z.div_mul (k * 2 ^ t) (Zpos mb) ltac:(lia)) as Q.
    pose proof (Z.mod_mul (k * 2 ^ t) (Zpos mb) ltac:(lia)) as R.
    rewrite <- Em in Q, R. unfold Z.div, Z.modulo in Q, R.
    destruct (Z.div_eucl (Zpos ma * 16777216) (Zpos mb)) as [q r].
    congruence. }
  rewrite Eqr.
  assert (El : new_location (Zpos mb) 0 = loc_Exact)
    by (unfold new_location, new_location_even, new_location_odd;
        destruct (Z.even (Zpos mb)); reflexivity).
  rewrite El.
  destruct (mantissa_of k ltac:(change (2 ^ 24) with 16777216 in *; nia))
    as (m0 & e0 & D0 & He0 & Hm0).
  pose proof (digits2_bounds m0) as B0. rewrite D0 in B0.
  change (2 ^ (24 - 1)) with 8388608 in *. change (2 ^ 24) with 16777216 in *.
  pose proof (pow2_pos (- e0) ltac:(lia)) as P0.
  assert (Bq : 8388608 <= k * 2 ^ t) by nia.
  assert (Hj : 0 <= t + e0).
  { destruct (Z.lt_ge_cases (t + e0) 0) as [H | H]; [| exact H].
    exfalso.
    assert (E : 2 ^ (- e0) = 2 ^ t * 2 ^ (- e0 - t))
      by (rewrite <- pow2_split by lia; f_equal; lia).
    assert (2 <= 2 ^ (- e0 - t))
      by (change 2 with (2 ^ 1) at 1; apply Z.pow_le_mono_r; lia).
    nia. }
  destruct (k * 2 ^ t) as [| pq | pq] eqn:Epq; try lia.
  assert (Hx : Zpos pq = Zpos m0 * 2 ^ (t + e0)).
  { rewrite <- Epq, Hm0.
    assert (E : 2 ^ t = 2 ^ (- e0) * 2 ^ (t + e0))
      by (rewrite <- pow2_split by lia; f_equal; lia).
    rewrite E. ring. }
  rewrite (binary_round_aux_shift pq m0 (t + e0) (ea - eb - 24) D0 Hj Hx)
    by (unfold t; lia).
  cbn [holds_int]. replace (ea - eb - 24 + (t + e0)) with e0
    by (unfold t; lia).
  repeat split; try assumption; lia.
Qed.

Lemma trunc_holds (f : spec_float) (n : Z) :
  holds_int f n -> Float32.trunc f = Some n.
Proof.
  destruct f as [s | | | s m e]; cbn [holds_int]; try contradiction.
  - intros [_ ->]. reflexivity.
  - intros (-> & _ & He & Hm). cbn [Float32.trunc].
    destruct (0 <=? e) eqn:E.
    + apply Z.leb_le in E. assert (e = 0) by lia. subst e.
      change (2 ^ (- 0)) with 1 in Hm. change (2 ^ 0) with 1.
      f_equal. lia.
    + rewrite Hm, Z.div_mul by (pose proof (pow2_pos (- e) ltac:(lia)); lia).
      reflexivity.
Qed.

Lemma to_int_holds (f : spec_float) (n : Z) :
  holds_int f n -> Float32.to_int f = Ok n.
Proof.
  intros H. pose proof (holds_int_bound f n H) as B.
  change (2 ^ 24) with 16777216 in B.
  unfold Float32.to_int. rewrite (trunc_holds f n H).
  unfold INT_MIN, INT_MAX.
  replace ((- 2 ^ 31 <=? n) && (n <=? 2 ^ 31 - 1)) with true; [reflexivity |].
  symmetry. apply andb_true_iff. split; apply Z.leb_le; lia.
Qed.

Lemma to_u8_holds (f : spec_float) (n : Z) :
  holds_int f n -> n <= 255 -> Float32.to_u8 f = Ok n.
Proof.
  intros H Hn. pose proof (holds_int_nonneg f n H) as B.
  unfold Float32.to_u8. rewrite (trunc_holds f n H).
  replace ((0 <=? n) && (n <=? 255)) with true; [reflexivity |].
  symmetry. apply andb_true_iff. split; apply Z.leb_le; lia.
Qed.

(** A datum minus itself is positive zero. *)
Lemma sub_self (f : spec_float) (n : Z) :
  holds_int f n -> Float32.sub f f = S754_zero false.
Proof.
  destruct f as [s | | | s m e]; cbn [holds_int]; try contradiction.
  - intros [-> _]. reflexivity.
  - intros (-> & _). unfold Float32.sub, SFsub. cbn [cond_Zopp].
    rewrite Z.sub_diag. reflexivity.
Qed.

Lemma mul_zero_r (f : spec_float) (n : Z) :
  holds_int f n -> Float32.mul f (S754_zero false) = S754_zero false.
Proof.
  destruct f as [s | | | s m e]; cbn [holds_int]; try contradiction.
  - intros [-> _]. reflexivity.
  - intros (-> & _). reflexivity.
Qed.

Lemma mul_zero_l (f : spec_float) (n : Z) :
  holds_int f n -> Float32.mul (S754_zero false) f = S754_zero false.
Proof.
  destruct f as [s | | | s m e]; cbn [holds_int]; try contradiction.
  - intros [-> _]. reflexivity.
  - intros (-> & _). reflexivity.
Qed.

Lemma mul_one_r (f : spec_float) (n : Z) :
  holds_int f n -> Float32.mul f (Float32.of_int 1) = f.
Proof.
  intros H. pose proof (holds_int_bound f n H) as B.
  apply (holds_int_unique _ _ n); [| exact H].
  pose proof (mul_holds f (Float32.of_int 1) n 1 H
                (of_int_holds 1 ltac:(lia)) ltac:(lia)) as M.
  rewrite Z.mul_1_r in M. exact M.
Qed.

Lemma add_zero_r (f : spec_float) (n : Z) :
  holds_int f n -> Float32.add f (S754_zero false) = f.
Proof.
  destruct f as [s | | | s m e]; cbn [holds_int]; try contradiction.
  - intros [-> _]. reflexivity.
  - intros _. reflexivity.
Qed.

(** A sample that falls on a source pixel: both weights are zero and
    the blend is the channel of that pixel, untouched by rounding. *)
Lemma blend_on_grid (c00 c10 c01 c11 : Z) :
  is_u8 c00 -> is_u8 c10 -> is_u8 c01 -> is_u8 c11 ->
  BmpToHex.blend c00 c10 c01 c11 (S754_zero false) (S754_zero false)
  = Ok c00.
Proof.
  unfold is_u8. intros H00 H10 H01 H11. unfold BmpToHex.blend. cbv zeta.
  assert (B : forall c, 0 <= c < 256 -> holds_int (Float32.of_int c) c)
    by (intros c Hc; apply of_int_holds; change (2 ^ 24) with 16777216; lia).
  change (Float32.sub (Float32.of_int 1) (S754_zero false))
    with (Float32.of_int 1).
  rewrite !(mul_one_r _ c00 (B c00 H00)).
  rewrite (mul_zero_r _ c10 (B c10 H10)).
  rewrite (mul_one_r _ c01 (B c01 H01)).
  rewrite (mul_zero_r _ c01 (B c01 H01)).
  rewrite (mul_zero_r _ c11 (B c11 H11)).
  change (Float32.mul (S754_zero false) (Float32.of_int 1))
    with (S754_zero false).
  change (Float32.mul (S754_zero false) (S754_zero false))
    with (S754_zero false).
  rewrite !(add_zero_r _ c00 (B c00 H00)).
  apply to_u8_holds; [apply B, H00 | lia].
Qed.

End ExactArithmetic.

Section Decimation.

Import BmpToHex.

Lemma of_int_small (n : Z) :
  0 <= n < 16777216 -> holds_int (Float32.of_int n) n.
Proof. intros H. apply of_int_holds. change (2 ^ 24) with 16777216. lia. Qed.

(** The scale of an integer reduction factor is that integer. *)
Lemma x_scale_of_multiple (k D : Z) :
  1 <= k -> 1 <= D -> k * D < 16777216 ->
  x_scale_of (k * D) D = Float32.of_int k.
Proof.
  intros Hk HD Hm. unfold x_scale_of.
  apply holds_int_of_int; [change (2 ^ 24) with 16777216; nia |].
  apply (div_holds _ _ k D); try assumption; apply of_int_small; nia.
Qed.

Lemma coordinate_on_grid (k x : Z) :
  1 <= k < 16777216 -> 0 <= x -> k * x < 16777216 ->
  let src_xf := Float32.mul (Float32.of_int x) (Float32.of_int k) in
  Float32.to_int src_xf = Ok (k * x)
  /\ Float32.sub src_xf (Float32.of_int (k * x)) = S754_zero false.
Proof.
  intros Hk Hx Hm src_xf.
  assert (H : holds_int src_xf (k * x)).
  { unfold src_xf. rewrite (Z.mul_comm k x).
    apply mul_holds; [apply of_int_small; nia | apply of_int_small; nia |].
    change (2 ^ 24) with 16777216. lia. }
  split; [apply to_int_holds, H |].
  rewrite <- (holds_int_of_int src_xf (k * x));
    [apply (sub_self _ _ H) | change (2 ^ 24) with 16777216; nia | exact H].
Qed.

Lemma sample_on_grid (k l src_w src_h x y : Z) :
  1 <= k < 16777216 -> 1 <= l < 16777216 -> 0 <= x -> 0 <= y ->
  k * x < 16777216 -> l * y < 16777216 ->
  sample_at src_w src_h (Float32.of_int k) (Float32.of_int l) x y
  = Ok (mkSample (k * x) (l * y)
          (if k * x + 1 <? src_w then k * x + 1 else k * x)
          (if l * y + 1 <? src_h then l * y + 1 else l * y)
          (S754_zero false) (S754_zero false)).
Proof.
  intros Hk Hl Hx Hy Hkx Hly. unfold sample_at.
  destruct (coordinate_on_grid k x Hk Hx Hkx) as [Ex Dx].
  destruct (coordinate_on_grid l y Hl Hy Hly) as [Ey Dy].
  cbv zeta in Ex, Dx, Ey, Dy.
  rewrite Ex, Ey. cbn [bind]. rewrite Dx, Dy. reflexivity.
Qed.

Lemma byte_pixel_at (src : list Pixel) (i : Z) :
  Forall byte_pixel src -> 0 <= i < Z.of_nat (length src) ->
  byte_pixel (at_index src i).
Proof.
  intros H Hi. unfold at_index.
  apply Forall_nth; [exact H | lia].
Qed.

Lemma pixel_eta (p q : Pixel) :
  set_b (px_b p) (set_g (px_g p) (set_r (px_r p) q)) = p.
Proof. destruct p, q. reflexivity. Qed.

(** A subscript that is not negative and does not exceed [INT_MAX]. *)
Lemma index_small (row w col : Z) :
  0 <= row * w -> 0 <= col -> row * w + col <= INT_MAX ->
  index row w col = Ok (row * w + col).
Proof.
  intros Hr Hc Hm. unfold index, int_of, INT_MIN, INT_MAX in *.
  change (2 ^ 31 - 1) with 2147483647 in *.
  change (- 2 ^ 31) with (-2147483648).
  replace ((-2147483648 <=? row * w) && (row * w <=? 2147483647)) with true
    by (symmetry; apply andb_true_iff; split; apply Z.leb_le; lia).
  cbn [bind].
  replace ((-2147483648 <=? row * w + col)
           && (row * w + col <=? 2147483647)) with true
    by (symmetry; apply andb_true_iff; split; apply Z.leb_le; lia).
  reflexivity.
Qed.

(** One destination pixel of a reduction by integer factors. *)
Lemma resize_pixel_on_grid (src dst : list Pixel)
    (k l src_w src_h dst_w x y : Z) :
  1 <= k < 16777216 -> 1 <= l < 16777216 -> 0 <= x -> 0 <= y ->
  k * x < src_w -> l * y < src_h ->
  src_w < 16777216 -> src_h < 16777216 ->
  src_w * src_h <= INT_MAX ->
  Forall byte_pixel src -> Z.of_nat (length src) = src_w * src_h ->
  0 <= dst_w -> Z.of_nat (length dst) <= INT_MAX ->
  0 <= y * dst_w + x < Z.of_nat (length dst) ->
  exists dst',
    resize_pixel src src_w src_h dst_w (Float32.of_int k) (Float32.of_int l)
      x y dst = Ok dst'
    /\ length dst' = length dst
    /\ at_index dst' (y * dst_w + x) = at_index src (l * y * src_w + k * x)
    /\ (forall j, 0 <= j -> j <> y * dst_w + x ->
          at_index dst' j = at_index dst j).
Proof.
  intros Hk Hl Hx Hy Hkx Hly Hw Hh Hmax Hsrc Lsrc Hdw Hdmax Hi.
  unfold resize_pixel.
  rewrite (sample_on_grid k l src_w src_h x y) by nia.
  cbn [bind s_x0 s_y0 s_x1 s_y1 s_dx s_dy].
  set (x1 := if k * x + 1 <? src_w then k * x + 1 else k * x).
  set (y1 := if l * y + 1 <? src_h then l * y + 1 else l * y).
  assert (Hx1 : 0 <= x1 < src_w)
    by (unfold x1; destruct (k * x + 1 <? src_w) eqn:E;
        [apply Z.ltb_lt in E |]; nia).
  assert (Hy1 : 0 <= y1 < src_h)
    by (unfold y1; destruct (l * y + 1 <? src_h) eqn:E;
        [apply Z.ltb_lt in E |]; nia).
  assert (R : forall a b, 0 <= a < src_w -> 0 <= b < src_h ->
                0 <= b * src_w + a < Z.of_nat (length src))
    by (intros a b Ha Hb; rewrite Lsrc; nia).
  rewrite (load_at_in_range src (l * y) src_w (k * x) src_h)
    by (try assumption; nia).
  cbn [bind].
  rewrite (load_at_in_range src (l * y) src_w x1 src_h)
    by (try assumption; nia).
  cbn [bind].
  rewrite (load_at_in_range src y1 src_w (k * x) src_h)
    by (try assumption; nia).
  cbn [bind].
  rewrite (load_at_in_range src y1 src_w x1 src_h)
    by (try assumption; nia).
  cbn [bind].
  destruct (byte_pixel_at src (l * y * src_w + k * x) Hsrc
              ltac:(apply R; nia)) as (A1 & A2 & A3).
  destruct (byte_pixel_at src (l * y * src_w + x1) Hsrc
              ltac:(apply R; nia)) as (B1 & B2 & B3).
  destruct (byte_pixel_at src (y1 * src_w + k * x) Hsrc
              ltac:(apply R; nia)) as (C1 & C2 & C3).
  destruct (byte_pixel_at src (y1 * src_w + x1) Hsrc
              ltac:(apply R; nia)) as (D1 & D2 & D3).
  set (p := at_index src (l * y * src_w + k * x)) in *.
  rewrite !blend_on_grid by assumption. cbn [bind].
  rewrite (index_small y dst_w x) by nia. cbn [bind].
  set (i := y * dst_w + x) in *.
  rewrite (update_in_range dst i) by lia. cbn [bind].
  rewrite update_in_range by (rewrite set_nth_length; lia). cbn [bind].
  rewrite update_in_range by (rewrite !set_nth_length; lia).
  eexists. split; [reflexivity |]. split; [| split].
  - rewrite !set_nth_length. reflexivity.
  - unfold at_index at 1.
    rewrite !(set_nth_same _ _ _ px0) by (rewrite ?set_nth_length; lia).
    apply pixel_eta.
  - intros j Hj Hne. unfold at_index.
    rewrite !set_nth_other by lia. reflexivity.
Qed.

Lemma resize_cols_on_grid (n : nat) (src dst : list Pixel)
    (k l src_w src_h dst_w x y : Z) :
  1 <= k -> 1 <= l < 16777216 -> 0 <= x -> 0 <= y ->
  x + Z.of_nat n = dst_w -> src_w = k * dst_w -> l * y < src_h ->
  src_w < 16777216 -> src_h < 16777216 ->
  src_w * src_h <= INT_MAX ->
  Forall byte_pixel src -> Z.of_nat (length src) = src_w * src_h ->
  Z.of_nat (length dst) <= INT_MAX ->
  y * dst_w + dst_w <= Z.of_nat (length dst) ->
  exists dst',
    resize_cols n src src_w src_h dst_w (Float32.of_int k) (Float32.of_int l)
      x y dst = Ok dst'
    /\ length dst' = length dst
    /\ (forall c, x <= c < dst_w ->
          at_index dst' (y * dst_w + c)
          = at_index src (l * y * src_w + k * c))
    /\ (forall j, 0 <= j ->
          j < y * dst_w + x \/ y * dst_w + dst_w <= j ->
          at_index dst' j = at_index dst j).
Proof.
  revert x dst. induction n as [| n IH];
    intros x dst Hk Hl Hx Hy Hn Hsw Hly Hw Hh Hmax Hsrc Lsrc Hdmax Ldst.
  - exists dst. cbn [resize_cols].
    split; [reflexivity |]. split; [reflexivity |].
    split; intros; [lia | reflexivity].
  - rewrite Nat2Z.inj_succ in Hn. cbn [resize_cols].
    destruct (resize_pixel_on_grid src dst k l src_w src_h dst_w x y)
      as (d1 & E1 & L1 & V1 & F1); try assumption; try nia.
    rewrite E1. cbn [bind].
    destruct (IH (x + 1) d1) as (d2 & E2 & L2 & V2 & F2);
      try assumption; try lia.
    exists d2. split; [exact E2 |]. split; [congruence |]. split.
    + intros c Hc. destruct (Z.eq_dec c x) as [-> | Hne].
      * rewrite F2 by nia. exact V1.
      * apply V2. lia.
    + intros j Hj Hout. rewrite F2 by lia. apply F1; lia.
Qed.

Lemma resize_rows_on_grid (n : nat) (src dst : list Pixel)
    (k l src_w src_h dst_w dst_h y : Z) :
  1 <= k -> 1 <= l -> 0 <= y -> 1 <= dst_w ->
  y + Z.of_nat n = dst_h -> src_w = k * dst_w -> src_h = l * dst_h ->
  src_w < 16777216 -> src_h < 16777216 ->
  src_w * src_h <= INT_MAX -> dst_w * dst_h <= INT_MAX ->
  Forall byte_pixel src -> Z.of_nat (length src) = src_w * src_h ->
  Z.of_nat (length dst) = dst_w * dst_h ->
  exists dst',
    resize_rows n src src_w src_h dst_w (Float32.of_int k) (Float32.of_int l)
      y dst = Ok dst'
    /\ length dst' = length dst
    /\ (forall r c, y <= r < dst_h -> 0 <= c < dst_w ->
          at_index dst' (r * dst_w + c)
          = at_index src (l * r * src_w + k * c))
    /\ (forall j, 0 <= j < y * dst_w -> at_index dst' j = at_index dst j).
Proof.
  revert y dst. induction n as [| n IH];
    intros y dst Hk Hl Hy Hdw Hn Hsw Hsh Hw Hh Hmax Hdmax Hsrc Lsrc Ldst.
  - exists dst. cbn [resize_rows].
    split; [reflexivity |]. split; [reflexivity |].
    split; intros; [lia | reflexivity].
  - rewrite Nat2Z.inj_succ in Hn. cbn [resize_rows].
    destruct (resize_cols_on_grid (Z.to_nat dst_w) src dst k l src_w src_h
                dst_w 0 y)
      as (d1 & E1 & L1 & V1 & F1); try assumption; try nia.
    rewrite E1. cbn [bind].
    destruct (IH (y + 1) d1) as (d2 & E2 & L2 & V2 & F2);
      try assumption; try lia.
    exists d2. split; [exact E2 |]. split; [congruence |]. split.
    + intros r c Hr Hc. destruct (Z.eq_dec r y) as [-> | Hne].
      * rewrite F2 by nia. apply V1. lia.
      * apply V2; lia.
    + intros j Hj. rewrite F2 by nia. apply F1; lia.
Qed.

Lemma resize_bilinear_on_grid (src dst : list Pixel) (k l dst_w dst_h : Z) :
  1 <= k -> 1 <= l -> 1 <= dst_w -> 1 <= dst_h ->
  k * dst_w < 16777216 -> l * dst_h < 16777216 ->
  (k * dst_w) * (l * dst_h) <= INT_MAX ->
  Forall byte_pixel src ->
  Z.of_nat (length src) = (k * dst_w) * (l * dst_h) ->
  Z.of_nat (length dst) = dst_w * dst_h ->
  exists out,
    resize_bilinear (Some dst) src (k * dst_w) (l * dst_h) dst_w dst_h
    = Ok (Some out)
    /\ length out = length dst
    /\ forall x y, 0 <= x < dst_w -> 0 <= y < dst_h ->
         pixel_at out dst_w x y = pixel_at src (k * dst_w) (k * x) (l * y).
Proof.
  intros Hk Hl Hdw Hdh Hw Hh Hmax Hsrc Lsrc Ldst.
  assert (Hdmax : dst_w * dst_h <= INT_MAX).
  { assert (1 <= k * l) by nia.
    assert (0 <= dst_w * dst_h) by nia.
    replace (k * dst_w * (l * dst_h)) with ((k * l) * (dst_w * dst_h))
      in Hmax by ring.
    nia. }
  unfold resize_bilinear, int_of.
  replace ((INT_MIN <=? dst_w * dst_h) && (dst_w * dst_h <=? INT_MAX))
    with true
    by (symmetry; apply andb_true_iff; unfold INT_MIN;
        split; apply Z.leb_le; [nia | exact Hdmax]).
  cbn [bind].
  rewrite (x_scale_of_multiple k dst_w), (x_scale_of_multiple l dst_h)
    by assumption.
  destruct (resize_rows_on_grid (Z.to_nat dst_h) src dst k l (k * dst_w)
              (l * dst_h) dst_w dst_h 0)
    as (out & E & L & V & _); try assumption; try lia.
  rewrite E. cbn [bind]. exists out.
  split; [reflexivity |]. split; [exact L |].
  intros x y Hx Hy. exact (V y x ltac:(lia) Hx).
Qed.

End Decimation.

Section Reduction.

Import BmpToHex.

Lemma byte_at_u8 (file : list Z) (i : Z) :
  Forall is_u8 file -> is_u8 (byte_at file i).
Proof.
  intros H. unfold byte_at.
  destruct (Nat.lt_ge_cases (Z.to_nat i) (length file)) as [L | L].
  - apply Forall_nth; assumption.
  - rewrite nth_overflow by exact L. unfold is_u8. lia.
Qed.

(** A property of all pixels of a row-major buffer, from its pixels by
    coordinates. *)
Lemma Forall_by_coordinates (P : Pixel -> Prop) (buf : list Pixel) (w h : Z) :
  0 <= w -> 0 <= h -> Z.of_nat (length buf) = w * h ->
  (forall x y, 0 <= x < w -> 0 <= y < h -> P (pixel_at buf w x y)) ->
  Forall P buf.
Proof.
  intros Hw Hh L H. apply Forall_nth. intros i d Hi.
  rewrite (nth_indep _ d (mkPixel 0 0 0) Hi).
  assert (Pw : 0 < w) by nia.
  specialize (H (Z.of_nat i mod w) (Z.of_nat i / w)
                ltac:(apply Z.mod_pos_bound; lia)
                ltac:(split; [apply Z.div_pos; lia
                             | apply Z.div_lt_upper_bound; nia])).
  unfold pixel_at in H.
  replace (Z.of_nat i / w * w + Z.of_nat i mod w) with (Z.of_nat i) in H
    by (pose proof (Z.div_mod (Z.of_nat i) w ltac:(lia)); lia).
  rewrite Nat2Z.id in H. exact H.
Qed.

Lemma main_on_grid (fh : BMPFileHeader) (ih : BMPInfoHeader)
    (file row_buf : list Z) (src_pixels dst : list Pixel) (k l : Z) :
  accepted fh ih ->
  1 <= k -> 1 <= l ->
  Z.abs (biWidth ih) = k * 320 -> Z.abs (biHeight ih) = l * 240 ->
  k * 320 < 16777216 -> l * 240 < 16777216 ->
  (k * 320) * (l * 240) <= INT_MAX ->
  Z.of_nat (length row_buf) = row_stride_of ih ->
  Z.of_nat (length src_pixels) = (k * 320) * (l * 240) ->
  Z.of_nat (length dst) = 76800 ->
  Forall is_u8 file ->
  0 <= bfOffBits fh ->
  bfOffBits fh + (l * 240) * row_stride_of ih <= Z.of_nat (length file) ->
  exists out,
    HexOut.main fh ih file (Some row_buf) (Some src_pixels) (Some dst)
    = Ok (hex_lines (map packed_of out))
    /\ Z.of_nat (length out) = 76800
    /\ forall x y, 0 <= x < 320 -> 0 <= y < 240 ->
         let row := if biHeight ih <? 0 then l * y
                    else l * 240 - 1 - l * y in
         let base := bfOffBits fh + row * row_stride_of ih + (k * x) * 3 in
         pixel_at out 320 x y
         = mkPixel (byte_at file (base + 2)) (byte_at file (base + 1))
                   (byte_at file (base + 0)).
Proof.
  intros Ha Hk Hl Ew Eh Bw Bh Bm Lrow Lpix Ldst Hfile Hoff Hlen.
  assert (Hr : dims_in_range ih).
  { unfold dims_in_range. rewrite Ew, Eh. unfold INT_MAX in *.
    change (2 ^ 31 - 1) with 2147483647 in *. lia. }
  destruct (bitmap_pixel_bytes fh ih file row_buf src_pixels Ha Hr Lrow
              ltac:(rewrite Ew, Eh; exact Lpix) Hoff
              ltac:(rewrite Eh; exact Hlen)) as (buf & E & V).
  rewrite Ew, Eh in E, V.
  assert (Lbuf : length buf = length src_pixels).
  { destruct (read_bitmap_succeeds fh ih file row_buf src_pixels Lrow
                ltac:(rewrite Ew, Eh; exact Lpix) Ha Hr)
      as (buf' & E' & L' & _).
    rewrite Ew, Eh in E'. congruence. }
  assert (Hbuf : Forall byte_pixel buf).
  { apply (Forall_by_coordinates _ _ (k * 320) (l * 240)); try lia.
    intros x y Hx Hy. rewrite (V x y Hx Hy). cbv zeta.
    repeat split; apply byte_at_u8, Hfile. }
  unfold HexOut.main. rewrite E. cbn [bind]. unfold resize_step.
  destruct ((k * 320 =? OUT_WIDTH) && (l * 240 =? OUT_HEIGHT)) eqn:Esz.
  - apply andb_true_iff in Esz as [E1 E2].
    apply Z.eqb_eq in E1, E2. unfold OUT_WIDTH in E1. unfold OUT_HEIGHT in E2.
    assert (k = 1) by lia. assert (l = 1) by lia. subst k l.
    cbn [bind]. rewrite write_hex_spec.
    replace (76800 <=? Z.of_nat (length buf)) with true
      by (symmetry; apply Z.leb_le; lia).
    rewrite firstn_all2 by lia.
    exists buf. split; [reflexivity |]. split; [lia |].
    intros x y Hx Hy. cbv zeta.
    pose proof (V x y ltac:(lia) ltac:(lia)) as Vxy. cbv zeta in Vxy.
    change (1 * 320) with 320 in Vxy. rewrite Vxy.
    replace (1 * y) with y by lia. replace (1 * x) with x by lia.
    reflexivity.
  - destruct (resize_bilinear_on_grid buf dst k l 320 240 Hk Hl
                ltac:(lia) ltac:(lia) Bw Bh Bm
                Hbuf ltac:(lia) ltac:(lia))
      as (out & Eo & Lo & Vo).
    unfold OUT_WIDTH, OUT_HEIGHT. rewrite Eo. cbn [bind].
    rewrite write_hex_spec.
    replace (76800 <=? Z.of_nat (length out)) with true
      by (symmetry; apply Z.leb_le; lia).
    rewrite firstn_all2 by lia.
    exists out. split; [reflexivity |]. split; [lia |].
    intros x y Hx Hy. cbv zeta.
    rewrite (Vo x y Hx Hy).
    rewrite (V (k * x) (l * y) ltac:(nia) ltac:(nia)). cbv zeta.
    reflexivity.
Qed.

End Reduction.

(** X17. When the source is an integer number of times wider and
    higher than the destination, every sample of [resize_bilinear]
    falls on a source pixel with both weights zero, no operation
    rounds, and the result is a plain decimation: destination pixel
    ([x], [y]) is source pixel ([k * x], [l * y]), without any
    averaging of the pixels in between. *)
Theorem resize_bilinear_decimates (src dst : list Pixel)
    (k l dst_w dst_h : Z) :
  1 <= k -> 1 <= l -> 1 <= dst_w -> 1 <= dst_h ->
  k * dst_w < 16777216 -> l * dst_h < 16777216 ->
  (k * dst_w) * (l * dst_h) <= INT_MAX ->
  Forall byte_pixel src ->
  Z.of_nat (length src) = (k * dst_w) * (l * dst_h) ->
  Z.of_nat (length dst) = dst_w * dst_h ->
  exists out,
    BmpToHex.resize_bilinear (Some dst) src (k * dst_w) (l * dst_h)
      dst_w dst_h
    = Ok (Some out)
    /\ length out = length dst
    /\ forall x y, 0 <= x < dst_w -> 0 <= y < dst_h ->
         BmpToHex.pixel_at out dst_w x y
         = BmpToHex.pixel_at src (k * dst_w) (k * x) (l * y).
Proof. exact (resize_bilinear_on_grid src dst k l dst_w dst_h). Qed.

Lemma resize_bilinear_decimates_witness :
  let src := [mkPixel 10 20 30; mkPixel 40 50 60; mkPixel 70 80 90;
              mkPixel 1 2 3; mkPixel 4 5 6; mkPixel 7 8 9;
              mkPixel 11 12 13; mkPixel 14 15 16; mkPixel 17 18 19;
              mkPixel 21 22 23; mkPixel 24 25 26; mkPixel 27 28 29] in
  let dst := [px0; px0] in
  exists out,
    BmpToHex.resize_bilinear (Some dst) src (3 * 2) (2 * 1) 2 1
    = Ok (Some out)
    /\ length out = length dst
    /\ forall x y, 0 <= x < 2 -> 0 <= y < 1 ->
         BmpToHex.pixel_at out 2 x y
         = BmpToHex.pixel_at src (3 * 2) (3 * x) (2 * y).
Proof.
  apply (resize_bilinear_decimates
           [mkPixel 10 20 30; mkPixel 40 50 60; mkPixel 70 80 90;
            mkPixel 1 2 3; mkPixel 4 5 6; mkPixel 7 8 9;
            mkPixel 11 12 13; mkPixel 14 15 16; mkPixel 17 18 19;
            mkPixel 21 22 23; mkPixel 24 25 26; mkPixel 27 28 29]
           [px0; px0] 3 2 2 1); try (unfold INT_MAX; lia).
  - repeat constructor; cbn; lia.
  - reflexivity.
  - reflexivity.
Defined.

(** X18. bmp_to_hex.c on a complete bitmap of [k * 320] by [l * 240]
    pixels: the hex file holds the packed values of the pixels at
    columns [0, k, 2k, ...] of rows [0, l, 2l, ...] of the picture, each
    taken from its three bytes in the file; the other pixels of the
    bitmap have no influence on the output. *)
Theorem main_decimates (fh : BmpToHex.BMPFileHeader)
    (ih : BmpToHex.BMPInfoHeader) (file row_buf : list Z)
    (src_pixels dst : list Pixel) (k l : Z) :
  accepted fh ih ->
  1 <= k -> 1 <= l ->
  Z.abs (BmpToHex.biWidth ih) = k * 320 ->
  Z.abs (BmpToHex.biHeight ih) = l * 240 ->
  k * 320 < 16777216 -> l * 240 < 16777216 ->
  (k * 320) * (l * 240) <= INT_MAX ->
  Z.of_nat (length row_buf) = row_stride_of ih ->
  Z.of_nat (length src_pixels) = (k * 320) * (l * 240) ->
  Z.of_nat (length dst) = 76800 ->
  Forall is_u8 file ->
  0 <= BmpToHex.bfOffBits fh ->
  BmpToHex.bfOffBits fh + (l * 240) * row_stride_of ih
  <= Z.of_nat (length file) ->
  exists out,
    HexOut.main fh ih file (Some row_buf) (Some src_pixels) (Some dst)
    = Ok (hex_lines (map packed_of out))
    /\ Z.of_nat (length out) = 76800
    /\ forall x y, 0 <= x < 320 -> 0 <= y < 240 ->
         let row := if BmpToHex.biHeight ih <? 0 then l * y
                    else l * 240 - 1 - l * y in
         let base := BmpToHex.bfOffBits fh + row * row_stride_of ih
                     + (k * x) * 3 in
         BmpToHex.pixel_at out 320 x y
         = mkPixel (byte_at file (base + 2)) (byte_at file (base + 1))
                   (byte_at file (base + 0)).
Proof. exact (main_on_grid fh ih file row_buf src_pixels dst k l). Qed.

Lemma Forall_repeat_u8 (b : Z) (n : nat) : is_u8 b -> Forall is_u8 (repeat b n).
Proof.
  intros H. apply Forall_forall. intros x Hx.
  apply repeat_spec in Hx. subst x. exact H.
Qed.

Lemma main_decimates_witness :
  let fh := BmpToHex.Build_BMPFileHeader 0x4D42 460854 0 0 54 in
  let ih := BmpToHex.Build_BMPInfoHeader 40 640 240 1 24 0 0 0 0 0 0 in
  let file := repeat 7 (Z.to_nat 460854) in
  let row_buf := repeat 0 (Z.to_nat 1920) in
  let src_pixels := repeat px0 (Z.to_nat 153600) in
  let dst := repeat px0 (Z.to_nat 76800) in
  exists out,
    HexOut.main fh ih file (Some row_buf) (Some src_pixels) (Some dst)
    = Ok (hex_lines (map packed_of out))
    /\ Z.of_nat (length out) = 76800
    /\ forall x y, 0 <= x < 320 -> 0 <= y < 240 ->
         let row := if BmpToHex.biHeight ih <? 0 then 1 * y
                    else 1 * 240 - 1 - 1 * y in
         let base := BmpToHex.bfOffBits fh + row * row_stride_of ih
                     + (2 * x) * 3 in
         BmpToHex.pixel_at out 320 x y
         = mkPixel (byte_at file (base + 2)) (byte_at file (base + 1))
                   (byte_at file (base + 0)).
Proof.
  apply (main_decimates
           (BmpToHex.Build_BMPFileHeader 0x4D42 460854 0 0 54)
           (BmpToHex.Build_BMPInfoHeader 40 640 240 1 24 0 0 0 0 0 0)
           (repeat 7 (Z.to_nat 460854)) (repeat 0 (Z.to_nat 1920))
           (repeat px0 (Z.to_nat 153600)) (repeat px0 (Z.to_nat 76800))
           2 1); try lia.
  - repeat split.
  - reflexivity.
  - reflexivity.
  - unfold INT_MAX. lia.
  - rewrite repeat_length, Z2Nat.id by lia. reflexivity.
  - rewrite repeat_length, Z2Nat.id; lia.
  - rewrite repeat_length, Z2Nat.id; lia.
  - apply Forall_repeat_u8. unfold is_u8. lia.
  - cbn. lia.
  - rewrite repeat_length, Z2Nat.id by lia. cbn. lia.
Defined.

Section Rounding.

Lemma shl_align_fst (mx : positive) (ex ez : Z) :
  ez <= ex -> Zpos (fst (shl_align mx ex ez)) = Zpos mx * 2 ^ (ex - ez).
Proof.
  intros H. unfold shl_align.
  destruct (ez - ex) as [| d | d] eqn:E; try lia.
  - replace (ex - ez) with 0 by lia. cbn [fst]. lia.
  - cbn [fst]. rewrite pos_iter_xO. f_equal. f_equal. lia.
Qed.

(** Rounding a positive mantissa at any exponent away from the
    subnormal range and from overflow: a normalised result, at most a
    factor [1 + 2^-23] above the value, and the value itself when the
    mantissa has no more than 24 digits. *)
Lemma binary_round_ub (M : positive) (E : Z) :
  -125 <= Zpos (digits2_pos M) + E <= 127 ->
  exists (m : positive) (e : Z),
    binary_round 24 128 false M E = S754_finite false m e
    /\ Zpos (digits2_pos m) = 24
    /\ Zpos (digits2_pos M) + E - 24 <= e <= Zpos (digits2_pos M) + E - 23
    /\ (F2R (S754_finite false m e) <= IZR (Zpos M) * bpow E * (1 + ulp1))%R
    /\ (Zpos (digits2_pos M) <= 24 ->
        e = Zpos (digits2_pos M) + E - 24
        /\ Zpos m = Zpos M * 2 ^ (24 - Zpos (digits2_pos M))).
Proof.
  intros Hr. unfold binary_round.
  pose proof (digits2_bounds M) as BM.
  set (d := Zpos (digits2_pos M)) in *.
  assert (Hd : 1 <= d) by (unfold d; lia).
  rewrite (fexp_normal (d + E)) by lia.
  unfold shl_align.
  assert (U : (1 <= 1 + ulp1)%R) by (unfold ulp1; lra).
  destruct (d + E - 24 - E) as [| q | q] eqn:Eq.
  - (* exactly 24 digits *)
    assert (d = 24) by lia.
    rewrite binary_round_aux_exact by (fold d; lia).
    exists M, E. split; [reflexivity |]. split; [fold d; lia |].
    split; [lia |]. split.
    + cbn [F2R].
      assert (P : (0 < IZR (Zpos M) * bpow E)%R)
        by (apply Rmult_lt_0_compat; [apply IZR_lt; lia | apply bpow_pos]).
      rewrite <- (Rmult_1_r (IZR (Zpos M) * bpow E)) at 1.
      apply Rmult_le_compat_l; [lra | exact U].
    + intros _. split; [lia |]. replace (24 - d) with 0 by lia. lia.
  - (* more than 24 digits *)
    destruct (binary_round_aux_ub M E loc_Exact)
      as (m & k & Em & Dm & Hk & Hub); fold d; try lia.
    fold d in Hk. rewrite Em.
    exists m, (E + k). split; [reflexivity |]. split; [exact Dm |].
    split; [lia |]. split.
    + cbn [F2R]. exact (ub_transfer m M E k ltac:(lia) Hub).
    + intros H. lia.
  - (* fewer than 24 digits *)
    assert (Hq : Zpos q = 24 - d) by lia.
    pose proof (pos_iter_xO M q) as Ez.
    set (mz := Pos.iter xO M q) in *.
    assert (Dz : Zpos (digits2_pos mz) = 24).
    { apply digits2_unique; [lia |]. rewrite Ez, Hq.
      assert (P : 0 < 2 ^ (24 - d)) by (apply Z.pow_pos_nonneg; lia).
      assert (2 ^ (24 - 1) = 2 ^ (d - 1) * 2 ^ (24 - d))
        by (rewrite <- Z.pow_add_r by lia; f_equal; lia).
      assert (2 ^ 24 = 2 ^ d * 2 ^ (24 - d))
        by (rewrite <- Z.pow_add_r by lia; f_equal; lia).
      nia. }
    rewrite binary_round_aux_exact by (rewrite ?Dz; lia).
    exists mz, (d + E - 24). split; [reflexivity |]. split; [exact Dz |].
    split; [lia |].
    assert (V : F2R (S754_finite false mz (d + E - 24))
                = (IZR (Zpos M) * bpow E)%R).
    { cbn [F2R]. rewrite Ez, mult_IZR, <- bpow_IZR by lia.
      rewrite Rmult_assoc, <- bpow_add. do 2 f_equal. lia. }
    split.
    + rewrite V.
      assert (P : (0 < IZR (Zpos M) * bpow E)%R)
        by (apply Rmult_lt_0_compat; [apply IZR_lt; lia | apply bpow_pos]).
      rewrite <- (Rmult_1_r (IZR (Zpos M) * bpow E)) at 1.
      apply Rmult_le_compat_l; [lra | exact U].
    + intros _. split; [reflexivity |]. rewrite Ez, Hq. reflexivity.
Qed.

Lemma F2R_finite (m : positive) (e : Z) :
  F2R (S754_finite false m e) = (IZR (Zpos m) * bpow e)%R.
Proof. reflexivity. Qed.

(** The sum of two positive normalised numbers. *)
Lemma add_ub (ma mb : positive) (ea eb : Z) :
  Zpos (digits2_pos ma) = 24 -> Zpos (digits2_pos mb) = 24 ->
  -140 <= ea <= 100 -> -140 <= eb <= 100 ->
  normal (Float32.add (S754_finite false ma ea) (S754_finite false mb eb))
    (Z.max ea eb) (Z.max ea eb + 2)
  /\ (F2R (Float32.add (S754_finite false ma ea) (S754_finite false mb eb))
      <= (F2R (S754_finite false ma ea) + F2R (S754_finite false mb eb))
         * (1 + ulp1))%R.
Proof.
  intros Da Db Hea Heb.
  unfold Float32.add, SFadd, Float32.prec, Float32.emax. cbn [cond_Zopp].
  set (ez := Z.min ea eb).
  pose proof (shl_align_fst ma ea ez ltac:(unfold ez; lia)) as Fa.
  pose proof (shl_align_fst mb eb ez ltac:(unfold ez; lia)) as Fb.
  set (xa := fst (shl_align ma ea ez)) in *.
  set (xb := fst (shl_align mb eb ez)) in *.
  change (Zpos xa + Zpos xb) with (Zpos (xa + xb)).
  cbn [binary_normalize].
  pose proof (digits2_bounds ma) as Ba. rewrite Da in Ba.
  pose proof (digits2_bounds mb) as Bb. rewrite Db in Bb.
  change (2 ^ (24 - 1)) with 8388608 in *.
  change (2 ^ 24) with 16777216 in *.
  set (ex := Z.max ea eb).
  pose proof (pow2_pos (ea - ez) ltac:(unfold ez; lia)) as Pa.
  pose proof (pow2_pos (eb - ez) ltac:(unfold ez; lia)) as Pb.
  pose proof (pow2_pos (ex - ez) ltac:(unfold ex, ez; lia)) as Px.
  assert (Hlo : 8388608 * 2 ^ (ex - ez) <= Zpos (xa + xb)).
  { rewrite Pos2Z.inj_add, Fa, Fb.
    destruct (Z.le_ge_cases ea eb) as [H | H].
    - replace ex with eb by (unfold ex; lia). nia.
    - replace ex with ea by (unfold ex; lia). nia. }
  assert (Hhi : Zpos (xa + xb) < 33554432 * 2 ^ (ex - ez)).
  { rewrite Pos2Z.inj_add, Fa, Fb.
    assert (2 ^ (ea - ez) <= 2 ^ (ex - ez))
      by (apply Z.pow_le_mono_r; unfold ex, ez; lia).
    assert (2 ^ (eb - ez) <= 2 ^ (ex - ez))
      by (apply Z.pow_le_mono_r; unfold ex, ez; lia).
    nia. }
  assert (Dx : 23 + (ex - ez) < Zpos (digits2_pos (xa + xb))
               <= 25 + (ex - ez)).
  { apply digits2_between; [unfold ex, ez; lia |].
    rewrite !pow2_split by (unfold ex, ez; lia).
    change (2 ^ 23) with 8388608. change (2 ^ 25) with 33554432. lia. }
  destruct (binary_round_ub (xa + xb) ez) as (m & e & E & Dm & He & Ub & _);
    [unfold ex, ez in *; lia |].
  rewrite E. split.
  - exists m, e. split; [reflexivity |]. split; [exact Dm |].
    fold ex. unfold ex, ez in *. lia.
  - eapply Rle_trans; [exact Ub |].
    apply Req_le. f_equal.
    rewrite !F2R_finite, Pos2Z.inj_add, plus_IZR, Fa, Fb, !mult_IZR.
    rewrite <- !bpow_IZR by (unfold ez; lia).
    rewrite Rmult_plus_distr_r, !Rmult_assoc, <- !bpow_add.
    replace (ea - ez + ez) with ea by lia.
    replace (eb - ez + ez) with eb by lia. reflexivity.
Qed.

End Rounding.

Section Weights.

Import BmpToHex.

(** The source coordinate of a destination pixel, as a datum. *)
Lemma coordinate_shape (W D x : Z) :
  1 <= W <= INT_MAX -> 1 <= D <= 2 ^ 21 -> 0 <= x < D ->
  nonneg (Float32.mul (Float32.of_int x) (x_scale_of W D)) (-45) 32.
Proof.
  intros HW HD Hx. unfold INT_MAX in HW.
  change (2 ^ 31 - 1) with 2147483647 in HW.
  change (2 ^ 21) with 2097152 in HD.
  destruct (of_int_ub W) as [(mW & eW & EW & DW & HeW) _];
    [change (2 ^ 31) with 2147483648; lia |].
  pose proof (of_int_holds D ltac:(change (2 ^ 24) with 16777216; lia))
    as HD'.
  destruct (Float32.of_int D) as [s | | | s mD eD] eqn:ED;
    cbn [holds_int] in HD'; try contradiction; [lia |].
  destruct HD' as (-> & DD & HeD & HmD).
  assert (HeD' : eD <= -2).
  { destruct (Z.lt_ge_cases (-2) eD) as [H | H]; [| lia]. exfalso.
    pose proof (digits2_bounds mD) as B. rewrite DD in B.
    change (2 ^ (24 - 1)) with 8388608 in B.
    assert (2 ^ (- eD) <= 2 ^ 1) by (apply Z.pow_le_mono_r; lia).
    change (2 ^ 1) with 2 in *. nia. }
  unfold x_scale_of. rewrite EW, ED.
  destruct (div_ub mW mD eW eD DW DD ltac:(lia))
    as [(mS & eS & ES & DS & HeS) _].
  rewrite ES.
  destruct (Z.eq_dec x 0) as [-> | Hx0]; [left; reflexivity |].
  pose proof (of_int_holds x ltac:(change (2 ^ 24) with 16777216; lia))
    as HX'.
  destruct (Float32.of_int x) as [s | | | s mX eX] eqn:EX;
    cbn [holds_int] in HX'; try contradiction; [lia |].
  destruct HX' as (-> & DX & HeX & HmX).
  assert (HeX' : eX <= -2).
  { destruct (Z.lt_ge_cases (-2) eX) as [H | H]; [| lia]. exfalso.
    pose proof (digits2_bounds mX) as B. rewrite DX in B.
    change (2 ^ (24 - 1)) with 8388608 in B.
    assert (2 ^ (- eX) <= 2 ^ 1) by (apply Z.pow_le_mono_r; lia).
    change (2 ^ 1) with 2 in *. nia. }
  destruct (mul_ub mX mS eX eS DX DS ltac:(lia))
    as [(mT & eT & ET & DT & HeT) _].
  right. exists mT, eT. split; [exact ET |]. split; [exact DT | lia].
Qed.

(** The conversion of an integer that a datum holds exactly. *)
Lemma of_int_of_datum (m : positive) (e : Z) :
  Zpos (digits2_pos m) = 24 -> 0 <= e <= 100 ->
  Float32.of_int (Zpos m * 2 ^ e) = S754_finite false m e.
Proof.
  intros Dm He.
  pose proof (pow2_pos e ltac:(lia)) as P.
  destruct (Zpos m * 2 ^ e) as [| a | a] eqn:Ea; try lia.
  unfold Float32.of_int, binary_normalize, binary_round,
    Float32.prec, Float32.emax.
  assert (Da : Zpos (digits2_pos a) = 24 + e).
  { apply digits2_unique; [lia |].
    pose proof (digits2_bounds m) as B. rewrite Dm in B.
    replace (24 + e - 1) with (24 - 1 + e) by lia.
    rewrite !pow2_split by lia. nia. }
  rewrite Da, (fexp_normal (24 + e + 0)) by lia.
  unfold shl_align.
  destruct (24 + e + 0 - 24 - 0) as [| q | q] eqn:Eq; try lia.
  - assert (e = 0) by lia. subst e. rewrite Z.mul_1_r in Ea.
    injection Ea as <-. apply binary_round_aux_exact; [exact Dm | lia].
  - rewrite (binary_round_aux_shift a m e 0 Dm ltac:(lia) (eq_sym Ea))
      by lia.
    reflexivity.
Qed.

(** [src_xf - x0]: the fractional part of a coordinate is computed
    without rounding and is zero or a normalised number below one. *)
Lemma fraction_of_coordinate (f : spec_float) (a : Z) :
  nonneg f (-46) 40 -> Float32.trunc f = Some a ->
  fraction (Float32.sub f (Float32.of_int a)).
Proof.
  intros [-> | (m & e & -> & Dm & He)] Ht.
  - cbn in Ht. injection Ht as <-. left. reflexivity.
  - pose proof (digits2_bounds m) as B. rewrite Dm in B.
    change (2 ^ (24 - 1)) with 8388608 in B.
    change (2 ^ 24) with 16777216 in B.
    cbv beta iota zeta delta [Float32.trunc] in Ht.
    destruct (0 <=? e) eqn:E0.
    + (* an integer *)
      apply Z.leb_le in E0.
      assert (Ea : a = Zpos m * 2 ^ e) by congruence. subst a. clear Ht.
      rewrite (of_int_of_datum m e Dm ltac:(lia)).
      left. unfold Float32.sub, SFsub. cbn [cond_Zopp].
      rewrite Z.sub_diag. reflexivity.
    + apply Z.leb_gt in E0.
      assert (Ea : a = Zpos m / 2 ^ (- e)) by congruence. clear Ht.
      pose proof (pow2_pos (- e) ltac:(lia)) as P.
      subst a. set (a := Zpos m / 2 ^ (- e)).
      pose proof (Z.div_mod (Zpos m) (2 ^ (- e)) ltac:(lia)) as Hdm.
      pose proof (Z.mod_pos_bound (Zpos m) (2 ^ (- e)) ltac:(lia)) as Hmod.
      fold a in Hdm. set (r := Zpos m mod 2 ^ (- e)) in *.
      assert (Ha0 : 0 <= a) by (apply Z.div_pos; lia).
      destruct (Z.eq_dec a 0) as [Ea | Ha].
      * (* below one: the coordinate is its own fractional part *)
        rewrite Ea. change (Float32.of_int 0) with (S754_zero false).
        cbn [Float32.sub SFsub]. right. exists m, e.
        split; [reflexivity |]. split; [exact Dm |].
        assert (Hm : Zpos m < 2 ^ (- e)) by nia.
        split; [| exact Hm].
        split; [lia |].
        destruct (Z.lt_ge_cases (-24) e) as [H | H]; [| lia]. exfalso.
        assert (2 ^ (- e) <= 2 ^ 23) by (apply Z.pow_le_mono_r; lia).
        change (2 ^ 23) with 8388608 in *. lia.
      * (* the integral part has the exponent of the coordinate *)
        assert (He' : -23 <= e).
        { destruct (Z.lt_ge_cases e (-23)) as [H | H]; [| lia]. exfalso.
          assert (2 ^ 24 <= 2 ^ (- e)) by (apply Z.pow_le_mono_r; lia).
          change (2 ^ 24) with 16777216 in *. nia. }
        assert (Hx : holds_int (S754_finite false
                                  (Z.to_pos (a * 2 ^ (- e))) e) a).
        { cbn [holds_int]. split; [reflexivity |].
          rewrite Z2Pos.id by nia.
          split; [| split; [lia | reflexivity]].
          apply digits2_unique; [lia |]. rewrite Z2Pos.id by nia.
          change (2 ^ (24 - 1)) with 8388608.
          change (2 ^ 24) with 16777216.
          assert (2 ^ (- e) <= 2 ^ 23) by (apply Z.pow_le_mono_r; lia).
          change (2 ^ 23) with 8388608 in *.
          split; [| nia].
          (* 2^23 <= m < (a + 1) 2^(-e), all multiples of 2^(-e) *)
          assert (E23 : 8388608 = 2 ^ (23 + e) * 2 ^ (- e))
            by (rewrite <- pow2_split by lia; replace (23 + e + - e) with 23
                  by lia; reflexivity).
          pose proof (pow2_pos (23 + e) ltac:(lia)) as P23.
          assert (2 ^ (23 + e) < a + 1) by nia.
          nia. }
        assert (Ba : 0 <= a < 2 ^ 24)
          by (change (2 ^ 24) with 16777216; nia).
        rewrite <- (holds_int_of_int _ a Ba Hx).
        unfold Float32.sub, SFsub, Float32.prec, Float32.emax.
        cbn [cond_Zopp]. rewrite Z.min_id.
        rewrite !shl_align_fst by lia. rewrite Z.sub_diag.
        change (2 ^ 0) with 1. rewrite !Z.mul_1_r.
        rewrite Z2Pos.id by nia.
        replace (Zpos m - a * 2 ^ (- e)) with r by lia.
        destruct r as [| pr | pr] eqn:Er; try lia; [left; reflexivity |].
        cbn [binary_normalize].
        pose proof (digits2_bounds pr) as Br.
        assert (Dr : Zpos (digits2_pos pr) <= - e).
        { destruct (Z.lt_ge_cases (- e) (Zpos (digits2_pos pr)))
            as [H | H]; [| lia]. exfalso.
          assert (2 ^ (- e) <= 2 ^ (Zpos (digits2_pos pr) - 1))
            by (apply Z.pow_le_mono_r; lia).
          lia. }
        destruct (binary_round_ub pr e) as (md & ed & E & Dd & Hed & _ & X);
          [lia |].
        destruct (X ltac:(lia)) as [Eed Emd].
        unfold Float32.prec, Float32.emax in *. rewrite E.
        right. exists md, ed. split; [reflexivity |]. split; [exact Dd |].
        split; [lia |].
        rewrite Emd, Eed.
        set (d := Zpos (digits2_pos pr)) in *.
        replace (- (d + e - 24)) with ((24 - d) + (- e)) by lia.
        rewrite pow2_split by lia.
        pose proof (pow2_pos (24 - d) ltac:(lia)). nia.
Qed.

End Weights.

Section Blending.

Import BmpToHex.

Local Open Scope R_scope.

Lemma F2R_nonneg (f : spec_float) (lo hi : Z) : nonneg f lo hi -> 0 <= F2R f.
Proof.
  intros [-> | (m & e & -> & _)]; [cbn; lra |].
  apply Rlt_le, F2R_pos.
Qed.

Lemma F2R_one : F2R (Float32.of_int 1) = 1.
Proof. destruct (of_int_exact 1 ltac:(lia)) as [_ H]. exact H. Qed.

Lemma fraction_nonneg (f : spec_float) : fraction f -> nonneg f (-70) (-23).
Proof.
  intros [-> | (m & e & -> & Dm & He & _)]; [left; reflexivity |].
  right. exists m, e. split; [reflexivity |]. split; [exact Dm | lia].
Qed.

(** [1 - dx]: a positive normalised weight; with [dx] it sums to one,
    up to one rounding. *)
Lemma complement_of_fraction (dx : spec_float) :
  fraction dx ->
  normal (Float32.sub (Float32.of_int 1) dx) (-47) (-23)
  /\ F2R (Float32.sub (Float32.of_int 1) dx) + F2R dx <= 1 + ulp1.
Proof.
  intros [-> | (md & ed & -> & Dd & Hed & Hlt)].
  - change (Float32.sub (Float32.of_int 1) (S754_zero false))
      with (Float32.of_int 1).
    split.
    + exists 8388608%positive, (-23)%Z. repeat split; lia.
    + rewrite F2R_one. cbn [F2R]. unfold ulp1. lra.
  - change (Float32.of_int 1) with (S754_finite false 8388608 (-23)).
    unfold Float32.sub, SFsub, Float32.prec, Float32.emax.
    cbn [cond_Zopp]. rewrite (Z.min_r (-23) ed) by lia.
    rewrite !shl_align_fst by lia. rewrite Z.sub_diag.
    change (2 ^ 0)%Z with 1%Z. rewrite Z.mul_1_r.
    assert (E1 : (8388608 * 2 ^ (-23 - ed) = 2 ^ (- ed))%Z).
    { change 8388608%Z with (2 ^ 23)%Z. rewrite <- pow2_split by lia.
      f_equal. lia. }
    rewrite E1.
    pose proof (digits2_bounds md) as Bd. rewrite Dd in Bd.
    change (2 ^ (24 - 1))%Z with 8388608%Z in Bd.
    change (2 ^ 24)%Z with 16777216%Z in Bd.
    destruct (2 ^ (- ed) - Zpos md)%Z as [| M | M] eqn:EM; try lia.
    cbn [binary_normalize].
    pose proof (digits2_bounds M) as BM.
    assert (DM : (1 <= Zpos (digits2_pos M) <= - ed)%Z).
    { split; [lia |].
      destruct (Z.lt_ge_cases (- ed) (Zpos (digits2_pos M)))
        as [H | H]; [| lia]. exfalso.
      assert (2 ^ (- ed) <= 2 ^ (Zpos (digits2_pos M) - 1))%Z
        by (apply Z.pow_le_mono_r; lia).
      lia. }
    assert (DM' : (ed <= -25 -> Zpos (digits2_pos M) = - ed)%Z).
    { intros H. apply digits2_unique; [lia |]. split; [| lia].
      assert (E2 : (2 ^ (- ed) = 2 * 2 ^ (- ed - 1))%Z).
      { change 2%Z with (2 ^ 1)%Z at 2. rewrite <- pow2_split by lia.
        f_equal. lia. }
      assert (2 ^ 24 <= 2 ^ (- ed - 1))%Z
        by (apply Z.pow_le_mono_r; lia).
      change (2 ^ 24)%Z with 16777216%Z in *. lia. }
    destruct (binary_round_ub M ed) as (m & e & E & Dm & He & Ub & _);
      [lia |].
    rewrite E. split.
    + exists m, e. split; [reflexivity |]. split; [exact Dm |].
      destruct (Z.le_gt_cases ed (-25)) as [H | H].
      * rewrite (DM' H) in He. lia.
      * lia.
    + cbn [F2R] in *.
      assert (EMr : IZR (Zpos M) = IZR (2 ^ (- ed)) - IZR (Zpos md))
        by (rewrite <- minus_IZR; f_equal; lia).
      assert (Eone : IZR (2 ^ (- ed)) * bpow ed = 1).
      { rewrite <- bpow_IZR by lia. rewrite <- bpow_add.
        replace (- ed + ed)%Z with 0%Z by lia. reflexivity. }
      assert (Pd : 0 < IZR (Zpos md) * bpow ed)
        by (apply Rmult_lt_0_compat; [apply IZR_lt; lia | apply bpow_pos]).
      rewrite EMr in Ub.
      replace ((IZR (2 ^ (- ed)) - IZR (Zpos md)) * bpow ed)
        with (1 - IZR (Zpos md) * bpow ed) in Ub by (rewrite <- Eone; ring).
      set (v := IZR (Zpos md) * bpow ed) in *.
      assert (0 <= v * ulp1)
        by (apply Rmult_le_pos; [lra | unfold ulp1; lra]).
      lra.
Qed.

(** One term of the blend: a channel times two weights. *)
Lemma term_ub (c : Z) (a b : spec_float) :
  is_u8 c -> nonneg a (-70) (-23) -> nonneg b (-70) (-23) ->
  nonneg (Float32.mul (Float32.mul (Float32.of_int c) a) b) (-140) 10
  /\ F2R (Float32.mul (Float32.mul (Float32.of_int c) a) b)
     <= 255 * (F2R a * F2R b) * ((1 + ulp1) * (1 + ulp1)).
Proof.
  unfold is_u8. intros Hc Ha Hb.
  pose proof (F2R_nonneg a _ _ Ha) as Pa.
  pose proof (F2R_nonneg b _ _ Hb) as Pb.
  assert (U : 1 <= 1 + ulp1) by (unfold ulp1; lra).
  assert (Pr : 0 <= 255 * (F2R a * F2R b) * ((1 + ulp1) * (1 + ulp1))).
  { apply Rmult_le_pos; [| apply Rmult_le_pos; lra].
    apply Rmult_le_pos; [lra |]. apply Rmult_le_pos; assumption. }
  assert (Zero : forall f, nonneg f (-70) (-23) ->
                   Float32.mul (S754_zero false) f = S754_zero false)
    by (intros f [-> | (m & e & -> & _)]; reflexivity).
  destruct (Z.eq_dec c 0) as [-> | Hc0].
  { change (Float32.of_int 0) with (S754_zero false).
    rewrite (Zero a Ha), (Zero b Hb). split; [left; reflexivity |].
    cbn [F2R]. exact Pr. }
  destruct (of_int_exact c ltac:(change (2 ^ 24)%Z with 16777216%Z; lia))
    as [(mc & ec & Ec & Dc & Hec) Vc].
  rewrite Ec in *.
  destruct Ha as [-> | (ma & ea & -> & Da & Hea)].
  { change (Float32.mul (S754_finite false mc ec) (S754_zero false))
      with (S754_zero false).
    rewrite (Zero b Hb). split; [left; reflexivity |].
    cbn [F2R]. cbn [F2R] in Pr. exact Pr. }
  destruct (mul_ub mc ma ec ea Dc Da ltac:(lia))
    as [(m1 & e1 & E1 & D1 & He1) U1].
  rewrite E1 in *.
  destruct Hb as [-> | (mb & eb & -> & Db & Heb)].
  { split; [left; reflexivity |]. cbn [F2R]. cbn [F2R] in Pr. exact Pr. }
  destruct (mul_ub m1 mb e1 eb D1 Db ltac:(lia))
    as [(m2 & e2 & E2 & D2 & He2) U2].
  rewrite E2 in *. split.
  - right. exists m2, e2. split; [reflexivity |]. split; [exact D2 | lia].
  - set (fa := F2R (S754_finite false ma ea)) in *.
    set (fb := F2R (S754_finite false mb eb)) in *.
    set (f1 := F2R (S754_finite false m1 e1)) in *.
    set (f2 := F2R (S754_finite false m2 e2)) in *.
    set (fc := F2R (S754_finite false mc ec)) in *.
    set (k := 1 + ulp1) in *.
    assert (Hc255 : IZR c <= 255) by (apply IZR_le; lia).
    assert (Pc : 0 <= IZR c) by (apply IZR_le; lia).
    rewrite Vc in U1.
    assert (S1 : f1 <= 255 * fa * k).
    { eapply Rle_trans; [exact U1 |].
      apply Rmult_le_compat_r; [lra |].
      apply Rmult_le_compat_r; [lra | exact Hc255]. }
    assert (S2 : f1 * fb * k <= 255 * fa * k * fb * k).
    { apply Rmult_le_compat_r; [lra |].
      apply Rmult_le_compat_r; [lra | exact S1]. }
    eapply Rle_trans; [exact U2 |].
    eapply Rle_trans; [exact S2 |]. apply Req_le. ring.
Qed.

(** The sum of two terms. *)
Lemma sum_ub (a b : spec_float) (lo hi : Z) :
  (-140 <= lo)%Z -> (hi <= 98)%Z ->
  nonneg a lo hi -> nonneg b lo hi ->
  nonneg (Float32.add a b) lo (hi + 2)
  /\ F2R (Float32.add a b) <= (F2R a + F2R b) * (1 + ulp1).
Proof.
  intros Hlo Hhi Ha Hb.
  pose proof (F2R_nonneg a _ _ Ha) as Pa.
  pose proof (F2R_nonneg b _ _ Hb) as Pb.
  assert (U : 1 <= 1 + ulp1) by (unfold ulp1; lra).
  assert (G : forall v, 0 <= v -> v <= v * (1 + ulp1)).
  { intros v Hv. rewrite <- (Rmult_1_r v) at 1.
    apply Rmult_le_compat_l; assumption. }
  destruct Ha as [-> | (ma & ea & -> & Da & Hea)];
    destruct Hb as [-> | (mb & eb & -> & Db & Heb)].
  - split; [left; reflexivity |]. cbn. lra.
  - change (Float32.add (S754_zero false) (S754_finite false mb eb))
      with (S754_finite false mb eb).
    split.
    + right. exists mb, eb. split; [reflexivity |]. split; [exact Db | lia].
    + cbn [F2R] in *. rewrite Rplus_0_l. apply G, Pb.
  - change (Float32.add (S754_finite false ma ea) (S754_zero false))
      with (S754_finite false ma ea).
    split.
    + right. exists ma, ea. split; [reflexivity |]. split; [exact Da | lia].
    + cbn [F2R] in *. rewrite Rplus_0_r. apply G, Pa.
  - destruct (add_ub ma mb ea eb Da Db ltac:(lia) ltac:(lia))
      as [(m & e & E & Dm & He) Ub].
    rewrite E in *. split; [| exact Ub].
    right. exists m, e. split; [reflexivity |]. split; [exact Dm | lia].
Qed.

Lemma blend_bound (a0 a1 b0 b1 t00 t10 t01 t11 s1 s2 s3 : R) :
  0 <= a0 -> 0 <= a1 -> 0 <= b0 -> 0 <= b1 ->
  a0 + a1 <= 1 + ulp1 -> b0 + b1 <= 1 + ulp1 ->
  0 <= t00 -> 0 <= t10 -> 0 <= t01 -> 0 <= t11 ->
  t00 <= 255 * (a0 * b0) * ((1 + ulp1) * (1 + ulp1)) ->
  t10 <= 255 * (a1 * b0) * ((1 + ulp1) * (1 + ulp1)) ->
  t01 <= 255 * (a0 * b1) * ((1 + ulp1) * (1 + ulp1)) ->
  t11 <= 255 * (a1 * b1) * ((1 + ulp1) * (1 + ulp1)) ->
  s1 <= (t00 + t10) * (1 + ulp1) ->
  s2 <= (s1 + t01) * (1 + ulp1) ->
  s3 <= (s2 + t11) * (1 + ulp1) ->
  s3 < 256.
Proof.
  intros Ha0 Ha1 Hb0 Hb1 Ha Hb P00 P10 P01 P11 T00 T10 T01 T11 S1 S2 S3.
  set (k := 1 + ulp1) in *.
  assert (K1 : 1 <= k) by (unfold k, ulp1; lra).
  assert (K0 : 0 <= k) by lra.
  (* the three sums, all rounded three times at most *)
  assert (Q1 : s1 <= (t00 + t10) * k) by exact S1.
  assert (Q2 : s2 <= (t00 + t10 + t01) * (k * k)).
  { eapply Rle_trans; [exact S2 |].
    replace ((t00 + t10 + t01) * (k * k))
      with (((t00 + t10) * k + t01 * k) * k) by ring.
    apply Rmult_le_compat_r; [exact K0 |].
    assert (t01 <= t01 * k)
      by (rewrite <- (Rmult_1_r t01) at 1;
          apply Rmult_le_compat_l; assumption).
    lra. }
  assert (Q3 : s3 <= (t00 + t10 + t01 + t11) * (k * k * k)).
  { eapply Rle_trans; [exact S3 |].
    replace ((t00 + t10 + t01 + t11) * (k * k * k))
      with (((t00 + t10 + t01) * (k * k) + t11 * (k * k)) * k) by ring.
    apply Rmult_le_compat_r; [exact K0 |].
    assert (1 <= k * k) by (replace 1 with (1 * 1) by ring;
                            apply Rmult_le_compat; lra).
    assert (t11 <= t11 * (k * k))
      by (rewrite <- (Rmult_1_r t11) at 1;
          apply Rmult_le_compat_l; assumption).
    lra. }
  assert (Q4 : t00 + t10 + t01 + t11
               <= 255 * ((a0 + a1) * (b0 + b1)) * (k * k)).
  { replace (255 * ((a0 + a1) * (b0 + b1)) * (k * k))
      with (255 * (a0 * b0) * (k * k) + 255 * (a1 * b0) * (k * k)
            + 255 * (a0 * b1) * (k * k) + 255 * (a1 * b1) * (k * k))
      by ring.
    lra. }
  assert (Q5 : (a0 + a1) * (b0 + b1) <= k * k)
    by (apply Rmult_le_compat; lra).
  assert (Kp : 0 <= k * k) by (apply Rmult_le_pos; lra).
  assert (Kq : 0 <= k * k * k) by (apply Rmult_le_pos; lra).
  assert (Q6 : t00 + t10 + t01 + t11 <= 255 * (k * k) * (k * k)).
  { eapply Rle_trans; [exact Q4 |].
    apply Rmult_le_compat_r; [exact Kp |].
    apply Rmult_le_compat_l; [lra | exact Q5]. }
  assert (Q7 : s3 <= 255 * (k * k) * (k * k) * (k * k * k)).
  { eapply Rle_trans; [exact Q3 |].
    apply Rmult_le_compat_r; [exact Kq | exact Q6]. }
  eapply Rle_lt_trans; [exact Q7 |].
  unfold k, ulp1. lra.
Qed.

Local Close Scope R_scope.

(** The blend of one channel is defined and is a byte, whatever the four
    channel values and the two weights. *)
Lemma blend_defined (c00 c10 c01 c11 : Z) (dx dy : spec_float) :
  is_u8 c00 -> is_u8 c10 -> is_u8 c01 -> is_u8 c11 ->
  fraction dx -> fraction dy ->
  exists v, blend c00 c10 c01 c11 dx dy = Ok v /\ is_u8 v.
Proof.
  intros H00 H10 H01 H11 Hdx Hdy. unfold blend. cbv zeta.
  destruct (complement_of_fraction dx Hdx) as [Nx Sx].
  destruct (complement_of_fraction dy Hdy) as [Ny Sy].
  set (w0x := Float32.sub (Float32.of_int 1) dx) in *.
  set (w0y := Float32.sub (Float32.of_int 1) dy) in *.
  pose proof (fraction_nonneg dx Hdx) as Fx.
  pose proof (fraction_nonneg dy Hdy) as Fy.
  assert (Wx : nonneg w0x (-70) (-23)).
  { right. destruct Nx as (m & e & E & D & He).
    exists m, e. split; [exact E |]. split; [exact D | lia]. }
  assert (Wy : nonneg w0y (-70) (-23)).
  { right. destruct Ny as (m & e & E & D & He).
    exists m, e. split; [exact E |]. split; [exact D | lia]. }
  destruct (term_ub c00 w0x w0y H00 Wx Wy) as [N00 T00].
  destruct (term_ub c10 dx w0y H10 Fx Wy) as [N10 T10].
  destruct (term_ub c01 w0x dy H01 Wx Fy) as [N01 T01].
  destruct (term_ub c11 dx dy H11 Fx Fy) as [N11 T11].
  set (t00 := Float32.mul (Float32.mul (Float32.of_int c00) w0x) w0y) in *.
  set (t10 := Float32.mul (Float32.mul (Float32.of_int c10) dx) w0y) in *.
  set (t01 := Float32.mul (Float32.mul (Float32.of_int c01) w0x) dy) in *.
  set (t11 := Float32.mul (Float32.mul (Float32.of_int c11) dx) dy) in *.
  destruct (sum_ub t00 t10 (-140) 10 ltac:(lia) ltac:(lia) N00 N10)
    as [N1 S1].
  assert (N01' : nonneg t01 (-140) 12).
  { destruct N01 as [-> | (m & e & E & D & He)]; [left; reflexivity |].
    right. exists m, e. split; [exact E |]. split; [exact D | lia]. }
  destruct (sum_ub _ t01 (-140) 12 ltac:(lia) ltac:(lia) N1 N01')
    as [N2 S2].
  assert (N11' : nonneg t11 (-140) 14).
  { destruct N11 as [-> | (m & e & E & D & He)]; [left; reflexivity |].
    right. exists m, e. split; [exact E |]. split; [exact D | lia]. }
  destruct (sum_ub _ t11 (-140) 14 ltac:(lia) ltac:(lia) N2 N11')
    as [N3 S3].
  set (s3 := Float32.add (Float32.add (Float32.add t00 t10) t01) t11) in *.
  assert (B : (F2R s3 < 256)%R).
  { apply (blend_bound (F2R w0x) (F2R dx) (F2R w0y) (F2R dy)
             (F2R t00) (F2R t10) (F2R t01) (F2R t11)
             (F2R (Float32.add t00 t10))
             (F2R (Float32.add (Float32.add t00 t10) t01)));
      try assumption;
      try (eapply F2R_nonneg; eassumption). }
  unfold Float32.to_u8.
  destruct N3 as [E3 | (m & e & E3 & _)]; rewrite E3 in *.
  - exists 0. split; [reflexivity | unfold is_u8; lia].
  - destruct (trunc_le m e) as (a & Ea & Ha0 & Ha).
    rewrite Ea.
    assert (Ha255 : a <= 255).
    { assert (H : (IZR a < IZR 256)%R) by (eapply Rle_lt_trans; eassumption).
      apply lt_IZR in H. lia. }
    replace ((0 <=? a) && (a <=? 255)) with true
      by (symmetry; apply andb_true_iff; split; apply Z.leb_le; lia).
    exists a. split; [reflexivity | unfold is_u8; lia].
Qed.

End Blending.

Section Resizing.

Import BmpToHex.

Lemma nonneg_wider (f : spec_float) (lo hi lo' hi' : Z) :
  lo' <= lo -> hi <= hi' -> nonneg f lo hi -> nonneg f lo' hi'.
Proof.
  intros Hlo Hhi [-> | (m & e & -> & D & He)]; [left; reflexivity |].
  right. exists m, e. split; [reflexivity |]. split; [exact D | lia].
Qed.

Lemma to_int_trunc (f : spec_float) (a : Z) :
  Float32.to_int f = Ok a -> Float32.trunc f = Some a.
Proof.
  unfold Float32.to_int. destruct (Float32.trunc f) as [z |]; [| discriminate].
  destruct (_ && _); [| discriminate]. intros H. congruence.
Qed.

(** The weights of a sample are fractional parts. *)
Lemma sample_weights (src_w src_h dst_w dst_h dst_x dst_y : Z)
    (s : sample) :
  1 <= src_w <= INT_MAX -> 1 <= src_h <= INT_MAX ->
  1 <= dst_w <= MAX_TARGET -> 1 <= dst_h <= MAX_TARGET ->
  0 <= dst_x < dst_w -> 0 <= dst_y < dst_h ->
  sample_at src_w src_h (x_scale_of src_w dst_w) (x_scale_of src_h dst_h)
    dst_x dst_y = Ok s ->
  fraction (s_dx s) /\ fraction (s_dy s).
Proof.
  intros Hsw Hsh Hdw Hdh Hx Hy. unfold sample_at, MAX_TARGET in *.
  pose proof (coordinate_shape src_w dst_w dst_x Hsw Hdw Hx) as Cx.
  pose proof (coordinate_shape src_h dst_h dst_y Hsh Hdh Hy) as Cy.
  set (src_xf := Float32.mul (Float32.of_int dst_x) (x_scale_of src_w dst_w))
    in *.
  set (src_yf := Float32.mul (Float32.of_int dst_y) (x_scale_of src_h dst_h))
    in *.
  destruct (Float32.to_int src_xf) as [x0 |] eqn:Ex; [| discriminate].
  destruct (Float32.to_int src_yf) as [y0 |] eqn:Ey; [| discriminate].
  cbn [bind]. intros H. injection H as <-. cbn [s_dx s_dy].
  split; apply fraction_of_coordinate;
    try (apply to_int_trunc; assumption);
    eapply nonneg_wider; try eassumption; lia.
Qed.

Lemma load_In {A : Type} (a : list A) (i : Z) (x : A) :
  load a i = Ok x -> In x a.
Proof.
  unfold load. destruct (i <? 0); [discriminate |].
  destruct (nth_error a (Z.to_nat i)) as [y |] eqn:E; [| discriminate].
  intros H. injection H as <-. eapply nth_error_In, E.
Qed.

Lemma byte_pixel_loaded (src : list Pixel) (row w col : Z) (p : Pixel) :
  Forall byte_pixel src -> load_at src row w col = Ok p -> byte_pixel p.
Proof.
  intros H E. unfold load_at in E.
  destruct (index row w col) as [i |]; [| discriminate].
  cbn [bind] in E. rewrite Forall_forall in H. apply H. eapply load_In, E.
Qed.

(** One destination pixel: the loop body is defined and stores bytes. *)
Lemma resize_pixel_defined (src dst : list Pixel)
    (src_w src_h dst_w dst_h x y : Z) :
  1 <= src_w <= INT_MAX -> 1 <= src_h <= INT_MAX ->
  src_w * src_h <= INT_MAX ->
  1 <= dst_w <= MAX_TARGET -> 1 <= dst_h <= MAX_TARGET ->
  0 <= x < dst_w -> 0 <= y < dst_h ->
  Forall byte_pixel src -> Z.of_nat (length src) = src_w * src_h ->
  Z.of_nat (length dst) <= INT_MAX ->
  0 <= y * dst_w + x < Z.of_nat (length dst) ->
  exists dst',
    resize_pixel src src_w src_h dst_w (x_scale_of src_w dst_w)
      (x_scale_of src_h dst_h) x y dst = Ok dst'
    /\ length dst' = length dst
    /\ byte_pixel (at_index dst' (y * dst_w + x))
    /\ (forall j, 0 <= j -> j <> y * dst_w + x ->
          at_index dst' j = at_index dst j).
Proof.
  intros Hsw Hsh Hmax Hdw Hdh Hx Hy Hsrc Lsrc Hdmax Hi.
  destruct (sample_coordinates_bounded src_w src_h dst_w dst_h x y
              Hsw Hsh Hmax Hdw Hdh Hx Hy)
    as (s & Es & _ & _ & _ & _ & _ & _ & Hreads).
  destruct (sample_weights _ _ _ _ _ _ s Hsw Hsh Hdw Hdh Hx Hy Es)
    as [Fx Fy].
  destruct (Hreads src Lsrc) as (p00 & p10 & p01 & p11 & L00 & L10 & L01 & L11).
  unfold resize_pixel. rewrite Es. cbn [bind].
  rewrite L00, L10, L01, L11. cbn [bind].
  destruct (byte_pixel_loaded src _ _ _ p00 Hsrc L00) as (A1 & A2 & A3).
  destruct (byte_pixel_loaded src _ _ _ p10 Hsrc L10) as (B1 & B2 & B3).
  destruct (byte_pixel_loaded src _ _ _ p01 Hsrc L01) as (C1 & C2 & C3).
  destruct (byte_pixel_loaded src _ _ _ p11 Hsrc L11) as (D1 & D2 & D3).
  destruct (blend_defined _ _ _ _ _ _ A1 B1 C1 D1 Fx Fy) as (r & Er & Hr).
  destruct (blend_defined _ _ _ _ _ _ A2 B2 C2 D2 Fx Fy) as (g & Eg & Hg).
  destruct (blend_defined _ _ _ _ _ _ A3 B3 C3 D3 Fx Fy) as (b & Eb & Hb).
  rewrite Er. cbn [bind].
  rewrite (index_small y dst_w x) by (unfold MAX_TARGET in *; nia).
  cbn [bind].
  set (i := y * dst_w + x) in *.
  rewrite (update_in_range dst i) by lia. cbn [bind].
  rewrite Eg. cbn [bind].
  rewrite update_in_range by (rewrite set_nth_length; lia). cbn [bind].
  rewrite Eb. cbn [bind].
  rewrite update_in_range by (rewrite !set_nth_length; lia).
  eexists. split; [reflexivity |]. split; [| split].
  - rewrite !set_nth_length. reflexivity.
  - unfold at_index.
    rewrite !(set_nth_same _ _ _ px0) by (rewrite ?set_nth_length; lia).
    destruct (nth (Z.to_nat i) dst px0) as [r0 g0 b0].
    unfold byte_pixel. cbn.
    split; [exact Hr | split; [exact Hg | exact Hb]].
  - intros j Hj Hne. unfold at_index.
    rewrite !set_nth_other by lia. reflexivity.
Qed.

Lemma resize_cols_defined (n : nat) (src dst : list Pixel)
    (src_w src_h dst_w dst_h x y : Z) :
  1 <= src_w <= INT_MAX -> 1 <= src_h <= INT_MAX ->
  src_w * src_h <= INT_MAX ->
  1 <= dst_w <= MAX_TARGET -> 1 <= dst_h <= MAX_TARGET ->
  0 <= x -> x + Z.of_nat n = dst_w -> 0 <= y < dst_h ->
  Forall byte_pixel src -> Z.of_nat (length src) = src_w * src_h ->
  Z.of_nat (length dst) <= INT_MAX ->
  y * dst_w + dst_w <= Z.of_nat (length dst) ->
  exists dst',
    resize_cols n src src_w src_h dst_w (x_scale_of src_w dst_w)
      (x_scale_of src_h dst_h) x y dst = Ok dst'
    /\ length dst' = length dst
    /\ (forall c, x <= c < dst_w -> byte_pixel (at_index dst' (y * dst_w + c)))
    /\ (forall j, 0 <= j ->
          j < y * dst_w + x \/ y * dst_w + dst_w <= j ->
          at_index dst' j = at_index dst j).
Proof.
  revert x dst. induction n as [| n IH];
    intros x dst Hsw Hsh Hmax Hdw Hdh Hx Hn Hy Hsrc Lsrc Hdmax Ldst.
  - exists dst. cbn [resize_cols].
    split; [reflexivity |]. split; [reflexivity |].
    split; intros; [lia | reflexivity].
  - rewrite Nat2Z.inj_succ in Hn. cbn [resize_cols].
    destruct (resize_pixel_defined src dst src_w src_h dst_w dst_h x y)
      as (d1 & E1 & L1 & V1 & F1); try assumption; try nia.
    rewrite E1. cbn [bind].
    destruct (IH (x + 1) d1) as (d2 & E2 & L2 & V2 & F2);
      try assumption; try lia.
    exists d2. split; [exact E2 |]. split; [congruence |]. split.
    + intros c Hc. destruct (Z.eq_dec c x) as [-> | Hne].
      * rewrite F2 by nia. exact V1.
      * apply V2. lia.
    + intros j Hj Hout. rewrite F2 by lia. apply F1; lia.
Qed.

Lemma resize_rows_defined (n : nat) (src dst : list Pixel)
    (src_w src_h dst_w dst_h y : Z) :
  1 <= src_w <= INT_MAX -> 1 <= src_h <= INT_MAX ->
  src_w * src_h <= INT_MAX -> dst_w * dst_h <= INT_MAX ->
  1 <= dst_w <= MAX_TARGET -> 1 <= dst_h <= MAX_TARGET ->
  0 <= y -> y + Z.of_nat n = dst_h ->
  Forall byte_pixel src -> Z.of_nat (length src) = src_w * src_h ->
  Z.of_nat (length dst) = dst_w * dst_h ->
  exists dst',
    resize_rows n src src_w src_h dst_w (x_scale_of src_w dst_w)
      (x_scale_of src_h dst_h) y dst = Ok dst'
    /\ length dst' = length dst
    /\ (forall r c, y <= r < dst_h -> 0 <= c < dst_w ->
          byte_pixel (at_index dst' (r * dst_w + c)))
    /\ (forall j, 0 <= j < y * dst_w -> at_index dst' j = at_index dst j).
Proof.
  revert y dst. induction n as [| n IH];
    intros y dst Hsw Hsh Hmax Hdmax Hdw Hdh Hy Hn Hsrc Lsrc Ldst.
  - exists dst. cbn [resize_rows].
    split; [reflexivity |]. split; [reflexivity |].
    split; intros; [lia | reflexivity].
  - rewrite Nat2Z.inj_succ in Hn. cbn [resize_rows].
    destruct (resize_cols_defined (Z.to_nat dst_w) src dst src_w src_h
                dst_w dst_h 0 y)
      as (d1 & E1 & L1 & V1 & F1); try assumption; try nia.
    rewrite E1. cbn [bind].
    destruct (IH (y + 1) d1) as (d2 & E2 & L2 & V2 & F2);
      try assumption; try lia.
    exists d2. split; [exact E2 |]. split; [congruence |]. split.
    + intros r c Hr Hc. destruct (Z.eq_dec r y) as [-> | Hne].
      * rewrite F2 by nia. apply V1. lia.
      * apply V2; lia.
    + intros j Hj. rewrite F2 by nia. apply F1; lia.
Qed.

Lemma resize_bilinear_defined (src dst : list Pixel)
    (src_w src_h dst_w dst_h : Z) :
  1 <= src_w <= INT_MAX -> 1 <= src_h <= INT_MAX ->
  1 <= dst_w <= MAX_TARGET -> 1 <= dst_h <= MAX_TARGET ->
  src_w * src_h <= INT_MAX -> dst_w * dst_h <= INT_MAX ->
  Forall byte_pixel src -> Z.of_nat (length src) = src_w * src_h ->
  Z.of_nat (length dst) = dst_w * dst_h ->
  exists out,
    resize_bilinear (Some dst) src src_w src_h dst_w dst_h = Ok (Some out)
    /\ length out = length dst
    /\ Forall byte_pixel out.
Proof.
  intros Hsw Hsh Hdw Hdh Hsmax Hmax Hsrc Lsrc Ldst.
  unfold resize_bilinear, int_of.
  replace ((INT_MIN <=? dst_w * dst_h) && (dst_w * dst_h <=? INT_MAX))
    with true
    by (symmetry; apply andb_true_iff; unfold INT_MIN;
        split; apply Z.leb_le; [nia | exact Hmax]).
  cbn [bind].
  destruct (resize_rows_defined (Z.to_nat dst_h) src dst src_w src_h
              dst_w dst_h 0)
    as (out & E & L & V & _); try assumption; try lia.
  rewrite E. cbn [bind]. exists out.
  split; [reflexivity |]. split; [exact L |].
  apply (Forall_by_coordinates _ _ dst_w dst_h); try lia.
  intros x y Hx Hy. exact (V y x ltac:(lia) Hx).
Qed.

End Resizing.

Section AnyBitmap.

Import BmpToHex.

Lemma Forall_firstn_of {A : Type} (P : A -> Prop) (n : nat) (l : list A) :
  Forall P l -> Forall P (firstn n l).
Proof.
  revert n. induction l as [| x l IH]; intros [| n] H; cbn;
    try constructor.
  - inversion H; assumption.
  - apply IH. inversion H; assumption.
Qed.

Lemma Forall_skipn_of {A : Type} (P : A -> Prop) (n : nat) (l : list A) :
  Forall P l -> Forall P (skipn n l).
Proof.
  revert n. induction l as [| x l IH]; intros [| n] H; cbn;
    try assumption; try constructor.
  apply IH. inversion H; assumption.
Qed.

(** Every row that the reads leave in [row_buf] is made of bytes. *)
Lemma rows_read_bytes (n : nat) (stride : Z) (fp row_buf : list Z) :
  Forall is_u8 fp -> Forall is_u8 row_buf ->
  Forall (Forall is_u8) (rows_read n stride fp row_buf).
Proof.
  revert fp row_buf. induction n as [| n IH]; intros fp row_buf Hfp Hrow;
    cbn [rows_read]; [constructor |].
  unfold fread.
  assert (H : Forall is_u8
                (firstn (Z.to_nat stride) fp
                 ++ skipn (length (firstn (Z.to_nat stride) fp)) row_buf))
    by (apply Forall_app; split;
        [apply Forall_firstn_of | apply Forall_skipn_of]; assumption).
  constructor; [exact H |].
  apply IH; [apply Forall_skipn_of, Hfp | exact H].
Qed.

Lemma rgb_of_row_bytes (row : list Z) (c : Z) :
  Forall is_u8 row -> byte_pixel (rgb_of_row row c).
Proof.
  intros H. unfold rgb_of_row, byte_pixel. cbn [px_r px_g px_b].
  assert (G : forall i, is_u8 (nth i row 0)).
  { intros i. destruct (Nat.lt_ge_cases i (length row)) as [L | L].
    - apply Forall_nth; assumption.
    - rewrite nth_overflow by exact L. unfold is_u8. lia. }
  repeat split; apply G.
Qed.

(** The buffer read from a file of bytes holds byte pixels. *)
Lemma read_bitmap_bytes (fh : BMPFileHeader) (ih : BMPInfoHeader)
    (file row_buf : list Z) (src_pixels : list Pixel) :
  Z.of_nat (length row_buf) = row_stride_of ih ->
  Z.of_nat (length src_pixels)
  = Z.abs (biWidth ih) * Z.abs (biHeight ih) ->
  accepted fh ih -> dims_in_range ih ->
  Forall is_u8 file -> Forall is_u8 row_buf ->
  exists buf,
    read_bitmap fh ih file (Some row_buf) (Some src_pixels)
    = Ok (Z.abs (biWidth ih), Z.abs (biHeight ih), buf)
    /\ length buf = length src_pixels
    /\ Forall byte_pixel buf.
Proof.
  intros Lrow Lpix Ha Hr Hfile Hrow.
  destruct (read_bitmap_succeeds fh ih file row_buf src_pixels Lrow Lpix
              Ha Hr) as (buf & E & L & V).
  exists buf. split; [exact E |]. split; [exact L |].
  set (w := Z.abs (biWidth ih)) in *. set (h := Z.abs (biHeight ih)) in *.
  apply (Forall_by_coordinates _ _ w h); try (unfold w, h; lia).
  intros x y Hx Hy.
  set (k := if biHeight ih <? 0 then y else h - 1 - y).
  assert (Hk : 0 <= k < h)
    by (unfold k; destruct (biHeight ih <? 0); lia).
  assert (Ey : dst_row_of (biHeight ih <? 0) h k = y)
    by (unfold dst_row_of, k; destruct (biHeight ih <? 0); lia).
  specialize (V k x Hk Hx). rewrite Ey in V. rewrite V.
  apply rgb_of_row_bytes.
  pose proof (rows_read_bytes (Z.to_nat h) (row_stride_of ih)
                (fseek file (bfOffBits fh)) row_buf
                ltac:(apply Forall_skipn_of, Hfile) Hrow) as R.
  set (rows := rows_read (Z.to_nat h) (row_stride_of ih)
                 (fseek file (bfOffBits fh)) row_buf) in *.
  destruct (Nat.lt_ge_cases (Z.to_nat k) (length rows)) as [Lk | Lk].
  - exact (proj1 (Forall_nth (Forall is_u8) rows) R (Z.to_nat k) [] Lk).
  - rewrite nth_overflow by exact Lk. constructor.
Qed.

(** [main] on any bitmap it accepts. *)
Lemma main_defined (fh : BMPFileHeader) (ih : BMPInfoHeader)
    (file row_buf : list Z) (src_pixels dst : list Pixel) :
  accepted fh ih -> dims_in_range ih ->
  1 <= Z.abs (biWidth ih) -> 1 <= Z.abs (biHeight ih) ->
  Z.of_nat (length row_buf) = row_stride_of ih ->
  Z.of_nat (length src_pixels)
  = Z.abs (biWidth ih) * Z.abs (biHeight ih) ->
  Z.of_nat (length dst) = 76800 ->
  Forall is_u8 file -> Forall is_u8 row_buf ->
  exists out,
    HexOut.main fh ih file (Some row_buf) (Some src_pixels) (Some dst)
    = Ok (hex_lines (map packed_of out))
    /\ Z.of_nat (length out) = 76800
    /\ Forall byte_pixel out
    /\ Convert.main (hex_lines (map packed_of out))
       = Some (Convert.ppm_bytes (map packed_of out)).
Proof.
  intros Ha Hr Hw Hh Lrow Lpix Ldst Hfile Hrow.
  destruct (read_bitmap_bytes fh ih file row_buf src_pixels Lrow Lpix Ha Hr
              Hfile Hrow) as (buf & E & L & B).
  unfold HexOut.main. rewrite E. cbn [bind]. unfold resize_step.
  set (w := Z.abs (biWidth ih)) in *. set (h := Z.abs (biHeight ih)) in *.
  assert (Hr' := Hr). destruct Hr' as (R1 & R2 & R3). fold w h in R1, R2, R3.
  destruct ((w =? OUT_WIDTH) && (h =? OUT_HEIGHT)) eqn:Esz.
  - apply andb_true_iff in Esz as [E1 E2].
    apply Z.eqb_eq in E1, E2. unfold OUT_WIDTH in E1. unfold OUT_HEIGHT in E2.
    cbn [bind]. rewrite write_hex_spec.
    replace (76800 <=? Z.of_nat (length buf)) with true
      by (symmetry; apply Z.leb_le; nia).
    rewrite firstn_all2 by nia.
    exists buf. split; [reflexivity |]. split; [nia |].
    split; [exact B |].
    destruct (write_hex_decodes buf ltac:(nia)) as [_ D]. cbv zeta in D.
    rewrite firstn_all2 in D by nia. exact D.
  - assert (Lbuf : Z.of_nat (length buf) = w * h)
      by (rewrite L; exact Lpix).
    unfold INT_MAX in R1, R2, R3.
    change (2 ^ 31 - 1) with 2147483647 in R1, R2, R3.
    destruct (resize_bilinear_defined buf dst w h OUT_WIDTH OUT_HEIGHT
                ltac:(unfold INT_MAX; lia) ltac:(unfold INT_MAX; lia)
                ltac:(unfold OUT_WIDTH, MAX_TARGET; lia)
                ltac:(unfold OUT_HEIGHT, MAX_TARGET; lia)
                ltac:(unfold INT_MAX; lia)
                ltac:(unfold OUT_WIDTH, OUT_HEIGHT, INT_MAX; lia)
                B Lbuf ltac:(unfold OUT_WIDTH, OUT_HEIGHT; lia))
      as (out & Eo & Lo & Bo).
    rewrite Eo. cbn [bind]. rewrite write_hex_spec.
    replace (76800 <=? Z.of_nat (length out)) with true
      by (symmetry; apply Z.leb_le; lia).
    rewrite firstn_all2 by lia.
    exists out. split; [reflexivity |]. split; [lia |].
    split; [exact Bo |].
    destruct (write_hex_decodes out ltac:(lia)) as [_ D]. cbv zeta in D.
    rewrite firstn_all2 in D by lia. exact D.
Qed.

End AnyBitmap.

(** X19. The blend of [resize_bilinear] is defined for all bytes and
    all weights that are fractional parts: every intermediate value is
    a non-negative binary32 number, the rounded sum stays below 256,
    and the conversion to [uint8_t] never overflows. *)
Theorem blend_is_a_byte (c00 c10 c01 c11 : Z) (dx dy : spec_float) :
  is_u8 c00 -> is_u8 c10 -> is_u8 c01 -> is_u8 c11 ->
  fraction dx -> fraction dy ->
  exists v, BmpToHex.blend c00 c10 c01 c11 dx dy = Ok v /\ is_u8 v.
Proof. exact (blend_defined c00 c10 c01 c11 dx dy). Qed.

Lemma blend_is_a_byte_witness :
  exists v,
    BmpToHex.blend 255 255 255 255
      (S754_finite false 11184811 (-25)) (S754_zero false) = Ok v
    /\ is_u8 v.
Proof.
  apply (blend_is_a_byte 255 255 255 255
           (S754_finite false 11184811 (-25)) (S754_zero false));
    try (unfold is_u8; lia).
  - right. exists 11184811%positive, (-25).
    repeat split; first [lia | reflexivity].
  - left. reflexivity.
Defined.

(** X20. [resize_bilinear] is defined on every source of byte pixels
    whose pixel count is in the range of [int], for every destination
    of at most 2^21 pixels per axis whose pixel count is in the range
    of [int] as well: no subscript overflows, no read leaves the
    source, no conversion overflows, and the result has the size of the
    destination and holds byte pixels. *)
Theorem resize_bilinear_is_defined (src dst : list Pixel)
    (src_w src_h dst_w dst_h : Z) :
  1 <= src_w <= INT_MAX -> 1 <= src_h <= INT_MAX ->
  1 <= dst_w <= MAX_TARGET -> 1 <= dst_h <= MAX_TARGET ->
  src_w * src_h <= INT_MAX -> dst_w * dst_h <= INT_MAX ->
  Forall byte_pixel src -> Z.of_nat (length src) = src_w * src_h ->
  Z.of_nat (length dst) = dst_w * dst_h ->
  exists out,
    BmpToHex.resize_bilinear (Some dst) src src_w src_h dst_w dst_h
    = Ok (Some out)
    /\ length out = length dst
    /\ Forall byte_pixel out.
Proof. exact (resize_bilinear_defined src dst src_w src_h dst_w dst_h). Qed.

Lemma resize_bilinear_is_defined_witness :
  let src := [mkPixel 10 20 30; mkPixel 40 50 60; mkPixel 70 80 90;
              mkPixel 1 2 3; mkPixel 4 5 6; mkPixel 7 8 9] in
  let dst := [px0; px0; px0; px0] in
  exists out,
    BmpToHex.resize_bilinear (Some dst) src 3 2 2 2 = Ok (Some out)
    /\ length out = length dst
    /\ Forall byte_pixel out.
Proof.
  apply (resize_bilinear_is_defined
           [mkPixel 10 20 30; mkPixel 40 50 60; mkPixel 70 80 90;
            mkPixel 1 2 3; mkPixel 4 5 6; mkPixel 7 8 9]
           [px0; px0; px0; px0] 3 2 2 2);
    try (unfold INT_MAX, MAX_TARGET; lia).
  - repeat constructor; cbn; lia.
  - reflexivity.
  - reflexivity.
Defined.

(** X21. bmp_to_hex.c on any bitmap it accepts, of at least one pixel
    and with dimensions in the range of its [int] arithmetic, complete
    or truncated: with its three buffers allocated, every step is
    defined and the hex file holds exactly 76800 lines, the packed
    values of 76800 byte pixels; convert.c then turns that file into
    the expansion of the same 76800 values, without filling in. *)
Theorem main_writes_76800_lines (fh : BmpToHex.BMPFileHeader)
    (ih : BmpToHex.BMPInfoHeader) (file row_buf : list Z)
    (src_pixels dst : list Pixel) :
  accepted fh ih -> dims_in_range ih ->
  1 <= Z.abs (BmpToHex.biWidth ih) -> 1 <= Z.abs (BmpToHex.biHeight ih) ->
  Z.of_nat (length row_buf) = row_stride_of ih ->
  Z.of_nat (length src_pixels)
  = Z.abs (BmpToHex.biWidth ih) * Z.abs (BmpToHex.biHeight ih) ->
  Z.of_nat (length dst) = 76800 ->
  Forall is_u8 file -> Forall is_u8 row_buf ->
  exists out,
    HexOut.main fh ih file (Some row_buf) (Some src_pixels) (Some dst)
    = Ok (hex_lines (map packed_of out))
    /\ Z.of_nat (length out) = 76800
    /\ Forall byte_pixel out
    /\ Convert.main (hex_lines (map packed_of out))
       = Some (Convert.ppm_bytes (map packed_of out)).
Proof. exact (main_defined fh ih file row_buf src_pixels dst). Qed.

Lemma main_writes_76800_lines_witness :
  let fh := BmpToHex.Build_BMPFileHeader 0x4D42 90 0 0 54 in
  let ih := BmpToHex.Build_BMPInfoHeader 40 3 (-2) 1 24 0 0 0 0 0 0 in
  let file := repeat 200 (Z.to_nat 70) in
  let row_buf := repeat 0 (Z.to_nat 12) in
  let src_pixels := repeat px0 (Z.to_nat 6) in
  let dst := repeat px0 (Z.to_nat 76800) in
  exists out,
    HexOut.main fh ih file (Some row_buf) (Some src_pixels) (Some dst)
    = Ok (hex_lines (map packed_of out))
    /\ Z.of_nat (length out) = 76800
    /\ Forall byte_pixel out
    /\ Convert.main (hex_lines (map packed_of out))
       = Some (Convert.ppm_bytes (map packed_of out)).
Proof.
  apply (main_writes_76800_lines
           (BmpToHex.Build_BMPFileHeader 0x4D42 90 0 0 54)
           (BmpToHex.Build_BMPInfoHeader 40 3 (-2) 1 24 0 0 0 0 0 0)
           (repeat 200 (Z.to_nat 70)) (repeat 0 (Z.to_nat 12))
           (repeat px0 (Z.to_nat 6)) (repeat px0 (Z.to_nat 76800))).
  - repeat split.
  - unfold dims_in_range, INT_MAX. cbn. lia.
  - cbn. lia.
  - cbn. lia.
  - reflexivity.
  - reflexivity.
  - rewrite repeat_length, Z2Nat.id; lia.
  - apply Forall_repeat_u8. unfold is_u8. lia.
  - apply Forall_repeat_u8. unfold is_u8. lia.
Defined.
